(** * TreeInode: the directory inode of the Eden virtual filesystem

    A shallow embedding of [eden/fs/inodes/TreeInode.cpp].  The C++ code
    mutates a graph of shared objects (inodes held by the dispatcher, [Entry]
    objects owned through [std::unique_ptr] and aliased by raw pointers) and
    throws exceptions that leave earlier mutations in place.  It is embedded
    as a state-and-exception monad over an explicit [World]:

    - the dispatcher's inode table maps inode numbers to inode objects;
    - a heap maps addresses to [Entry] objects, directory maps hold addresses;
    - the overlay, the journal and the name manager are fields of the world;
    - system calls are answered by an oracle [kernel] and recorded, with the
      lock operations and overlay writes, in a trace (newest event first).

    [Guid::toString] of [eden/fs/utils/Guid.h] is embedded as a function
    from the fields of a GUID to the list of characters it prints. *)

From stdpp Require Import gmap strings list fin_maps.
From Stdlib Require Import ZArith Ascii.

Open Scope Z_scope.

(** ** Constants of the platform (Linux) *)

Definition ENOENT    : Z := 2.
Definition EIO       : Z := 5.
Definition EEXIST    : Z := 17.
Definition EXDEV     : Z := 18.
Definition ENOTDIR   : Z := 20.
Definition EISDIR    : Z := 21.
Definition ENOTEMPTY : Z := 39.

Definition O_RDONLY : Z := 0.
Definition O_WRONLY : Z := 1.
Definition O_RDWR   : Z := 2.
Definition O_CREAT  : Z := 64.     (* 0100 *)

Definition S_IFMT  : Z := 61440.   (* 0170000 *)
Definition S_IFDIR : Z := 16384.   (* 0040000 *)

Definition S_ISDIR (mode : Z) : bool := Z.land mode S_IFMT =? S_IFDIR.

(** Modelled from the spec: [mode_to_dtype] and [dtype_t] are declared outside
    src/; the spec only says "if source is a directory".  The directory type
    of a mode is taken as IFTODT does, [(mode & S_IFMT) >> 12], with
    [dtype_t::Dir] = DT_DIR = 4. *)
Definition mode_to_dtype (mode : Z) : Z := Z.shiftr (Z.land mode S_IFMT) 12.
Definition dtype_Dir : Z := 4.

Definition FUSE_ROOT_ID : N := 1%N.

(** ** Data model *)

Abbreviation PathComponent := string (only parsing).
Abbreviation RelativePath := (list string) (only parsing).
Abbreviation Hash := N (only parsing).

(** [RelativePath + PathComponent], [basename] and [dirname]. *)
Definition path_add (p : RelativePath) (name : PathComponent) : RelativePath :=
  p ++ [name].
Definition basename (p : RelativePath) : PathComponent := List.last p EmptyString.
Definition dirname (p : RelativePath) : RelativePath := List.removelast p.

(** An address of an [Entry] object; [nullptr] is never allocated. *)
Definition nullptr : N := 0%N.

(** [TreeInode::Entry].  A default-constructed [Entry] has mode 0, no hash and
    is not materialized. *)
Record Entry := mkEntry {
  mode : Z;
  hash : option Hash;
  materialized : bool
}.

Definition Entry_default : Entry :=
  {| mode := 0; hash := None; materialized := false |}.

Definition Entry_set_materialized (b : bool) (e : Entry) : Entry :=
  {| mode := mode e; hash := hash e; materialized := b |}.
Definition Entry_set_mode (m : Z) (e : Entry) : Entry :=
  {| mode := m; hash := hash e; materialized := materialized e |}.

(** [TreeInode::Dir].  [entries] maps a name to the [unique_ptr<Entry>] stored
    under it: an address, [nullptr] only between [operator[]] and the
    assignment that follows it. *)
Record Dir := mkDir {
  entries : gmap string N;
  dir_materialized : bool;
  treeHash : option Hash
}.

Definition Dir_default : Dir :=
  {| entries := ∅; dir_materialized := false; treeHash := None |}.

Definition Dir_set_entries (m : gmap string N) (d : Dir) : Dir :=
  {| entries := m; dir_materialized := dir_materialized d; treeHash := treeHash d |}.
Definition Dir_set_materialized (b : bool) (d : Dir) : Dir :=
  {| entries := entries d; dir_materialized := b; treeHash := treeHash d |}.
Definition Dir_set_treeHash (h : option Hash) (d : Dir) : Dir :=
  {| entries := entries d; dir_materialized := dir_materialized d; treeHash := h |}.

(** A [TreeInode] object.  Its inode number is the key under which the
    dispatcher holds it; [entry_] aliases an [Entry] of the parent's map
    ([nullptr] for the root). *)
Record TreeInode := mkTreeInode {
  contents_ : Dir;
  entry_ : N;
  parent_ : N
}.

Definition TreeInode_set_contents (d : Dir) (t : TreeInode) : TreeInode :=
  {| contents_ := d; entry_ := entry_ t; parent_ := parent_ t |}.

(** A [TreeEntryFileInode]: the parent directory and the aliased [Entry]. *)
Record TreeEntryFileInode := mkFileInode {
  file_parent : N;
  file_entry : N
}.

Inductive InodeBase :=
  | TreeI (t : TreeInode)
  | FileI (f : TreeEntryFileInode).

(** Modelled from the spec: the store's [Tree] (eden/fs/model/Tree.h is not in
    src/) "yields an iterable of (name, mode, hash)" and has a hash. *)
Record TreeEntry := mkTreeEntry {
  te_name : string;
  te_mode : Z;
  te_hash : Hash
}.
Record Tree := mkTree {
  tree_hash : Hash;
  tree_entries : list TreeEntry
}.

(** Modelled from the spec: the overlay (Overlay.h is not in src/) keeps "one
    record per materialized directory, keyed by its relative path, storing
    Dir (entries + flags + tree hash)"; a record holds entries by value. *)
Record DirImage := mkDirImage {
  img_entries : gmap string Entry;
  img_materialized : bool;
  img_treeHash : option Hash
}.

(** [JournalDelta{path}] or [JournalDelta{from, to}]. *)
Abbreviation JournalDelta := (list (list string)) (only parsing).

(** System calls issued by the inode code; paths are relative to the
    overlay's content directory ([getContentDir() + path]). *)
Inductive Syscall :=
  | sys_mkdir (path : RelativePath) (md : Z)
  | sys_lstat (path : RelativePath)
  | sys_open (path : RelativePath) (flags : Z) (md : Z)
  | sys_fstat (path : RelativePath)
  | sys_unlink (path : RelativePath)
  | sys_rmdir (path : RelativePath)
  | sys_rename (from to : RelativePath).

(** The answer to a system call: success (with [st_mode] for the stat
    family, 0 otherwise) or failure with [errno]. *)
Inductive SysResult :=
  | SysOk (st_mode : Z)
  | SysFail (errno : Z).

Inductive Event :=
  | EvSyscall (c : Syscall) (r : SysResult)
  | EvRLock (ino : N)
  | EvWLock (ino : N)
  | EvWLockDual (ino1 ino2 : N)      (* SYNCHRONIZED_DUAL *)
  | EvUnlock (ino : N)
  | EvSaveOverlayDir (path : RelativePath) (img : DirImage)
  | EvRemoveOverlayDir (path : RelativePath).

(** Modelled from the spec: the name manager (InodeNameManager is not in
    src/) "allocates stable inode IDs keyed by (parent-id, name); resolves
    id -> path".  A node is kept with its path; the node of (parent, name)
    is the node whose path is the parent's path extended by name. *)
Record World := mkWorld {
  inodes : gmap N InodeBase;             (* the dispatcher's inode table *)
  heap : gmap N Entry;                   (* live Entry objects *)
  nameMgr : gmap N (list string);        (* node id -> path *)
  overlay : gmap (list string) DirImage; (* overlay directory records *)
  journal : list (list (list string));   (* newest delta first *)
  trace : list Event                     (* newest event first *)
}.

Definition set_inodes (f : gmap N InodeBase → gmap N InodeBase) (w : World) : World :=
  {| inodes := f (inodes w); heap := heap w; nameMgr := nameMgr w;
     overlay := overlay w; journal := journal w; trace := trace w |}.
Definition set_heap (f : gmap N Entry → gmap N Entry) (w : World) : World :=
  {| inodes := inodes w; heap := f (heap w); nameMgr := nameMgr w;
     overlay := overlay w; journal := journal w; trace := trace w |}.
Definition set_nameMgr (f : gmap N (list string) → gmap N (list string)) (w : World) : World :=
  {| inodes := inodes w; heap := heap w; nameMgr := f (nameMgr w);
     overlay := overlay w; journal := journal w; trace := trace w |}.
Definition set_overlay (f : gmap (list string) DirImage → gmap (list string) DirImage)
    (w : World) : World :=
  {| inodes := inodes w; heap := heap w; nameMgr := nameMgr w;
     overlay := f (overlay w); journal := journal w; trace := trace w |}.
Definition set_journal (f : list (list (list string)) → list (list (list string)))
    (w : World) : World :=
  {| inodes := inodes w; heap := heap w; nameMgr := nameMgr w;
     overlay := overlay w; journal := f (journal w); trace := trace w |}.
Definition add_event (ev : Event) (w : World) : World :=
  {| inodes := inodes w; heap := heap w; nameMgr := nameMgr w;
     overlay := overlay w; journal := journal w; trace := ev :: trace w |}.

(** ** The monad of inode operations *)

Inductive exn :=
  | SystemError (errno : Z)  (* std::system_error, from throwSystemErrorExplicit or checkUnixError *)
  | OptionalEmpty            (* folly::Optional::value() of an empty Optional *)
  | Undefined                (* a null or dangling pointer is dereferenced *)
  | OutOfFuel.               (* the recursion bound of the model is exhausted *)

Inductive result (A : Type) :=
  | Ok (a : A)
  | Throw (e : exn).
Arguments Ok {A} a.
Arguments Throw {A} e.

(** A computation returns a value or throws, and in both cases leaves a
    world: an exception does not undo the mutations made before it. *)
Definition M (A : Type) : Type := World → result A * World.

#[global] Instance M_ret : MRet M := λ A a w, (Ok a, w).
#[global] Instance M_bind : MBind M := λ A B f m w,
  match m w with
  | (Ok a, w') => f a w'
  | (Throw e, w') => (Throw e, w')
  end.

Definition throw {A} (e : exn) : M A := λ w, (Throw e, w).
Definition gets {A} (f : World → A) : M A := λ w, (Ok (f w), w).
Definition modify (f : World → World) : M unit := λ w, (Ok tt, f w).

Definition throwSystemErrorExplicit {A} (errno : Z) : M A :=
  throw (SystemError errno).

(** RAII lock scopes: the lock is released when the scope is left, normally
    or by an exception. *)
Definition withLock {A} (acquire : Event) (release : list Event) (body : M A) : M A :=
  λ w, let '(r, w') := body (add_event acquire w) in
       (r, foldl (λ w ev, add_event ev w) w' release).

Definition withRLock {A} (i : N) (body : M A) : M A :=
  withLock (EvRLock i) [EvUnlock i] body.
Definition withWLock {A} (i : N) (body : M A) : M A :=
  withLock (EvWLock i) [EvUnlock i] body.
Definition SYNCHRONIZED_DUAL {A} (i j : N) (body : M A) : M A :=
  withLock (EvWLockDual i j) [EvUnlock j; EvUnlock i] body.

(** *** Objects *)

(** Dereference a [TreeInode*] ([this], or the owner of a [Dir*]). *)
Definition the_TreeInode (i : N) : M TreeInode := λ w,
  match inodes w !! i with
  | Some (TreeI t) => (Ok t, w)
  | _ => (Throw Undefined, w)
  end.

Definition the_contents (i : N) : M Dir :=
  t ← the_TreeInode i; mret (contents_ t).

Definition update_contents (i : N) (f : Dir → Dir) : M unit :=
  t ← the_TreeInode i;
  modify (set_inodes (<[i := TreeI (TreeInode_set_contents (f (contents_ t)) t)]>)).

(** [std::make_unique<Entry>(e)] *)
Definition new_Entry (e : Entry) : M N := λ w,
  let p := fresh ({[nullptr]} ∪ dom (heap w)) in
  (Ok p, set_heap (<[p := e]>) w).

(** Destruction of a [unique_ptr<Entry>] holding [p]. *)
Definition delete_Entry (p : N) : M unit :=
  if bool_decide (p = nullptr) then mret tt
  else modify (set_heap (delete p)).

Definition deref_Entry (p : N) : M Entry := λ w,
  match heap w !! p with
  | Some e => (Ok e, w)
  | None => (Throw Undefined, w)
  end.

Definition update_Entry (p : N) (f : Entry → Entry) : M unit :=
  e ← deref_Entry p;
  modify (set_heap (<[p := f e]>)).

(** *** The name manager *)

Definition resolvePath (nm : gmap N (list string)) (i : N) : list string :=
  default [] (nm !! i).

Definition find_node (nm : gmap N (list string)) (path : list string) : option N :=
  fst <$> List.find (λ kv, bool_decide (kv.2 = path)) (map_to_list nm).

Definition resolvePathToNode (i : N) : M RelativePath :=
  gets (λ w, resolvePath (nameMgr w) i).

(** [getNodeByName(parent, name, false)]: the node if there is one. *)
Definition getNodeByName_existing (parent : N) (name : PathComponent)
    : M (option N) :=
  gets (λ w, find_node (nameMgr w) (path_add (resolvePath (nameMgr w) parent) name)).

(** [getNodeByName(parent, name)]: the node, allocated if there is none.
    Inode ids are unique in the process: a new id is one that neither the
    name manager nor the inode table knows. *)
Definition getNodeByName (parent : N) (name : PathComponent) : M N := λ w,
  let path := path_add (resolvePath (nameMgr w) parent) name in
  match find_node (nameMgr w) path with
  | Some i => (Ok i, w)
  | None =>
      let i := fresh ({[FUSE_ROOT_ID]} ∪ dom (nameMgr w) ∪ dom (inodes w)) in
      (Ok i, set_nameMgr (<[i := path]>) w)
  end.

(** Modelled from the spec: the inode table (fusell::Dispatcher is not in
    src/) offers "lookup(id) -> Option<Inode>; insert(inode)". *)
Definition getInode (i : N) : M (option (N * InodeBase)) :=
  gets (λ w, (λ o, (i, o)) <$> inodes w !! i).

Definition recordInode (child : N * InodeBase) : M unit :=
  modify (set_inodes (<[child.1 := child.2]>)).

(** *** The journal *)

Definition addDelta (d : JournalDelta) : M unit :=
  modify (set_journal (cons d)).

(** ** The inode operations *)

Section TreeInode.

(** The operating system: the answer to a system call, given the events so
    far. *)
Variable kernel : list Event → Syscall → SysResult.

(** The object store: [getTree(hash)], a possibly null [unique_ptr<Tree>]. *)
Variable store : N → option Tree.

Definition syscall (c : Syscall) : M SysResult := λ w,
  let r := kernel (trace w) c in (Ok r, add_event (EvSyscall c r) w).

(** [folly::checkUnixError] on the result of a system call. *)
Definition checkUnixError (r : SysResult) : M Z :=
  match r with
  | SysOk v => mret v
  | SysFail errno => throw (SystemError errno)
  end.

(** *** The overlay *)

(** The by-value image of a [Dir]; every entry pointer must be live. *)
Definition Dir_image (h : gmap N Entry) (d : Dir) : option DirImage :=
  if bool_decide (map_Forall (λ _ p, is_Some (h !! p)) (entries d))
  then Some {| img_entries := omap (λ p, h !! p) (entries d);
               img_materialized := dir_materialized d;
               img_treeHash := treeHash d |}
  else None.

(** [saveOverlayDir(path, dir)] on a [Dir] given by value. *)
Definition saveOverlayDir_value (path : RelativePath) (d : Dir) : M unit := λ w,
  match Dir_image (heap w) d with
  | Some img =>
      (Ok tt, add_event (EvSaveOverlayDir path img) (set_overlay (<[path := img]>) w))
  | None => (Throw Undefined, w)
  end.

(** [saveOverlayDir(path, &contents)] on the contents of inode [i]. *)
Definition saveOverlayDir (path : RelativePath) (i : N) : M unit :=
  d ← the_contents i; saveOverlayDir_value path d.

Definition removeOverlayDir (path : RelativePath) : M unit :=
  modify (λ w, add_event (EvRemoveOverlayDir path) (set_overlay (delete path) w)).

(** Entries read back from a record are fresh [Entry] objects. *)
Fixpoint load_entries (l : list (string * Entry)) (m : gmap string N)
    : M (gmap string N) :=
  match l with
  | [] => mret m
  | (name, e) :: l' =>
      p ← new_Entry e;
      load_entries l' (<[name := p]> m)
  end.

Definition loadOverlayDir (path : RelativePath) : M (option Dir) :=
  o ← gets (λ w, overlay w !! path);
  match o with
  | None => mret None
  | Some img =>
      m ← load_entries (map_to_list (img_entries img)) ∅;
      mret (Some {| entries := m;
                    dir_materialized := img_materialized img;
                    treeHash := img_treeHash img |})
  end.

(** *** TreeInode.cpp *)

Record Attr := mkAttr {
  st_mode : Z;
  st_ino : N;
  st_nlink : Z
}.

(** [TreeInode::getAttrLocked] *)
Definition getAttrLocked (this : N) (contents : Dir) : Attr :=
  {| st_mode := Z.lor S_IFDIR 493;      (* S_IFDIR | 0755 *)
     st_ino := this;
     st_nlink := Z.of_nat (size (entries contents)) + 2 |}.

(** [TreeInode::getattr] *)
Definition getattr (this : N) : M Attr :=
  withRLock this (contents ← the_contents this; mret (getAttrLocked this contents)).

(** The loop of [TreeInode::buildDirFromTree]: [emplace] keeps an entry
    that is already there and the new [Entry] is destroyed. *)
Fixpoint emplace_entries (l : list TreeEntry) (m : gmap string N)
    : M (gmap string N) :=
  match l with
  | [] => mret m
  | treeEntry :: l' =>
      p ← new_Entry {| mode := te_mode treeEntry;
                       hash := Some (te_hash treeEntry);
                       materialized := false |};
      match m !! te_name treeEntry with
      | Some _ => delete_Entry p;; emplace_entries l' m
      | None => emplace_entries l' (<[te_name treeEntry := p]> m)
      end
  end.

(** [TreeInode::buildDirFromTree] *)
Definition buildDirFromTree (tree : option Tree) : M Dir :=
  match tree with
  | None => mret (Dir_set_materialized true Dir_default)
  | Some t =>
      m ← emplace_entries (tree_entries t) ∅;
      mret {| entries := m; dir_materialized := false; treeHash := Some (tree_hash t) |}
  end.

(** [TreeInode::getChildByNameLocked]; [contents] is the inode whose [Dir]
    the [const Dir*] argument points to.  The result is the new inode
    object with its inode number. *)
Definition getChildByNameLocked (this contents : N) (name : PathComponent)
    : M (N * InodeBase) :=
  d ← the_contents contents;
  match entries d !! name with
  | None => throwSystemErrorExplicit ENOENT
  | Some p =>
      (* Only allocate an inode number once we know that the entry exists! *)
      node ← getNodeByName this name;
      entry ← deref_Entry p;
      if S_ISDIR (mode entry) then
        match materialized entry, hash entry with
        | false, Some h =>
            dir ← buildDirFromTree (store h);
            mret (node, TreeI {| contents_ := dir; entry_ := p; parent_ := this |})
        | _, _ =>
            (* No corresponding TreeEntry, this exists only in the overlay. *)
            targetName ← resolvePathToNode node;
            overlayDir ← loadOverlayDir targetName;
            match overlayDir with
            | None => throw OptionalEmpty
            | Some dir =>
                mret (node, TreeI {| contents_ := dir; entry_ := p; parent_ := this |})
            end
        end
      else
        mret (node, FileI {| file_parent := this; file_entry := p |})
  end.

(** [TreeInode::getChildByName] *)
Definition getChildByName (this : N) (name : PathComponent) : M (N * InodeBase) :=
  withRLock this (getChildByNameLocked this this name).

(** [TreeInode::materializeDirAndParents] *)
Fixpoint materializeDirAndParents (fuel : nat) (this : N) : M unit :=
  match fuel with
  | O => throw OutOfFuel
  | S fuel' =>
      self ← the_TreeInode this;
      already ← withRLock this (c ← the_contents this; mret (dir_materialized c));
      if already : bool then mret tt
      else
        (* Ensure that our parent(s) are materialized. *)
        (if bool_decide (this ≠ FUSE_ROOT_ID) then
           _ ← the_TreeInode (parent_ self);
           materializeDirAndParents fuel' (parent_ self)
         else mret tt);;
        updateParent ← withWLock this (
          c ← the_contents this;
          if dir_materialized c then mret false
          else
            myname ← resolvePathToNode this;
            r ← syscall (sys_mkdir myname 493);
            match r with
            | SysFail errno =>
                if bool_decide (errno ≠ EEXIST) then throw (SystemError errno)
                else mret tt
            | SysOk _ => mret tt
            end;;
            update_contents this (Dir_set_materialized true);;
            saveOverlayDir myname this;;
            if bool_decide (entry_ self ≠ nullptr) then
              e ← deref_Entry (entry_ self);
              if negb (materialized e) then
                update_Entry (entry_ self) (Entry_set_materialized true);;
                mret true
              else mret false
            else mret false);
        if updateParent : bool then
          _ ← the_TreeInode (parent_ self);
          parentName ← resolvePathToNode (parent_ self);
          withWLock (parent_ self) (saveOverlayDir parentName (parent_ self))
        else mret tt
  end.

(** The file inode, attributes and node returned by [create]; the file
    handle is the one of the file inode. *)
Record CreateResult := mkCreateResult {
  cr_inode : N * TreeEntryFileInode;
  cr_attr_mode : Z;
  cr_node : N
}.

(** Modelled from the spec: [TreeEntryFileInode::finishCreate] is not in
    src/.  The spec has the file inode constructed "with the already-open
    file handle": the handle is that of the file [create] has just opened,
    and nothing is opened, read or written for it. *)
Definition finishCreate : M unit := mret tt.

(** Modelled from the spec: [FileHandle::getattr] is not in src/.  The spec
    has [create] return the attributes of the new file and has the stat
    errors of the overlay surfaced as system errors: the attributes are read
    by a stat of the open file, and the call fails when that stat fails. *)
Definition FileHandle_getattr (filePath : RelativePath) : M Z :=
  r ← syscall (sys_fstat filePath);
  checkUnixError r.

(** The write-locked part of [TreeInode::create]: the new file inode and
    its node. *)
Definition create_commit (this : N) (name : PathComponent) (flags : Z)
    (myname filePath : RelativePath) : M (N * TreeEntryFileInode * N) :=
  withWLock this (
    r ← syscall (sys_open filePath
           (Z.lor (Z.lor O_RDWR O_CREAT) (Z.land flags (Z.lnot (Z.lor O_RDONLY O_WRONLY))))
           384);                                            (* 0600 *)
    _ ← checkUnixError r;
    (* auto& entry = contents.entries[name]; *)
    c ← the_contents this;
    (if bool_decide (is_Some (entries c !! name)) then mret tt
     else update_contents this (λ d, Dir_set_entries (<[name := nullptr]> (entries d)) d));;
    (* entry = std::make_unique<Entry>(); *)
    p ← new_Entry Entry_default;
    c ← the_contents this;
    update_contents this (λ d, Dir_set_entries (<[name := p]> (entries d)) d);;
    delete_Entry (default nullptr (entries c !! name));;
    update_Entry p (Entry_set_materialized true);;
    r ← syscall (sys_fstat filePath);
    st ← checkUnixError r;
    update_Entry p (Entry_set_mode st);;
    node ← getNodeByName this name;
    let inode := (node, {| file_parent := this; file_entry := p |}) in
    finishCreate;;
    saveOverlayDir myname this;;
    mret (inode, node)).

(** [TreeInode::create]: the journal is written once the write lock is
    released, and the attributes of the new file are looked up after that. *)
Definition create (fuel : nat) (this : N) (name : PathComponent) (md flags : Z)
    : M CreateResult :=
  myname ← resolvePathToNode this;
  let targetName := path_add myname name in
  materializeDirAndParents fuel this;;
  let filePath := targetName in
  '(inode, node) ← create_commit this name flags myname filePath;
  addDelta [targetName];;
  (* Now that we have the file handle, let's look up the attributes. *)
  attr ← FileHandle_getattr filePath;
  mret {| cr_inode := inode; cr_attr_mode := attr; cr_node := node |}.

(** [TreeInode::canForget] *)
Definition canForget (this : N) : M bool :=
  withRLock this (c ← the_contents this; mret (negb (dir_materialized c))).

(** [TreeInode::lookupChildByNameLocked]; the result is [None] for a null
    [shared_ptr]. *)
Definition lookupChildByNameLocked (this contents : N) (name : PathComponent)
    : M (option (N * InodeBase)) :=
  node ← getNodeByName_existing this name;
  match node with
  | Some i => getInode i
  | None =>
      child ← getChildByNameLocked this contents name;
      recordInode child;;
      mret (Some child)
  end.

(** Modelled from the spec: [Dispatcher::lookup] is not in src/.  "The inode
    table is updated to record the new child; an existing table entry for the
    same id short-circuits construction"; the result is the [fuse_entry_param]
    of the child, of which the inode number is kept. *)
Definition Dispatcher_lookup (parent : N) (name : PathComponent) : M N :=
  withRLock parent (
    node ← getNodeByName_existing parent name;
    existing ← match node with Some i => getInode i | None => mret None end;
    match existing with
    | Some child => mret child.1
    | None =>
        child ← getChildByNameLocked parent parent name;
        recordInode child;;
        mret child.1
    end).

(** The write-locked part of [TreeInode::mkdir]. *)
Definition mkdir_commit (this : N) (name : PathComponent) (md : Z)
    (myname targetName : RelativePath) : M unit :=
  withWLock this (
    contents ← the_contents this;
    (if bool_decide (is_Some (entries contents !! name))
     then throwSystemErrorExplicit EEXIST else mret tt);;
    let dirPath := targetName in
    r ← syscall (sys_mkdir dirPath md);
    _ ← checkUnixError r;
    (* We succeeded, let's update our state *)
    r ← syscall (sys_lstat dirPath);
    st ← checkUnixError r;
    entry ← new_Entry {| mode := st; hash := None; materialized := true |};
    update_contents this (λ d, Dir_set_entries (<[name := entry]> (entries d)) d);;
    saveOverlayDir myname this;;
    saveOverlayDir_value targetName (Dir_set_materialized true Dir_default)).

(** [TreeInode::mkdir] *)
Definition mkdir (fuel : nat) (this : N) (name : PathComponent) (md : Z) : M N :=
  myname ← resolvePathToNode this;
  let targetName := path_add myname name in
  materializeDirAndParents fuel this;;
  mkdir_commit this name md myname targetName;;
  addDelta [targetName];;
  Dispatcher_lookup this name.

(** The pre-conditions of [TreeInode::unlink], checked under the read lock
    and again under the write lock; the entry found is returned. *)
Definition unlink_check (this : N) (name : PathComponent) : M N :=
  contents ← the_contents this;
  match entries contents !! name with
  | None => throwSystemErrorExplicit ENOENT
  | Some p =>
      ent ← deref_Entry p;
      if S_ISDIR (mode ent) then throwSystemErrorExplicit EISDIR else mret p
  end.

(** The write-locked part of [TreeInode::unlink]. *)
Definition unlink_commit (this : N) (name : PathComponent)
    (myname targetName : RelativePath) : M unit :=
  withWLock this (
    (* Re-check the pre-conditions in case we raced *)
    p ← unlink_check this name;
    ent ← deref_Entry p;
    (if materialized ent then
       r ← syscall (sys_unlink targetName);
       _ ← checkUnixError r; mret tt
     else mret tt);;
    (* And actually remove it *)
    update_contents this (λ d, Dir_set_entries (delete name (entries d)) d);;
    delete_Entry p;;
    saveOverlayDir myname this).

(** [TreeInode::unlink] *)
Definition unlink (fuel : nat) (this : N) (name : PathComponent) : M unit :=
  myname ← resolvePathToNode this;
  let targetName := path_add myname name in
  withRLock this (unlink_check this name);;
  materializeDirAndParents fuel this;;
  unlink_commit this name myname targetName;;
  addDelta [targetName].

(** The pre-conditions of [TreeInode::rmdir], checked under the read lock
    and again under the write lock; the entry found is returned. *)
Definition rmdir_check (this : N) (name : PathComponent) : M N :=
  contents ← the_contents this;
  match entries contents !! name with
  | None => throwSystemErrorExplicit ENOENT
  | Some p =>
      ent ← deref_Entry p;
      if negb (S_ISDIR (mode ent)) then throwSystemErrorExplicit EISDIR
      else
        targetInode ← lookupChildByNameLocked this this name;
        match targetInode with
        | None => throwSystemErrorExplicit EIO
        | Some (_, FileI _) => throwSystemErrorExplicit EIO
        | Some (i, TreeI targetDir) =>
            empty ← withRLock i
              (mret (bool_decide (entries (contents_ targetDir) = ∅)));
            if empty : bool then mret p
            else throwSystemErrorExplicit ENOTEMPTY
        end
  end.

(** The write-locked part of [TreeInode::rmdir]. *)
Definition rmdir_commit (this : N) (name : PathComponent)
    (myname targetName : RelativePath) : M unit :=
  withWLock this (
    (* Re-check the pre-conditions in case we raced *)
    p ← rmdir_check this name;
    ent ← deref_Entry p;
    (if materialized ent then
       r ← syscall (sys_rmdir targetName);
       _ ← checkUnixError r; mret tt
     else mret tt);;
    (* And actually remove it *)
    update_contents this (λ d, Dir_set_entries (delete name (entries d)) d);;
    delete_Entry p;;
    saveOverlayDir myname this;;
    removeOverlayDir targetName).

(** [TreeInode::rmdir] *)
Definition rmdir (fuel : nat) (this : N) (name : PathComponent) : M unit :=
  myname ← resolvePathToNode this;
  let targetName := path_add myname name in
  withRLock this (rmdir_check this name);;
  materializeDirAndParents fuel this;;
  rmdir_commit this name myname targetName;;
  addDelta [targetName].

(** The pre-conditions of [TreeInode::renameHelper] (the part of the
    function before "Success"); [sourceContents] and [destContents] are the
    inodes whose [Dir] the two [Dir*] arguments point to.  The entry that
    [sourceEntIter] points to is returned. *)
Definition renameHelper_check (this sourceContents : N) (sourceName : RelativePath)
    (destContents : N) (destName : RelativePath) : M N :=
  sc ← the_contents sourceContents;
  match entries sc !! basename sourceName with
  | None => throwSystemErrorExplicit ENOENT
  | Some sourceEnt =>
      dc ← the_contents destContents;
      let destEntIter := entries dc !! basename destName in
      se ← deref_Entry sourceEnt;
      match destEntIter with
      | Some destEnt =>
          if bool_decide (mode_to_dtype (mode se) = dtype_Dir) then
            (* When renaming a directory, the destination must either not
               exist or it must be an empty directory *)
            de ← deref_Entry destEnt;
            if bool_decide (mode_to_dtype (mode de) ≠ dtype_Dir)
            then throwSystemErrorExplicit ENOTDIR
            else
              targetInode ← lookupChildByNameLocked this destContents (basename destName);
              match targetInode with
              | Some (i, TreeI destDir) =>
                  empty ← withRLock i
                    (mret (bool_decide (entries (contents_ destDir) = ∅)));
                  if empty : bool then mret tt
                  else throwSystemErrorExplicit ENOTEMPTY
              | _ => throwSystemErrorExplicit EIO
              end
          else mret tt
      | None => mret tt
      end;;
      mret sourceEnt
  end.

(** The rest of [TreeInode::renameHelper]: the rename on disk and the move
    of the entry from [sourceEntIter] to the destination. *)
Definition renameHelper_move (sourceContents : N) (sourceName : RelativePath)
    (destContents : N) (destName : RelativePath) (sourceEnt : N) : M unit :=
  (* If we haven't actually materialized it yet, the rename() call will
     fail.  So don't try that. *)
  se ← deref_Entry sourceEnt;
  (if materialized se then
     r ← syscall (sys_rename sourceName destName);
     _ ← checkUnixError r; mret tt
   else mret tt);;
  (* auto& destEnt = destContents->entries[destName.basename()]; *)
  dc ← the_contents destContents;
  (if bool_decide (is_Some (entries dc !! basename destName)) then mret tt
   else update_contents destContents
          (λ d, Dir_set_entries (<[basename destName := nullptr]> (entries d)) d));;
  (* sourceEntIter = sourceContents->entries.find(sourceName.basename()); *)
  sc ← the_contents sourceContents;
  match entries sc !! basename sourceName with
  | None => throw Undefined
  | Some moved =>
      (* destEnt = std::move(sourceEntIter->second), that is
         destEnt.reset(sourceEntIter->second.release()) *)
      update_contents sourceContents
        (λ d, Dir_set_entries (<[basename sourceName := nullptr]> (entries d)) d);;
      dc ← the_contents destContents;
      update_contents destContents
        (λ d, Dir_set_entries (<[basename destName := moved]> (entries d)) d);;
      delete_Entry (default nullptr (entries dc !! basename destName));;
      (* Now remove the source information *)
      sc ← the_contents sourceContents;
      update_contents sourceContents
        (λ d, Dir_set_entries (delete (basename sourceName) (entries d)) d);;
      delete_Entry (default nullptr (entries sc !! basename sourceName));;
      saveOverlayDir (dirname sourceName) sourceContents;;
      if bool_decide (sourceContents ≠ destContents)
      then saveOverlayDir (dirname destName) destContents
      else mret tt
  end.

(** [TreeInode::renameHelper] *)
Definition renameHelper (this sourceContents : N) (sourceName : RelativePath)
    (destContents : N) (destName : RelativePath) : M unit :=
  sourceEnt ← renameHelper_check this sourceContents sourceName destContents destName;
  renameHelper_move sourceContents sourceName destContents destName sourceEnt.

(** [TreeInode::rename]; [newParent] is the inode number of the object the
    [shared_ptr<DirInode>] argument points to. *)
Definition rename (fuel : nat) (this : N) (name : PathComponent)
    (newParent : N) (newName : PathComponent) : M unit :=
  targetDir ← gets (λ w, inodes w !! newParent);
  match targetDir with
  | Some (TreeI _) =>
      myname ← resolvePathToNode this;
      let sourceName := path_add myname name in
      targetDirName ← resolvePathToNode newParent;
      let targetName := path_add targetDirName newName in
      withRLock this (
        contents ← the_contents this;
        if bool_decide (is_Some (entries contents !! name)) then mret tt
        else throwSystemErrorExplicit ENOENT);;
      materializeDirAndParents fuel this;;
      (if bool_decide (newParent = this) then
         withWLock this (renameHelper this this sourceName this targetName)
       else
         materializeDirAndParents fuel newParent;;
         SYNCHRONIZED_DUAL this newParent
           (renameHelper this this sourceName newParent targetName));;
      addDelta [sourceName; targetName]
  | _ => throwSystemErrorExplicit EXDEV
  end.

(** The requests the dispatcher makes of a directory inode. *)
Inductive Op :=
  | OpGetattr (this : N)
  | OpLookup (this : N) (name : PathComponent)
  | OpCanForget (this : N)
  | OpMaterialize (this : N)
  | OpCreate (this : N) (name : PathComponent) (md flags : Z)
  | OpMkdir (this : N) (name : PathComponent) (md : Z)
  | OpUnlink (this : N) (name : PathComponent)
  | OpRmdir (this : N) (name : PathComponent)
  | OpRename (this : N) (name : PathComponent) (newParent : N) (newName : PathComponent).

Definition run_op (fuel : nat) (op : Op) : M unit :=
  match op with
  | OpGetattr this => getattr this;; mret tt
  | OpLookup this name => Dispatcher_lookup this name;; mret tt
  | OpCanForget this => canForget this;; mret tt
  | OpMaterialize this => materializeDirAndParents fuel this
  | OpCreate this name md flags => create fuel this name md flags;; mret tt
  | OpMkdir this name md => mkdir fuel this name md;; mret tt
  | OpUnlink this name => unlink fuel this name
  | OpRmdir this name => rmdir fuel this name
  | OpRename this name newParent newName => rename fuel this name newParent newName
  end.

(** A sequence of requests; a request that throws does not stop the mount. *)
Fixpoint run_ops (fuel : nat) (ops : list Op) (w : World) : World :=
  match ops with
  | [] => w
  | op :: ops' => run_ops fuel ops' (run_op fuel op w).2
  end.

End TreeInode.

(** ** Guid.h *)

(** The Windows [GUID]: [unsigned long Data1; unsigned short Data2, Data3;
    unsigned char Data4[8]]. *)
Record GUID := mkGUID {
  Data1 : N;
  Data2 : N;
  Data3 : N;
  Data4 : list N
}.

(** The values of the field types. *)
Definition GUID_wf (g : GUID) : Prop :=
  (Data1 g < 2 ^ 32)%N ∧ (Data2 g < 2 ^ 16)%N ∧ (Data3 g < 2 ^ 16)%N ∧
  length (Data4 g) = 8%nat ∧ Forall (λ b, (b < 2 ^ 8)%N) (Data4 g).

(** The format string of [toString] is read by the fmt library, which is
    not part of the repository; its documented meaning is written out.
    The presentation type [X]: upper-case hexadecimal digits, as many as the
    value needs and at least one. *)
Definition hex_digit (d : N) : ascii :=
  nth (N.to_nat d)
    ["0"; "1"; "2"; "3"; "4"; "5"; "6"; "7"; "8"; "9"; "A"; "B"; "C"; "D"; "E"; "F"]%char
    "0"%char.

Fixpoint to_hex_fuel (fuel : nat) (n : N) (acc : list ascii) : list ascii :=
  match fuel with
  | O => acc
  | S fuel' =>
      let acc' := hex_digit (n mod 16) :: acc in
      if (n / 16 =? 0)%N then acc' else to_hex_fuel fuel' (n / 16) acc'
  end.

Definition to_hex (n : N) : list ascii :=
  to_hex_fuel (S (N.to_nat (N.size n))) n [].

(** The format specification [{:0wX}]: zero-padded on the left to the
    minimum width [w]. *)
Definition fmt_0X (w : nat) (n : N) : list ascii :=
  let s := to_hex n in replicate (w - length s) "0"%char ++ s.

(** [Guid::toString] *)
Definition toString (g : GUID) : list ascii :=
  let b i := Data4 g !!! i in
  ["{"%char] ++ fmt_0X 8 (Data1 g) ++ ["-"%char] ++ fmt_0X 4 (Data2 g) ++ ["-"%char]
  ++ fmt_0X 4 (Data3 g) ++ ["-"%char] ++ fmt_0X 2 (b 0%nat) ++ fmt_0X 2 (b 1%nat) ++ ["-"%char]
  ++ fmt_0X 2 (b 2%nat) ++ fmt_0X 2 (b 3%nat) ++ fmt_0X 2 (b 4%nat) ++ fmt_0X 2 (b 5%nat)
  ++ fmt_0X 2 (b 6%nat) ++ fmt_0X 2 (b 7%nat) ++ ["}"%char].

(** * Specification vocabulary *)

(** The directory held by inode [i], and the entry it has under a name. *)
Definition Dir_of (w : World) (i : N) : option Dir :=
  match inodes w !! i with
  | Some (TreeI t) => Some (contents_ t)
  | _ => None
  end.

Definition entry_of (w : World) (i : N) (name : string) : option N :=
  match Dir_of w i with
  | Some d => entries d !! name
  | None => None
  end.

(** The world in which the directory of inode [i] has the entries [m]. *)
Definition set_entries (i : N) (m : gmap string N) (w : World) : World :=
  set_inodes (λ tbl,
    match tbl !! i with
    | Some (TreeI t) =>
        <[i := TreeI (TreeInode_set_contents (Dir_set_entries m (contents_ t)) t)]> tbl
    | _ => tbl
    end) w.

(** P6, rename identity, between the world [w] before a rename of
    [name] in [this] to [newName] in [newParent] and the world [w'] after
    it: the destination name holds an Entry equal to the one the source name
    held, and the source name is absent. *)
Definition rename_identity (w w' : World) (this : N) (name : PathComponent)
    (newParent : N) (newName : PathComponent) : Prop :=
  ∀ p e, entry_of w this name = Some p → heap w !! p = Some e →
    (∃ q, entry_of w' newParent newName = Some q ∧ heap w' !! q = Some e) ∧
    entry_of w' this name = None.

(** [preserves R m]: whatever [m] returns or throws, the world it leaves is
    related by [R] to the world it started from. *)
Definition preserves {A} (R : relation World) (m : M A) : Prop :=
  ∀ w, R w (m w).2.

(** A computation that never throws. *)
Definition total {A} (m : M A) : Prop :=
  ∀ w, ∃ a, (m w).1 = Ok a.

(** What materialization may do to an [Entry], a [Dir] and an inode: set a
    materialized flag, and nothing else. *)
Definition Entry_le (e e' : Entry) : Prop :=
  mode e' = mode e ∧ hash e' = hash e ∧
  (materialized e = true → materialized e' = true).

Definition Dir_le (d d' : Dir) : Prop :=
  entries d' = entries d ∧ treeHash d' = treeHash d ∧
  (dir_materialized d = true → dir_materialized d' = true).

Definition Inode_le (o o' : InodeBase) : Prop :=
  match o, o' with
  | TreeI t, TreeI t' =>
      Dir_le (contents_ t) (contents_ t') ∧ entry_ t' = entry_ t ∧ parent_ t' = parent_ t
  | FileI f, FileI f' => f' = f
  | _, _ => False
  end.

Record stable (w w' : World) : Prop := mkStable {
  stable_inodes : ∀ i, option_Forall2 Inode_le (inodes w !! i) (inodes w' !! i);
  stable_heap : ∀ p, option_Forall2 Entry_le (heap w !! p) (heap w' !! p);
  stable_nameMgr : nameMgr w' = nameMgr w;
  stable_journal : journal w' = journal w
}.

(** P2: a directory that is materialized stays materialized. *)
Definition materialized_kept (w w' : World) : Prop :=
  ∀ i t, inodes w !! i = Some (TreeI t) → dir_materialized (contents_ t) = true →
    ∃ t', inodes w' !! i = Some (TreeI t') ∧ dir_materialized (contents_ t') = true.

(** What a lookup may do: load inodes under new numbers, allocate entries
    and name nodes; it changes no object that exists and writes nothing. *)
Record frame (w w' : World) : Prop := mkFrame {
  frame_inodes : inodes w ⊆ inodes w';
  frame_heap : heap w ⊆ heap w';
  frame_nameMgr : nameMgr w ⊆ nameMgr w';
  frame_overlay : overlay w' = overlay w;
  frame_journal : journal w' = journal w;
  frame_trace : trace w' = trace w
}.

(** A computation keeps a component [f] of the world, or only adds to it. *)
Definition kept {A} (f : World → A) : relation World :=
  λ w w', f w' = f w.

Definition grows {K A} `{Countable K} (f : World → gmap K A) : relation World :=
  λ w w', f w ⊆ f w'.

(** The events of a computation all satisfy [P]. *)
Definition events_in (P : Event → Prop) (w w' : World) : Prop :=
  ∃ l, trace w' = l ++ trace w ∧ Forall P l.

Definition is_lock_event (ev : Event) : Prop :=
  match ev with
  | EvRLock _ | EvWLock _ | EvWLockDual _ _ | EvUnlock _ => True
  | _ => False
  end.

(** The events of materialization: locks, [mkdir] and overlay saves. *)
Definition is_materialize_event (ev : Event) : Prop :=
  match ev with
  | EvRLock _ | EvWLock _ | EvUnlock _ => True
  | EvSyscall (sys_mkdir _ _) _ => True
  | EvSaveOverlayDir _ _ => True
  | _ => False
  end.

(** Nothing was materialized between [w] and [w']: every inode and every
    [Entry] is as it was, the overlay and the journal are untouched, and the
    only events are lock events (no system call, no overlay write). *)
Record not_materialized (w w' : World) : Prop := mkNotMaterialized {
  nm_inodes : inodes w ⊆ inodes w';
  nm_heap : heap w ⊆ heap w';
  nm_overlay : overlay w' = overlay w;
  nm_journal : journal w' = journal w;
  nm_events : events_in is_lock_event w w'
}.

(** [m] fails in [w] with the system error [errno] and has materialized
    nothing. *)
Definition fails_unmaterialized {A} (m : M A) (w : World) (errno : Z) : Prop :=
  (m w).1 = Throw (SystemError errno) ∧ not_materialized w (m w).2.

(** A computation that never throws the exception [e]. *)
Definition never_throws {A} (e : exn) (m : M A) : Prop :=
  ∀ w, (m w).1 ≠ Throw e.

(** [journals d m]: [m] appends exactly the delta [d] to the journal when it
    succeeds, and nothing when it throws. *)
Definition journals {A} (d : list (list string)) (m : M A) : Prop :=
  ∀ w, match (m w).1 with
       | Ok _ => journal (m w).2 = d :: journal w
       | Throw _ => journal (m w).2 = journal w
       end.

(** The journal delta of a mutating request, from the paths the name
    manager gives when the request starts. *)
Definition delta_of (w : World) (op : Op) : option (list (list string)) :=
  let path i name := path_add (resolvePath (nameMgr w) i) name in
  match op with
  | OpCreate this name _ _ => Some [path this name]
  | OpMkdir this name _ => Some [path this name]
  | OpUnlink this name => Some [path this name]
  | OpRmdir this name => Some [path this name]
  | OpRename this name newParent newName => Some [path this name; path newParent newName]
  | _ => None
  end.

(** Whether a request has made its change and written the journal before
    it can still fail.  That is so of one request only: a [create] whose
    materialization and write-locked part return has made and recorded the
    file, and writes the journal before it looks up the attributes. *)
Definition create_committed (kernel : list Event → Syscall → SysResult)
    (fuel : nat) (op : Op) (w : World) : bool :=
  match op with
  | OpCreate this name _ flags =>
      let myname := resolvePath (nameMgr w) this in
      match (materializeDirAndParents kernel fuel this;;
             create_commit kernel this name flags myname (path_add myname name)) w with
      | (Ok _, _) => true
      | (Throw _, _) => false
      end
  | _ => false
  end.

(** The numeral of [n] in exactly [w] upper-case hexadecimal digits. *)
Fixpoint fixed_hex (w : nat) (n : N) : list ascii :=
  match w with
  | O => []
  | S w' => fixed_hex w' (n / 16) ++ [hex_digit (n mod 16)]
  end.

Definition hex_digits : list ascii :=
  ["0"; "1"; "2"; "3"; "4"; "5"; "6"; "7"; "8"; "9"; "A"; "B"; "C"; "D"; "E"; "F"]%char.

(** The [Entry] made for a tree entry. *)
Definition Entry_of_TreeEntry (te : TreeEntry) : Entry :=
  {| mode := te_mode te; hash := Some (te_hash te); materialized := false |}.

(** The first entry of a tree with a given name. *)
Definition tree_find (name : string) (l : list TreeEntry) : option TreeEntry :=
  List.find (λ te, bool_decide (te_name te = name)) l.

(** What [buildDirFromTree] returns for a tree. *)
Definition Dir_of_Tree (t : Tree) (w w' : World) (d : Dir) : Prop :=
  dir_materialized d = false ∧ treeHash d = Some (tree_hash t) ∧
  (∀ name,
     match tree_find name (tree_entries t) with
     | Some te => ∃ p, entries d !! name = Some p ∧ p ≠ nullptr ∧ heap w !! p = None ∧
                       heap w' !! p = Some (Entry_of_TreeEntry te)
     | None => entries d !! name = None
     end) ∧
  (∀ n1 n2 p, entries d !! n1 = Some p → entries d !! n2 = Some p → n1 = n2) ∧
  heap w ⊆ heap w' ∧
  (∀ p, is_Some (heap w' !! p) →
     is_Some (heap w !! p) ∨ ∃ name, entries d !! name = Some p).

(** The flags that [TreeInode::create] passes to [open]. *)
Definition create_open_flags (flags : Z) : Z :=
  Z.lor (Z.lor O_RDWR O_CREAT) (Z.land flags (Z.lnot (Z.lor O_RDONLY O_WRONLY))).

(** The directories that a request changes. *)
Definition op_dirs (op : Op) : list N :=
  match op with
  | OpMaterialize this | OpCreate this _ _ _ | OpMkdir this _ _
  | OpUnlink this _ | OpRmdir this _ => [this]
  | OpRename this _ newParent _ => [this; newParent]
  | OpGetattr _ | OpLookup _ _ | OpCanForget _ => []
  end.

(** The number of locks that an event takes (negative: releases). *)
Definition lock_delta (ev : Event) : Z :=
  match ev with
  | EvRLock _ | EvWLock _ => 1
  | EvWLockDual _ _ => 2
  | EvUnlock _ => -1
  | _ => 0
  end.

Definition locks_held (l : list Event) : Z :=
  foldr (λ ev n, lock_delta ev + n) 0 l.

(** Between [w] and [w'] at most [n] locks were held at any time, and none
    is held at the end: the events [l] of the computation (newest first)
    release what they take, and after each of them (the older part [l2] of
    any split of [l]) between 0 and [n] locks are held. *)
Definition locks_within (n : nat) (w w' : World) : Prop :=
  ∃ l, trace w' = l ++ trace w ∧ locks_held l = 0 ∧
       ∀ l1 l2, l = l1 ++ l2 → 0 ≤ locks_held l2 ≤ Z.of_nat n.


Definition nlink (this : N) (w : World) : option Z :=
  match (getattr this w).1 with
  | Ok a => Some (st_nlink a)
  | Throw _ => None
  end.

(** ** A mount to run the code on

    The store holds the root tree with a file [a] and a directory [sub],
    which has a file [c]; nothing is materialized yet.  The kernel lets every
    call succeed. *)

Definition kernel_ok : list Event → Syscall → SysResult := λ _ c,
  match c with
  | sys_lstat _ => SysOk 16877        (* S_IFDIR | 0755 *)
  | sys_fstat _ => SysOk 33152        (* S_IFREG | 0600 *)
  | _ => SysOk 0
  end.

Definition store0 : N → option Tree := λ h,
  if (h =? 12)%N
  then Some {| tree_hash := 12;
               tree_entries := [ {| te_name := "c"; te_mode := 33188; te_hash := 13 |} ] |}
  else None.

Definition entry_a : Entry :=
  {| mode := 33188; hash := Some 11%N; materialized := false |}.   (* 0100644 *)
Definition entry_sub : Entry :=
  {| mode := 16877; hash := Some 12%N; materialized := false |}.   (* 040755 *)

Definition root0 : TreeInode :=
  {| contents_ := {| entries := <["a" := 1%N]> (<["sub" := 2%N]> ∅);
                     dir_materialized := false;
                     treeHash := Some 10%N |};
     entry_ := nullptr;
     parent_ := 0%N |}.

Definition w0 : World :=
  {| inodes := <[FUSE_ROOT_ID := TreeI root0]> ∅;
     heap := <[1%N := entry_a]> (<[2%N := entry_sub]> ∅);
     nameMgr := <[FUSE_ROOT_ID := []]> ∅;
     overlay := ∅;
     journal := [];
     trace := [] |}.

(** The inode that a lookup of [sub] loads from the store. *)
Definition sub0 : TreeInode :=
  {| contents_ := {| entries := <["c" := 3%N]> ∅;
                     dir_materialized := false;
                     treeHash := Some 12%N |};
     entry_ := 2%N;
     parent_ := FUSE_ROOT_ID |}.

(** A kernel that remembers the files made by open and removed by unlink,
    and refuses with EEXIST an open with O_EXCL of a file that exists. *)
Definition O_EXCL : Z := 128.      (* 0200 *)

Fixpoint file_exists (tr : list Event) (path : list string) : bool :=
  match tr with
  | [] => false
  | EvSyscall (sys_open p _ _) (SysOk _) :: tr' =>
      if decide (p = path) then true else file_exists tr' path
  | EvSyscall (sys_unlink p) (SysOk _) :: tr' =>
      if decide (p = path) then false else file_exists tr' path
  | _ :: tr' => file_exists tr' path
  end.

Definition kernel_fs : list Event → Syscall → SysResult := λ tr c,
  match c with
  | sys_open path flags _ =>
      if (Z.land flags O_EXCL =? O_EXCL) && file_exists tr path
      then SysFail EEXIST else SysOk 0
  | _ => kernel_ok tr c
  end.

(** A kernel on which the file of a path can be stat-ed once: a later fstat
    of it fails with EIO. *)
Fixpoint fstat_done (tr : list Event) (path : list string) : bool :=
  match tr with
  | [] => false
  | EvSyscall (sys_fstat p) (SysOk _) :: tr' =>
      if decide (p = path) then true else fstat_done tr' path
  | _ :: tr' => fstat_done tr' path
  end.

Definition kernel_fstat_once : list Event → Syscall → SysResult := λ tr c,
  match c with
  | sys_fstat path => if fstat_done tr path then SysFail EIO else kernel_ok tr c
  | _ => kernel_ok tr c
  end.

(** The same mount once the root is materialized. *)
Definition root1 : TreeInode :=
  TreeInode_set_contents (Dir_set_materialized true (contents_ root0)) root0.

Definition w1 : World :=
  set_inodes (<[FUSE_ROOT_ID := TreeI root1]>) w0.

(** A kernel that refuses with EACCES the calls that [bad] selects and lets
    every other call succeed. *)
Definition EACCES : Z := 13.

Definition kernel_refusing (bad : Syscall → bool) : list Event → Syscall → SysResult :=
  λ tr c, if bad c then SysFail EACCES else kernel_ok tr c.

Definition is_sys_open (c : Syscall) : bool :=
  match c with sys_open _ _ _ => true | _ => false end.
Definition is_sys_fstat (c : Syscall) : bool :=
  match c with sys_fstat _ => true | _ => false end.
Definition is_sys_mkdir (c : Syscall) : bool :=
  match c with sys_mkdir _ _ => true | _ => false end.

(** The mount after a [mkdir] of [d] in the root. *)
Definition w_d : World := (mkdir kernel_ok store0 2 FUSE_ROOT_ID "d" 493 w0).2.

Definition guid0 : GUID :=
  {| Data1 := 305419896; Data2 := 43981; Data3 := 15;
     Data4 := [0; 1; 171; 255; 16; 32; 48; 64]%N |}.

(** * Reasoning about computations *)

Lemma bind_unfold {A B} (m : M A) (f : A → M B) (w : World) :
  (m ≫= f) w = match m w with
               | (Ok a, w') => f a w'
               | (Throw e, w') => (Throw e, w')
               end.
Proof. reflexivity. Qed.

Lemma bind_Ok {A B} (m : M A) (f : A → M B) w a w1 :
  m w = (Ok a, w1) → (m ≫= f) w = f a w1.
Proof. intros H. rewrite bind_unfold, H. reflexivity. Qed.

Lemma bind_Throw {A B} (m : M A) (f : A → M B) w e w1 :
  m w = (Throw e, w1) → (m ≫= f) w = (Throw e, w1).
Proof. intros H. rewrite bind_unfold, H. reflexivity. Qed.

Lemma bind_inv {A B} (m : M A) (f : A → M B) w r w' :
  (m ≫= f) w = (r, w') →
  (∃ a w1, m w = (Ok a, w1) ∧ f a w1 = (r, w')) ∨
  (∃ e, m w = (Throw e, w') ∧ r = Throw e).
Proof.
  rewrite bind_unfold. destruct (m w) as [[a|e] w1]; intros H.
  - left. eauto.
  - right. inversion H; subst. eauto.
Qed.

Lemma bind_Ok_inv {A B} (m : M A) (f : A → M B) w b w' :
  (m ≫= f) w = (Ok b, w') →
  ∃ a w1, m w = (Ok a, w1) ∧ f a w1 = (Ok b, w').
Proof.
  intros H. apply bind_inv in H as [H|(e & _ & H)]; [exact H | discriminate].
Qed.

Section Preserves.
Context (R : relation World) `{!PreOrder R}.

Lemma preserves_pure {A} (m : M A) :
  (∀ w, (m w).2 = w) → preserves R m.
Proof. intros H w. rewrite H. reflexivity. Qed.

Lemma preserves_ret {A} (a : A) : preserves R (mret a).
Proof. by apply preserves_pure. Qed.

Lemma preserves_throw {A} e : preserves R (@throw A e).
Proof. by apply preserves_pure. Qed.

Lemma preserves_gets {A} (f : World → A) : preserves R (gets f).
Proof. by apply preserves_pure. Qed.

Lemma preserves_bind {A B} (m : M A) (f : A → M B) :
  preserves R m → (∀ a, preserves R (f a)) → preserves R (m ≫= f).
Proof.
  intros Hm Hf w. rewrite bind_unfold.
  specialize (Hm w). destruct (m w) as [[a|e] w1]; simpl in *.
  - etrans; [exact Hm|]. apply Hf.
  - exact Hm.
Qed.

Lemma preserves_modify (f : World → World) :
  (∀ w, R w (f w)) → preserves R (modify f).
Proof. intros H w. apply H. Qed.

Lemma preserves_withLock {A} acq rel (body : M A) :
  (∀ w, R w (add_event acq w)) →
  Forall (λ ev, ∀ w, R w (add_event ev w)) rel →
  preserves R body → preserves R (withLock acq rel body).
Proof.
  intros Hacq Hrel Hb w. unfold withLock.
  specialize (Hb (add_event acq w)).
  destruct (body (add_event acq w)) as [r w1]; simpl in *.
  etrans; [apply Hacq|]. etrans; [exact Hb|].
  clear Hb. revert w1. induction Hrel as [|ev rel Hev _ IH]; intros w1; simpl.
  - reflexivity.
  - etrans; [apply Hev|]. apply IH.
Qed.

Lemma preserves_the_TreeInode i : preserves R (the_TreeInode i).
Proof.
  apply preserves_pure. intros w. unfold the_TreeInode.
  by repeat case_match.
Qed.

Lemma preserves_the_contents i : preserves R (the_contents i).
Proof.
  apply preserves_bind; [apply preserves_the_TreeInode | intros; apply preserves_ret].
Qed.

Lemma preserves_deref_Entry p : preserves R (deref_Entry p).
Proof.
  apply preserves_pure. intros w. unfold deref_Entry. by case_match.
Qed.

Lemma preserves_getInode i : preserves R (getInode i).
Proof. apply preserves_gets. Qed.

End Preserves.

(** Stepping through a computation whose world must stay related. *)
Ltac pres_step :=
  lazymatch goal with
  | |- preserves _ (mret _) => apply preserves_ret; try apply _
  | |- preserves _ (throw _) => apply preserves_throw; try apply _
  | |- preserves _ (throwSystemErrorExplicit _) => apply preserves_throw; try apply _
  | |- preserves _ (gets _) => apply preserves_gets; try apply _
  | |- preserves _ (resolvePathToNode _) => apply preserves_gets; try apply _
  | |- preserves _ (getNodeByName_existing _ _) => apply preserves_gets; try apply _
  | |- preserves _ (getInode _) => apply preserves_gets; try apply _
  | |- preserves _ (the_TreeInode _) => apply preserves_the_TreeInode; try apply _
  | |- preserves _ (the_contents _) => apply preserves_the_contents; try apply _
  | |- preserves _ (deref_Entry _) => apply preserves_deref_Entry; try apply _
  | |- preserves _ (checkUnixError ?r) => destruct r; simpl
  | |- preserves _ (_ ≫= _) => apply preserves_bind; [try apply _ | | intros ?]
  | |- preserves _ (match ?x with _ => _ end) => destruct x
  end.

Ltac pres := repeat pres_step.

(** ** The order of materialization *)

#[global] Instance Entry_le_preorder : PreOrder Entry_le.
Proof.
  split.
  - by intros e.
  - intros e1 e2 e3 (?&?&?) (?&?&?). unfold Entry_le. split_and!; [congruence..|auto].
Qed.

#[global] Instance Dir_le_preorder : PreOrder Dir_le.
Proof.
  split.
  - by intros d.
  - intros d1 d2 d3 (?&?&?) (?&?&?). unfold Dir_le. split_and!; [congruence..|auto].
Qed.

#[global] Instance Inode_le_preorder : PreOrder Inode_le.
Proof.
  split.
  - intros [t|f]; simpl; [|done]. split_and!; done.
  - intros [t1|f1] [t2|f2] [t3|f3]; simpl; try done.
    + intros (?&?&?) (?&?&?). split_and!; [by etrans|congruence..].
    + congruence.
Qed.

#[global] Instance stable_preorder : PreOrder stable.
Proof.
  split.
  - intros w. split; done.
  - intros w1 w2 w3 [] []. split; intros; try (etrans; eauto; done); congruence.
Qed.

#[global] Instance kept_preorder {A} (f : World → A) : PreOrder (kept f).
Proof. split; unfold kept; [done | intros ???; congruence]. Qed.

#[global] Instance grows_preorder {K A} `{Countable K} (f : World → gmap K A) :
  PreOrder (grows f).
Proof.
  split.
  - intros w. unfold grows. reflexivity.
  - intros w1 w2 w3 H12 H23. unfold grows in *. by etrans.
Qed.

#[global] Instance materialized_kept_preorder : PreOrder materialized_kept.
Proof.
  split.
  - intros w i t ??. eauto.
  - intros w1 w2 w3 H12 H23 i t Hi Hm.
    destruct (H12 i t Hi Hm) as (t' & Hi' & Hm'). eauto.
Qed.

#[global] Instance frame_preorder : PreOrder frame.
Proof.
  split.
  - intros w. split; done.
  - intros w1 w2 w3 [] []. split; try (etrans; eauto; done); congruence.
Qed.

Lemma stable_materialized_kept w w' : stable w w' → materialized_kept w w'.
Proof.
  intros [Hi _ _ _] i t Ht Hm. specialize (Hi i). rewrite Ht in Hi.
  inversion Hi as [o o' Hle|]; subst. destruct o' as [t'|]; [|done].
  destruct Hle as ((_ & _ & Hmat) & _). eauto.
Qed.

Lemma frame_materialized_kept w w' : frame w w' → materialized_kept w w'.
Proof.
  intros [Hi _ _ _ _ _] i t Ht Hm. exists t. split; [|done].
  by eapply lookup_weaken.
Qed.

Lemma stable_add_event ev w : stable w (add_event ev w).
Proof. split; done. Qed.

Lemma stable_set_overlay f w : stable w (set_overlay f w).
Proof. split; done. Qed.

Lemma stable_Dir_of w w' i d :
  stable w w' → Dir_of w i = Some d →
  ∃ d', Dir_of w' i = Some d' ∧ Dir_le d d'.
Proof.
  intros [Hi _ _ _]. unfold Dir_of. specialize (Hi i).
  destruct (inodes w !! i) as [[t|]|]; intros [= <-].
  inversion Hi as [o o' Hle|]; subst. destruct o' as [t'|]; [|done].
  destruct Hle as (? & _). eauto.
Qed.

Lemma stable_entry_of w w' i name :
  stable w w' → is_Some (Dir_of w i) → entry_of w' i name = entry_of w i name.
Proof.
  intros Hst [d Hd]. destruct (stable_Dir_of _ _ _ _ Hst Hd) as (d' & Hd' & He & _).
  unfold entry_of. by rewrite Hd, Hd', He.
Qed.

Section StableSteps.
Context (kernel : list Event → Syscall → SysResult).

Lemma stable_syscall c : preserves stable (syscall kernel c).
Proof. intros w. apply stable_add_event. Qed.

Lemma stable_saveOverlayDir_value path d : preserves stable (saveOverlayDir_value path d).
Proof.
  intros w. unfold saveOverlayDir_value. case_match; simpl; [|done].
  etrans; [apply stable_set_overlay | apply stable_add_event].
Qed.

Lemma stable_saveOverlayDir path i : preserves stable (saveOverlayDir path i).
Proof. unfold saveOverlayDir. pres. apply stable_saveOverlayDir_value. Qed.

Lemma stable_update_contents i f :
  (∀ d, Dir_le d (f d)) → preserves stable (update_contents i f).
Proof.
  intros Hf w. unfold update_contents, the_TreeInode. rewrite bind_unfold.
  destruct (inodes w !! i) as [[t|]|] eqn:Hi; simpl; try done.
  split; try done. intros j. simpl.
  destruct (decide (i = j)) as [->|].
  - rewrite lookup_insert_eq, Hi. constructor. simpl. split_and!; [apply Hf|done..].
  - rewrite lookup_insert_ne by done. done.
Qed.

Lemma stable_update_Entry p f :
  (∀ e, Entry_le e (f e)) → preserves stable (update_Entry p f).
Proof.
  intros Hf w. unfold update_Entry, deref_Entry. rewrite bind_unfold.
  destruct (heap w !! p) as [e|] eqn:Hp; simpl; try done.
  split; try done. intros q. simpl.
  destruct (decide (p = q)) as [->|].
  - rewrite lookup_insert_eq, Hp. constructor. apply Hf.
  - rewrite lookup_insert_ne by done. done.
Qed.

Lemma stable_withLock {A} acq rel (body : M A) :
  preserves stable body → preserves stable (withLock acq rel body).
Proof.
  intros. apply preserves_withLock; [apply _ | intros; apply stable_add_event | | done].
  apply Forall_forall. intros. apply stable_add_event.
Qed.

(** Materialization only sets materialized flags: it keeps every entry map,
    every pointer, the name manager and the journal. *)
Lemma stable_materializeDirAndParents fuel this :
  preserves stable (materializeDirAndParents kernel fuel this).
Proof.
  revert this. induction fuel as [|fuel IH]; intros this; simpl.
  - pres.
  - pres; try (apply stable_withLock; pres);
      try apply IH;
      try apply stable_syscall;
      try apply stable_saveOverlayDir;
      try (apply stable_update_contents; intros d; by split_and!);
      try (apply stable_update_Entry; intros e; by split_and!).
Qed.

End StableSteps.

(** ** Components of the world that a computation keeps *)

Lemma kept_grows {K A} `{Countable K} (f : World → gmap K A) {B} (m : M B) :
  preserves (kept f) m → preserves (grows f) m.
Proof. intros Hm w. unfold grows. by rewrite (Hm w). Qed.

Lemma kept_inodes_materialized_kept {B} (m : M B) :
  preserves (kept inodes) m → preserves materialized_kept m.
Proof. intros Hm w i t Hi Ht. exists t. by rewrite (Hm w). Qed.

Section KeptSteps.
Context (kernel : list Event → Syscall → SysResult) (store : N → option Tree).
Context {A : Type} (f : World → A).

Lemma kept_withLock {B} acq rel (body : M B) :
  (∀ ev w, f (add_event ev w) = f w) →
  preserves (kept f) body → preserves (kept f) (withLock acq rel body).
Proof.
  intros Hev Hb. apply preserves_withLock; [apply _ | intros; apply Hev | | done].
  apply Forall_forall. intros. apply Hev.
Qed.

Lemma kept_syscall c :
  (∀ ev w, f (add_event ev w) = f w) → preserves (kept f) (syscall kernel c).
Proof. intros Hev w. apply Hev. Qed.

Lemma kept_saveOverlayDir_value path d :
  (∀ ev w, f (add_event ev w) = f w) → (∀ g w, f (set_overlay g w) = f w) →
  preserves (kept f) (saveOverlayDir_value path d).
Proof.
  intros Hev Hov w. unfold saveOverlayDir_value, kept. case_match; simpl; [|done].
  by rewrite Hev, Hov.
Qed.

Lemma kept_saveOverlayDir path i :
  (∀ ev w, f (add_event ev w) = f w) → (∀ g w, f (set_overlay g w) = f w) →
  preserves (kept f) (saveOverlayDir path i).
Proof. intros. unfold saveOverlayDir. pres. by apply kept_saveOverlayDir_value. Qed.

Lemma kept_removeOverlayDir path :
  (∀ ev w, f (add_event ev w) = f w) → (∀ g w, f (set_overlay g w) = f w) →
  preserves (kept f) (removeOverlayDir path).
Proof. intros Hev Hov w. unfold removeOverlayDir, kept. simpl. by rewrite Hev, Hov. Qed.

Lemma kept_update_contents i g :
  (∀ h w, f (set_inodes h w) = f w) → preserves (kept f) (update_contents i g).
Proof. intros Hin. unfold update_contents. pres. intros w. apply Hin. Qed.

Lemma kept_recordInode child :
  (∀ h w, f (set_inodes h w) = f w) → preserves (kept f) (recordInode child).
Proof. intros Hin w. apply Hin. Qed.

Lemma kept_new_Entry e :
  (∀ h w, f (set_heap h w) = f w) → preserves (kept f) (new_Entry e).
Proof. intros Hh w. apply Hh. Qed.

Lemma kept_delete_Entry p :
  (∀ h w, f (set_heap h w) = f w) → preserves (kept f) (delete_Entry p).
Proof. intros Hh w. unfold delete_Entry. case_match; [done | apply Hh]. Qed.

Lemma kept_update_Entry p g :
  (∀ h w, f (set_heap h w) = f w) → preserves (kept f) (update_Entry p g).
Proof. intros Hh. unfold update_Entry. pres. intros w. apply Hh. Qed.

Lemma kept_getNodeByName parent name :
  (∀ h w, f (set_nameMgr h w) = f w) → preserves (kept f) (getNodeByName parent name).
Proof. intros Hn w. unfold getNodeByName. case_match; [done | apply Hn]. Qed.

Lemma kept_addDelta d :
  (∀ h w, f (set_journal h w) = f w) → preserves (kept f) (addDelta d).
Proof. intros Hj w. apply Hj. Qed.

Lemma kept_load_entries l m :
  (∀ h w, f (set_heap h w) = f w) → preserves (kept f) (load_entries l m).
Proof.
  intros Hh. revert m. induction l as [|[name e] l IH]; intros m; simpl.
  - pres.
  - pres; [by apply kept_new_Entry | apply IH].
Qed.

Lemma kept_loadOverlayDir path :
  (∀ h w, f (set_heap h w) = f w) → preserves (kept f) (loadOverlayDir path).
Proof. intros Hh. unfold loadOverlayDir. pres. by apply kept_load_entries. Qed.

Lemma kept_emplace_entries l m :
  (∀ h w, f (set_heap h w) = f w) → preserves (kept f) (emplace_entries l m).
Proof.
  intros Hh. revert m. induction l as [|te l IH]; intros m; simpl.
  - pres.
  - pres; try apply IH; [by apply kept_new_Entry | by apply kept_delete_Entry].
Qed.

Lemma kept_buildDirFromTree tree :
  (∀ h w, f (set_heap h w) = f w) → preserves (kept f) (buildDirFromTree tree).
Proof. intros Hh. unfold buildDirFromTree. pres. by apply kept_emplace_entries. Qed.

Lemma kept_getChildByNameLocked this contents name :
  (∀ h w, f (set_heap h w) = f w) → (∀ h w, f (set_nameMgr h w) = f w) →
  preserves (kept f) (getChildByNameLocked store this contents name).
Proof.
  intros Hh Hn. unfold getChildByNameLocked.
  pres; try (by apply kept_getNodeByName);
    try (by apply kept_buildDirFromTree); by apply kept_loadOverlayDir.
Qed.

Lemma kept_materializeDirAndParents fuel this :
  (∀ ev w, f (add_event ev w) = f w) → (∀ g w, f (set_overlay g w) = f w) →
  (∀ h w, f (set_inodes h w) = f w) → (∀ h w, f (set_heap h w) = f w) →
  preserves (kept f) (materializeDirAndParents kernel fuel this).
Proof.
  intros Hev Hov Hin Hh. revert this. induction fuel as [|fuel IH]; intros this; simpl.
  - pres.
  - pres; try apply IH; try (apply kept_withLock; [done|]; pres);
      try (by apply kept_syscall);
      try (by apply kept_saveOverlayDir);
      try (by apply kept_update_contents);
      try (by apply kept_update_Entry).
Qed.

Lemma kept_lookupChildByNameLocked this contents name :
  (∀ h w, f (set_inodes h w) = f w) → (∀ h w, f (set_heap h w) = f w) →
  (∀ h w, f (set_nameMgr h w) = f w) →
  preserves (kept f) (lookupChildByNameLocked store this contents name).
Proof.
  intros Hin Hh Hn. unfold lookupChildByNameLocked.
  pres; [by apply kept_getChildByNameLocked | by apply kept_recordInode].
Qed.

Lemma kept_Dispatcher_lookup parent name :
  (∀ ev w, f (add_event ev w) = f w) →
  (∀ h w, f (set_inodes h w) = f w) → (∀ h w, f (set_heap h w) = f w) →
  (∀ h w, f (set_nameMgr h w) = f w) →
  preserves (kept f) (Dispatcher_lookup store parent name).
Proof.
  intros Hev Hin Hh Hn. unfold Dispatcher_lookup.
  apply kept_withLock; [done|].
  pres; try (by apply kept_getChildByNameLocked); by apply kept_recordInode.
Qed.

End KeptSteps.

(** Solves [preserves (kept f) m] for a step [m] of the inode code, [f]
    being a field of the world that the step does not write. *)
Ltac kept_step :=
  lazymatch goal with
  | |- preserves _ (withLock _ _ _) => apply kept_withLock; [reflexivity|]
  | |- preserves _ (withRLock _ _) => apply kept_withLock; [reflexivity|]
  | |- preserves _ (withWLock _ _) => apply kept_withLock; [reflexivity|]
  | |- preserves _ (SYNCHRONIZED_DUAL _ _ _) => apply kept_withLock; [reflexivity|]
  | |- preserves _ (syscall _ _) => apply kept_syscall; reflexivity
  | |- preserves _ (saveOverlayDir_value _ _) => apply kept_saveOverlayDir_value; reflexivity
  | |- preserves _ (saveOverlayDir _ _) => apply kept_saveOverlayDir; reflexivity
  | |- preserves _ (removeOverlayDir _) => apply kept_removeOverlayDir; reflexivity
  | |- preserves _ (update_contents _ _) => apply kept_update_contents; reflexivity
  | |- preserves _ (recordInode _) => apply kept_recordInode; reflexivity
  | |- preserves _ (new_Entry _) => apply kept_new_Entry; reflexivity
  | |- preserves _ (delete_Entry _) => apply kept_delete_Entry; reflexivity
  | |- preserves _ (update_Entry _ _) => apply kept_update_Entry; reflexivity
  | |- preserves _ (getNodeByName _ _) => apply kept_getNodeByName; reflexivity
  | |- preserves _ (addDelta _) => apply kept_addDelta; reflexivity
  | |- preserves _ (loadOverlayDir _) => apply kept_loadOverlayDir; reflexivity
  | |- preserves _ (buildDirFromTree _) => apply kept_buildDirFromTree; reflexivity
  | |- preserves _ (getChildByNameLocked _ _ _ _) =>
      apply kept_getChildByNameLocked; reflexivity
  | |- preserves _ (materializeDirAndParents _ _ _) =>
      apply kept_materializeDirAndParents; reflexivity
  | |- preserves _ (lookupChildByNameLocked _ _ _ _) =>
      apply kept_lookupChildByNameLocked; reflexivity
  | |- preserves _ (Dispatcher_lookup _ _ _) =>
      apply kept_Dispatcher_lookup; reflexivity
  | _ => pres_step
  end.

Ltac kept_steps := repeat kept_step.

(** ** Lookups

    What the steps that succeed tell about the world. *)

Lemma the_TreeInode_Ok i w t w' :
  the_TreeInode i w = (Ok t, w') → w' = w ∧ inodes w !! i = Some (TreeI t).
Proof. unfold the_TreeInode. repeat case_match; naive_solver. Qed.

Lemma the_contents_Ok i w d w' :
  the_contents i w = (Ok d, w') → w' = w ∧ Dir_of w i = Some d.
Proof.
  unfold the_contents, Dir_of. intros H.
  apply bind_Ok_inv in H as (t & w1 & Ht & H).
  apply the_TreeInode_Ok in Ht as [-> ->]. by injection H as <- <-.
Qed.

Lemma deref_Entry_Ok p w e w' :
  deref_Entry p w = (Ok e, w') → w' = w ∧ heap w !! p = Some e.
Proof. unfold deref_Entry. case_match; naive_solver. Qed.

Lemma run_the_TreeInode i w t :
  inodes w !! i = Some (TreeI t) → the_TreeInode i w = (Ok t, w).
Proof. unfold the_TreeInode. by intros ->. Qed.

Lemma run_the_contents i w t :
  inodes w !! i = Some (TreeI t) → the_contents i w = (Ok (contents_ t), w).
Proof.
  intros Hi. unfold the_contents. by rewrite (bind_Ok _ _ _ _ _ (run_the_TreeInode _ _ _ Hi)).
Qed.

Lemma run_deref_Entry p w e :
  heap w !! p = Some e → deref_Entry p w = (Ok e, w).
Proof. unfold deref_Entry. by intros ->. Qed.

Lemma find_node_Some nm path i : find_node nm path = Some i → nm !! i = Some path.
Proof.
  unfold find_node. destruct (find _ _) as [[j p]|] eqn:Hf; simpl; [|done].
  intros [= ->]. apply find_some in Hf as [Hin Hb]. simpl in Hb.
  apply bool_decide_eq_true in Hb. subst.
  apply elem_of_map_to_list, list_elem_of_In. done.
Qed.

Lemma getNodeByName_spec parent name w :
  ∃ i w', getNodeByName parent name w = (Ok i, w') ∧
    nameMgr w' !! i = Some (path_add (resolvePath (nameMgr w) parent) name) ∧
    ((find_node (nameMgr w) (path_add (resolvePath (nameMgr w) parent) name) = Some i ∧ w' = w) ∨
     (find_node (nameMgr w) (path_add (resolvePath (nameMgr w) parent) name) = None ∧
      (i ∉ dom (inodes w)) ∧ (i ∉ dom (nameMgr w)) ∧
      w' = set_nameMgr (<[i := path_add (resolvePath (nameMgr w) parent) name]>) w)).
Proof.
  unfold getNodeByName.
  destruct (find_node _ _) as [i|] eqn:Hf.
  - exists i, w. split_and!; [done | by apply find_node_Some | by left].
  - eexists _, _. split_and!; [done | simpl; apply lookup_insert_eq |].
    right. split_and!; try done.
    + pose proof (is_fresh ({[FUSE_ROOT_ID]} ∪ dom (nameMgr w) ∪ dom (inodes w))). set_solver.
    + pose proof (is_fresh ({[FUSE_ROOT_ID]} ∪ dom (nameMgr w) ∪ dom (inodes w))). set_solver.
Qed.

Lemma grows_nameMgr_getNodeByName parent name :
  preserves (grows nameMgr) (getNodeByName parent name).
Proof.
  intros w. destruct (getNodeByName_spec parent name w) as (i & w' & -> & _ & [[_ ->]|(_ & _ & Hi & ->)]);
    unfold grows; simpl; [done|].
  apply insert_subseteq. by apply not_elem_of_dom.
Qed.

Lemma new_Entry_spec e w :
  ∃ p, new_Entry e w = (Ok p, set_heap (<[p := e]>) w) ∧ p ≠ nullptr ∧ heap w !! p = None.
Proof.
  eexists. split; [reflexivity|].
  pose proof (is_fresh ({[nullptr]} ∪ dom (heap w))) as Hf.
  split; [set_solver|]. apply not_elem_of_dom. set_solver.
Qed.

Lemma grows_heap_new_Entry e : preserves (grows heap) (new_Entry e).
Proof.
  intros w. destruct (new_Entry_spec e w) as (p & -> & _ & Hp).
  unfold grows. simpl. by apply insert_subseteq.
Qed.

Lemma grows_heap_load_entries l m : preserves (grows heap) (load_entries l m).
Proof.
  revert m. induction l as [|[name e] l IH]; intros m; simpl.
  - pres.
  - pres; [apply grows_heap_new_Entry | apply IH].
Qed.

Lemma grows_heap_emplace_entries l m : preserves (grows heap) (emplace_entries l m).
Proof.
  revert m. induction l as [|te l IH]; intros m w; simpl.
  - reflexivity.
  - rewrite bind_unfold.
    destruct (new_Entry_spec {| mode := te_mode te; hash := Some (te_hash te); materialized := false |} w)
      as (p & -> & Hp & Hnew).
    destruct (m !! te_name te).
    + rewrite bind_unfold. unfold delete_Entry. rewrite bool_decide_eq_false_2 by done.
      simpl. etrans; [|apply IH]. unfold grows. simpl.
      rewrite delete_insert_id by done. done.
    + etrans; [|apply IH]. unfold grows. simpl. by apply insert_subseteq.
Qed.

Lemma grows_heap_buildDirFromTree tree : preserves (grows heap) (buildDirFromTree tree).
Proof. unfold buildDirFromTree. pres. apply grows_heap_emplace_entries. Qed.

Lemma grows_heap_loadOverlayDir path : preserves (grows heap) (loadOverlayDir path).
Proof. unfold loadOverlayDir. pres. apply grows_heap_load_entries. Qed.

Section Lookup.
Context (store : N → option Tree).

Lemma grows_heap_getChildByNameLocked this contents name :
  preserves (grows heap) (getChildByNameLocked store this contents name).
Proof.
  unfold getChildByNameLocked.
  pres; try (apply kept_grows; kept_step);
    try apply grows_heap_buildDirFromTree; apply grows_heap_loadOverlayDir.
Qed.

Lemma grows_nameMgr_getChildByNameLocked this contents name :
  preserves (grows nameMgr) (getChildByNameLocked store this contents name).
Proof.
  unfold getChildByNameLocked.
  pres; try apply grows_nameMgr_getNodeByName; apply kept_grows; kept_step.
Qed.

(** The inode number of a child is the node of (this, name): one the name
    manager had, or a new one that no inode of the table has. *)
Lemma getChildByNameLocked_node this contents name w i o w1 :
  getChildByNameLocked store this contents name w = (Ok (i, o), w1) →
  nameMgr w1 !! i = Some (path_add (resolvePath (nameMgr w) this) name) ∧
  (find_node (nameMgr w) (path_add (resolvePath (nameMgr w) this) name) = Some i ∨
   (find_node (nameMgr w) (path_add (resolvePath (nameMgr w) this) name) = None ∧
    i ∉ dom (inodes w))).
Proof.
  unfold getChildByNameLocked, the_contents. intros H.
  apply bind_Ok_inv in H as (d & w' & Hd & H).
  apply the_contents_Ok in Hd as [-> Hd].
  destruct (entries d !! name) as [p|]; [|done].
  apply bind_Ok_inv in H as (node & w2 & Hn & H).
  destruct (getNodeByName_spec this name w) as (i' & w2' & Hn' & Hpath & Hcase).
  rewrite Hn in Hn'. injection Hn' as <- <-.
  apply bind_Ok_inv in H as (e & w3 & He & H).
  apply deref_Entry_Ok in He as [-> He].
  assert (i = node ∧ nameMgr w1 = nameMgr w2) as [-> Hnm].
  { destruct (S_ISDIR (mode e)).
    - destruct (materialized e), (hash e) as [h|].
      all: apply bind_Ok_inv in H as (x & w4 & Hx & H).
      all: try (apply bind_Ok_inv in H as (y & w5 & Hy & H); destruct y; [|done]).
      all: injection H as <- <- <-.
      all: try (pose proof (kept_loadOverlayDir nameMgr x (λ _ _, eq_refl) w4) as Hk;
                rewrite Hy in Hk; simpl in Hk; unfold kept in Hk; rewrite Hk;
                revert Hx; unfold resolvePathToNode, gets; by intros [= <- <-]).
      pose proof (kept_buildDirFromTree nameMgr (store h) (λ _ _, eq_refl) w2) as Hk.
      rewrite Hx in Hk. done.
    - by injection H as <- <- <-. }
  rewrite Hnm. split; [done|].
  destruct Hcase as [[? _]|(? & ? & _)]; [by left | by right].
Qed.

Lemma getChildByNameLocked_frame this contents name w :
  inodes (getChildByNameLocked store this contents name w).2 = inodes w ∧
  frame w (getChildByNameLocked store this contents name w).2.
Proof.
  assert (∀ {A} (f : World → A),
    (∀ h w, f (set_heap h w) = f w) → (∀ h w, f (set_nameMgr h w) = f w) →
    f (getChildByNameLocked store this contents name w).2 = f w) as Hk.
  { intros A f ??. by apply (kept_getChildByNameLocked store f). }
  split; [by apply Hk|]. split; try by apply Hk.
  - by rewrite Hk.
  - apply grows_heap_getChildByNameLocked.
  - apply grows_nameMgr_getChildByNameLocked.
Qed.

Lemma frame_recordInode i o w :
  inodes w !! i = None → frame w (set_inodes (<[i := o]>) w).
Proof. intros Hi. split; try done. simpl. by apply insert_subseteq. Qed.

(** A lookup through the inode table loads at most one inode, under a
    number that the table did not hold. *)
Lemma frame_lookupChildByNameLocked this contents name :
  preserves frame (lookupChildByNameLocked store this contents name).
Proof.
  intros w. unfold lookupChildByNameLocked, getNodeByName_existing, getInode.
  rewrite bind_unfold. simpl.
  destruct (find_node _ _) as [i|] eqn:Hf; [reflexivity|].
  rewrite bind_unfold.
  destruct (getChildByNameLocked_frame this contents name w) as [Hin Hfr].
  destruct (getChildByNameLocked store this contents name w) as [[[i o]|e] w1] eqn:Hc;
    simpl in *; [|done].
  etrans; [exact Hfr|]. apply frame_recordInode.
  apply getChildByNameLocked_node in Hc as [_ [Hc|[_ Hc]]]; [congruence|].
  rewrite Hin. by apply not_elem_of_dom.
Qed.

Lemma grows_inodes_Dispatcher_lookup parent name :
  preserves (grows inodes) (Dispatcher_lookup store parent name).
Proof.
  assert (∀ ev w, grows inodes w (add_event ev w)) as Hev.
  { intros ev w. unfold grows. simpl. reflexivity. }
  unfold Dispatcher_lookup. apply preserves_withLock; [apply _| apply Hev | |].
  { apply Forall_forall. intros ev _. apply Hev. }
  intros w. unfold getNodeByName_existing, getInode. rewrite !bind_unfold. simpl.
  assert ((∀ i, find_node (nameMgr w) (path_add (resolvePath (nameMgr w) parent) name) = Some i →
                inodes w !! i = None) →
    grows inodes w
      ((getChildByNameLocked store parent parent name ≫=
        λ child, recordInode child ≫= λ _, mret child.1) w).2) as Hrec.
  { intros Hnone. rewrite bind_unfold.
    destruct (getChildByNameLocked_frame parent parent name w) as [Hin Hfr].
    destruct (getChildByNameLocked store parent parent name w) as [[[i o]|e] w1] eqn:Hc;
      simpl in *; [|by destruct Hfr].
    unfold grows. simpl. rewrite Hin. apply insert_subseteq.
    apply getChildByNameLocked_node in Hc as [_ [Hc|[_ Hc]]].
    - by apply Hnone.
    - by apply not_elem_of_dom. }
  destruct (find_node _ _) as [i|] eqn:Hf; simpl.
  - rewrite bind_unfold. unfold gets. simpl.
    destruct (inodes w !! i) as [o|] eqn:Hi; simpl; [reflexivity|].
    apply Hrec. by intros j [= <-].
  - rewrite bind_unfold. simpl. apply Hrec. done.
Qed.

End Lookup.

(** ** Materialized directories stay materialized *)

Lemma grows_inodes_materialized_kept {B} (m : M B) :
  preserves (grows inodes) m → preserves materialized_kept m.
Proof.
  intros Hm w i t Hi Ht. exists t. split; [|done].
  eapply lookup_weaken; [exact Hi | apply Hm].
Qed.

Lemma mk_withLock {B} acq rel (body : M B) :
  preserves materialized_kept body → preserves materialized_kept (withLock acq rel body).
Proof.
  assert (∀ ev w, materialized_kept w (add_event ev w)) as Hev.
  { intros ev w i t ??. eauto. }
  intros. apply preserves_withLock; [apply _ | apply Hev | | done].
  apply Forall_forall. intros ev _. apply Hev.
Qed.

Lemma mk_update_contents i f :
  (∀ d, dir_materialized d = true → dir_materialized (f d) = true) →
  preserves materialized_kept (update_contents i f).
Proof.
  intros Hf w. unfold update_contents, the_TreeInode. rewrite bind_unfold.
  destruct (inodes w !! i) as [[t|]|] eqn:Hi; simpl; try reflexivity.
  intros j tj Hj Hm. simpl. destruct (decide (i = j)) as [->|].
  - rewrite lookup_insert_eq. eexists. split; [done|]. simpl.
    apply Hf. congruence.
  - rewrite lookup_insert_ne by done. eauto.
Qed.

Section MaterializedKept.
Context (kernel : list Event → Syscall → SysResult) (store : N → option Tree).

Lemma mk_materializeDirAndParents fuel this :
  preserves materialized_kept (materializeDirAndParents kernel fuel this).
Proof.
  intros w. apply stable_materialized_kept, stable_materializeDirAndParents.
Qed.

Lemma mk_lookupChildByNameLocked this contents name :
  preserves materialized_kept (lookupChildByNameLocked store this contents name).
Proof.
  intros w. apply frame_materialized_kept, frame_lookupChildByNameLocked.
Qed.

Lemma mk_Dispatcher_lookup parent name :
  preserves materialized_kept (Dispatcher_lookup store parent name).
Proof. apply grows_inodes_materialized_kept, grows_inodes_Dispatcher_lookup. Qed.

End MaterializedKept.

(** Steps through an operation, for [materialized_kept]. *)
Ltac mk_step :=
  lazymatch goal with
  | |- preserves _ (withRLock _ _) => apply mk_withLock
  | |- preserves _ (withWLock _ _) => apply mk_withLock
  | |- preserves _ (SYNCHRONIZED_DUAL _ _ _) => apply mk_withLock
  | |- preserves _ (materializeDirAndParents _ _ _) => apply mk_materializeDirAndParents
  | |- preserves _ (lookupChildByNameLocked _ _ _ _) => apply mk_lookupChildByNameLocked
  | |- preserves _ (Dispatcher_lookup _ _ _) => apply mk_Dispatcher_lookup
  | |- preserves _ (update_contents _ _) =>
      apply mk_update_contents; intros ?; (done || (simpl; done))
  | _ => first [ pres_step | apply kept_inodes_materialized_kept; kept_step ]
  end.

Ltac mk_steps := repeat mk_step.

Section MaterializedKeptOps.
Context (kernel : list Event → Syscall → SysResult) (store : N → option Tree).

Lemma mk_create fuel this name md flags :
  preserves materialized_kept (create kernel fuel this name md flags).
Proof. unfold create, create_commit, finishCreate, FileHandle_getattr. mk_steps. Qed.

Lemma mk_mkdir fuel this name md :
  preserves materialized_kept (mkdir kernel store fuel this name md).
Proof. unfold mkdir, mkdir_commit. mk_steps. Qed.

Lemma mk_unlink fuel this name :
  preserves materialized_kept (unlink kernel fuel this name).
Proof. unfold unlink, unlink_commit, unlink_check. mk_steps. Qed.

Lemma mk_rmdir fuel this name :
  preserves materialized_kept (rmdir kernel store fuel this name).
Proof. unfold rmdir, rmdir_commit, rmdir_check. mk_steps. Qed.

Lemma mk_renameHelper this sourceContents sourceName destContents destName :
  preserves materialized_kept
    (renameHelper kernel store this sourceContents sourceName destContents destName).
Proof. unfold renameHelper, renameHelper_check, renameHelper_move. mk_steps. Qed.

Lemma mk_rename fuel this name newParent newName :
  preserves materialized_kept (rename kernel store fuel this name newParent newName).
Proof. unfold rename. mk_steps; apply mk_renameHelper. Qed.

Lemma mk_run_op fuel op :
  preserves materialized_kept (run_op kernel store fuel op).
Proof.
  destruct op; simpl.
  - unfold getattr. mk_steps.
  - mk_steps.
  - unfold canForget. mk_steps.
  - mk_steps.
  - mk_steps. apply mk_create.
  - mk_steps. apply mk_mkdir.
  - apply mk_unlink.
  - apply mk_rmdir.
  - apply mk_rename.
Qed.

Lemma mk_run_ops fuel ops w :
  materialized_kept w (run_ops kernel store fuel ops w).
Proof.
  revert w. induction ops as [|op ops IH]; intros w; simpl.
  - reflexivity.
  - etrans; [apply mk_run_op | apply IH].
Qed.

End MaterializedKeptOps.

(** ** Computations that cannot throw *)

Lemma withLock_unfold {A} acq rel (body : M A) w :
  withLock acq rel body w =
  ((body (add_event acq w)).1,
   foldl (λ w ev, add_event ev w) (body (add_event acq w)).2 rel).
Proof. unfold withLock. by destruct (body (add_event acq w)). Qed.

Lemma total_bind {A B} (m : M A) (f : A → M B) :
  total m → (∀ a, total (f a)) → total (m ≫= f).
Proof.
  intros Hm Hf w. rewrite bind_unfold. destruct (Hm w) as [a Ha].
  destruct (m w) as [r w1]. simpl in Ha. subst. apply Hf.
Qed.

Lemma total_ret {A} (a : A) : total (mret a).
Proof. intros w. by exists a. Qed.

Lemma total_gets {A} (f : World → A) : total (gets f).
Proof. intros w. by eexists. Qed.

Lemma total_new_Entry e : total (new_Entry e).
Proof. intros w. by eexists. Qed.

Lemma total_delete_Entry p : total (delete_Entry p).
Proof. intros w. unfold delete_Entry. case_match; by eexists. Qed.

Lemma total_load_entries l m : total (load_entries l m).
Proof.
  revert m. induction l as [|[name e] l IH]; intros m; simpl.
  - apply total_ret.
  - apply total_bind; [apply total_new_Entry | intros; apply IH].
Qed.

Lemma total_loadOverlayDir path : total (loadOverlayDir path).
Proof.
  unfold loadOverlayDir. apply total_bind; [apply total_gets|].
  intros [img|]; [|apply total_ret].
  apply total_bind; [apply total_load_entries | intros; apply total_ret].
Qed.

Lemma total_emplace_entries l m : total (emplace_entries l m).
Proof.
  revert m. induction l as [|te l IH]; intros m; simpl.
  - apply total_ret.
  - apply total_bind; [apply total_new_Entry | intros p].
    destruct (m !! te_name te); [|apply IH].
    apply total_bind; [apply total_delete_Entry | intros; apply IH].
Qed.

Lemma total_buildDirFromTree tree : total (buildDirFromTree tree).
Proof.
  destruct tree; simpl; [|apply total_ret].
  apply total_bind; [apply total_emplace_entries | intros; apply total_ret].
Qed.

Section LookupSpec.
Context (store : N → option Tree).

(** When the name is there, a lookup asks the name manager for the node
    first; what follows keeps the name manager, cannot throw ENOENT, and
    returns that node. *)
Lemma getChildByNameLocked_present this contents name w d p :
  Dir_of w contents = Some d → entries d !! name = Some p →
  ∃ i w2, getNodeByName this name w = (Ok i, w2) ∧
    nameMgr (getChildByNameLocked store this contents name w).2 = nameMgr w2 ∧
    (getChildByNameLocked store this contents name w).1 ≠ Throw (SystemError ENOENT) ∧
    (∀ j o, (getChildByNameLocked store this contents name w).1 = Ok (j, o) → j = i).
Proof.
  intros Hd Hp. unfold Dir_of in Hd.
  destruct (inodes w !! contents) as [[t|]|] eqn:Hi; try done. injection Hd as <-.
  destruct (getNodeByName_spec this name w) as (i & w2 & Hn & _ & Hw2).
  exists i, w2. split; [done|].
  unfold getChildByNameLocked, the_contents, the_TreeInode.
  rewrite !bind_unfold, Hi. simpl. rewrite Hp, bind_unfold, Hn, bind_unfold.
  unfold deref_Entry. destruct (heap w2 !! p) as [e|]; [|done].
  destruct (S_ISDIR (mode e)); [|by split_and!; [..|intros ?? [= <-]]].
  assert (∀ h, let r := (buildDirFromTree (store h) ≫= λ dir,
       mret (i, TreeI {| contents_ := dir; entry_ := p; parent_ := this |})) w2 in
     nameMgr r.2 = nameMgr w2 ∧ r.1 ≠ Throw (SystemError ENOENT) ∧
     (∀ j o, r.1 = Ok (j, o) → j = i)) as Hstore.
  { intros h. simpl. rewrite bind_unfold.
    pose proof (kept_buildDirFromTree nameMgr (store h) (λ _ _, eq_refl) w2) as Hk.
    destruct (total_buildDirFromTree (store h) w2) as [dir Hdir].
    destruct (buildDirFromTree (store h) w2) as [r w3]. simpl in *. subst r.
    split_and!; [done..|by intros ?? [= <-]]. }
  assert (let r := (resolvePathToNode i ≫= λ targetName, loadOverlayDir targetName ≫= λ overlayDir,
       match overlayDir with
       | None => throw OptionalEmpty
       | Some dir => mret (i, TreeI {| contents_ := dir; entry_ := p; parent_ := this |})
       end) w2 in
     nameMgr r.2 = nameMgr w2 ∧ r.1 ≠ Throw (SystemError ENOENT) ∧
     (∀ j o, r.1 = Ok (j, o) → j = i)) as Hoverlay.
  { simpl. rewrite bind_unfold. simpl. rewrite bind_unfold.
    pose proof (kept_loadOverlayDir nameMgr (resolvePath (nameMgr w2) i) (λ _ _, eq_refl) w2) as Hk.
    destruct (total_loadOverlayDir (resolvePath (nameMgr w2) i) w2) as [dir Hdir].
    destruct (loadOverlayDir _ w2) as [r w3]. simpl in *. subst r.
    destruct dir; simpl; split_and!; try done. by intros ?? [= <-]. }
  destruct (materialized e), (hash e); first [apply Hstore | apply Hoverlay].
Qed.

End LookupSpec.

(** ** The journal *)

Lemma bind_gets {A B} (g : World → A) (f : A → M B) w :
  (gets g ≫= f) w = f (g w) w.
Proof. reflexivity. Qed.

Lemma journals_bind_pre {A B} d (m : M A) (f : A → M B) :
  preserves (kept journal) m → (∀ a, journals d (f a)) → journals d (m ≫= f).
Proof.
  intros Hm Hf w. rewrite bind_unfold. specialize (Hm w). unfold kept in Hm.
  destruct (m w) as [[a|e] w1]; simpl in *; [|done].
  specialize (Hf a w1). destruct (f a w1) as [[b|e] w2]; simpl in *; congruence.
Qed.

Lemma journals_addDelta d : journals d (addDelta d).
Proof. by intros w. Qed.

Lemma journals_addDelta_ret {A} d (a : A) : journals d (addDelta d ≫= λ _, mret a).
Proof. by intros w. Qed.

Section Journal.
Context (kernel : list Event → Syscall → SysResult) (store : N → option Tree).

Lemma kept_journal_renameHelper this sourceContents sourceName destContents destName :
  preserves (kept journal)
    (renameHelper kernel store this sourceContents sourceName destContents destName).
Proof. unfold renameHelper, renameHelper_check, renameHelper_move. kept_steps. Qed.

Lemma journals_create fuel this name md flags w :
  match (create kernel fuel this name md flags w).1 with
  | Ok _ => journal (create kernel fuel this name md flags w).2
            = [path_add (resolvePath (nameMgr w) this) name] :: journal w
  | Throw e =>
      if create_committed kernel fuel (OpCreate this name md flags) w
      then journal (create kernel fuel this name md flags w).2
           = [path_add (resolvePath (nameMgr w) this) name] :: journal w ∧
           ∃ errno, e = SystemError errno ∧
             head (trace (create kernel fuel this name md flags w).2)
             = Some (EvSyscall (sys_fstat (path_add (resolvePath (nameMgr w) this) name))
                       (SysFail errno))
      else journal (create kernel fuel this name md flags w).2 = journal w
  end.
Proof.
  unfold create_committed, create, resolvePathToNode. rewrite bind_gets. cbv beta zeta.
  set (path := path_add (resolvePath (nameMgr w) this) name).
  assert (preserves (kept journal) (materializeDirAndParents kernel fuel this)) as Hm
    by kept_steps.
  assert (preserves (kept journal)
            (create_commit kernel this name flags (resolvePath (nameMgr w) this) path)) as Hc
    by (unfold create_commit, finishCreate; kept_steps).
  specialize (Hm w). unfold kept in Hm, Hc. rewrite !bind_unfold.
  destruct (materializeDirAndParents kernel fuel this w) as [[[]|e] wm]; simpl in *;
    [|exact Hm].
  specialize (Hc wm). rewrite !bind_unfold.
  destruct (create_commit kernel this name flags (resolvePath (nameMgr w) this) path wm)
    as [[[inode node]|e] wc]; simpl in *; [|congruence].
  rewrite (bind_unfold (addDelta [path])).
  change (addDelta [path] wc) with (Ok tt, set_journal (cons [path]) wc).
  cbv iota beta. rewrite (bind_unfold (FileHandle_getattr kernel path)).
  destruct (FileHandle_getattr kernel path (set_journal (cons [path]) wc))
    as [[attr|e] wa] eqn:Ha; simpl;
    revert Ha; unfold FileHandle_getattr, syscall; rewrite bind_unfold; simpl;
    destruct (kernel (trace wc) (sys_fstat path)) as [v|errno]; simpl; try done.
  - intros [= _ <-]. simpl. congruence.
  - intros [= <- <-]. simpl. split; [congruence|]. by exists errno.
Qed.

Lemma journals_unlink fuel this name w :
  match (unlink kernel fuel this name w).1 with
  | Ok _ => journal (unlink kernel fuel this name w).2
            = [path_add (resolvePath (nameMgr w) this) name] :: journal w
  | Throw _ => journal (unlink kernel fuel this name w).2 = journal w
  end.
Proof.
  unfold unlink, resolvePathToNode. rewrite bind_gets. cbv beta zeta.
  apply journals_bind_pre; [unfold unlink_check; kept_steps | intros _].
  apply journals_bind_pre; [kept_steps | intros _].
  apply journals_bind_pre; [unfold unlink_commit, unlink_check; kept_steps | intros _].
  apply journals_addDelta.
Qed.

Lemma journals_rmdir fuel this name w :
  match (rmdir kernel store fuel this name w).1 with
  | Ok _ => journal (rmdir kernel store fuel this name w).2
            = [path_add (resolvePath (nameMgr w) this) name] :: journal w
  | Throw _ => journal (rmdir kernel store fuel this name w).2 = journal w
  end.
Proof.
  unfold rmdir, resolvePathToNode. rewrite bind_gets. cbv beta zeta.
  apply journals_bind_pre; [unfold rmdir_check; kept_steps | intros _].
  apply journals_bind_pre; [kept_steps | intros _].
  apply journals_bind_pre; [unfold rmdir_commit, rmdir_check; kept_steps | intros _].
  apply journals_addDelta.
Qed.

Lemma journals_rename fuel this name newParent newName w :
  match (rename kernel store fuel this name newParent newName w).1 with
  | Ok _ => journal (rename kernel store fuel this name newParent newName w).2
            = [path_add (resolvePath (nameMgr w) this) name;
               path_add (resolvePath (nameMgr w) newParent) newName] :: journal w
  | Throw _ => journal (rename kernel store fuel this name newParent newName w).2 = journal w
  end.
Proof.
  unfold rename. rewrite bind_gets. cbv beta.
  destruct (inodes w !! newParent) as [[t|f]|]; try done.
  unfold resolvePathToNode. rewrite bind_gets. cbv beta zeta. rewrite bind_gets. cbv beta zeta.
  apply journals_bind_pre; [kept_steps | intros _].
  apply journals_bind_pre; [kept_steps | intros _].
  apply journals_bind_pre; [|intros _; apply journals_addDelta].
  kept_steps; apply kept_journal_renameHelper.
Qed.

End Journal.

(** Unfolds the steps of a computation down to the world they act on. *)
Ltac munfold :=
  unfold withWLock, withRLock, SYNCHRONIZED_DUAL, withLock,
    saveOverlayDir, saveOverlayDir_value, removeOverlayDir, update_contents, update_Entry,
    delete_Entry, deref_Entry, new_Entry, the_contents, the_TreeInode, checkUnixError, syscall,
    throwSystemErrorExplicit, throw, gets, modify, addDelta, resolvePathToNode,
    mbind, M_bind, mret, M_ret in *.

Lemma Dir_image_empty h b th :
  Dir_image h {| entries := ∅; dir_materialized := b; treeHash := th |}
  = Some {| img_entries := ∅; img_materialized := b; img_treeHash := th |}.
Proof.
  unfold Dir_image. simpl. rewrite bool_decide_eq_true_2 by apply map_Forall_empty.
  by rewrite omap_empty.
Qed.

Section JournalMkdir.
Context (kernel : list Event → Syscall → SysResult) (store : N → option Tree).

Lemma mkdir_commit_Ok this name md myname targetName w w' :
  mkdir_commit kernel this name md myname targetName w = (Ok tt, w') →
  ∃ t p e,
    inodes w' !! this = Some (TreeI t) ∧
    entries (contents_ t) !! name = Some p ∧
    heap w' !! p = Some e ∧ materialized e = true ∧
    overlay w' !! targetName
      = Some {| img_entries := ∅; img_materialized := true; img_treeHash := None |} ∧
    nameMgr w' = nameMgr w.
Proof.
  unfold mkdir_commit. munfold. unfold Dir_set_materialized, Dir_default. simpl.
  intros H. repeat (case_match; simplify_eq/=; try done).
  all: rewrite ?Dir_image_empty in *; simplify_eq/=.
  all: eexists _, _, _; rewrite !lookup_insert_eq; split_and!; try done.
  all: try by rewrite lookup_insert_eq.
  all: simpl; by rewrite lookup_insert_eq.
Qed.

Lemma loadOverlayDir_Some path img w :
  overlay w !! path = Some img →
  ∃ d, (loadOverlayDir path w).1 = Ok (Some d).
Proof.
  intros Ho. unfold loadOverlayDir. rewrite bind_gets, Ho, bind_unfold.
  destruct (total_load_entries (map_to_list (img_entries img)) ∅ w) as [m Hm].
  destruct (load_entries _ _ w) as [r w1]. simpl in Hm. subst r. simpl. eauto.
Qed.

(** The child of a name whose entry is materialized is loaded when the
    overlay has a record under the path of (this, name). *)
Lemma getChildByNameLocked_Ok this name w t p e :
  inodes w !! this = Some (TreeI t) →
  entries (contents_ t) !! name = Some p →
  heap w !! p = Some e → materialized e = true →
  is_Some (overlay w !! path_add (resolvePath (nameMgr w) this) name) →
  ∃ child, (getChildByNameLocked store this this name w).1 = Ok child.
Proof.
  intros Hi Hp He Hm [img Ho].
  destruct (getNodeByName_spec this name w) as (i & w2 & Hn & Hpath & Hw2).
  assert (heap w2 = heap w ∧ overlay w2 = overlay w) as [Hh2 Ho2]
    by (destruct Hw2 as [[_ ->]|(_ & _ & _ & ->)]; done).
  unfold getChildByNameLocked.
  rewrite (bind_Ok _ _ _ _ _ (run_the_contents _ _ _ Hi)), Hp.
  rewrite (bind_Ok _ _ _ _ _ Hn).
  rewrite (bind_Ok _ _ _ e w2) by (apply run_deref_Entry; congruence).
  destruct (S_ISDIR (mode e)); [|by eexists].
  rewrite Hm. unfold resolvePathToNode. rewrite bind_gets. cbv beta.
  unfold resolvePath at 1. rewrite Hpath. simpl.
  rewrite bind_unfold.
  destruct (loadOverlayDir_Some (path_add (resolvePath (nameMgr w) this) name) img w2)
    as [d Hd]; [congruence|].
  destruct (loadOverlayDir _ w2) as [r w3]. simpl in Hd. subst r. by eexists.
Qed.

Lemma Dispatcher_lookup_Ok this name w t p e :
  inodes w !! this = Some (TreeI t) →
  entries (contents_ t) !! name = Some p →
  heap w !! p = Some e → materialized e = true →
  is_Some (overlay w !! path_add (resolvePath (nameMgr w) this) name) →
  ∃ i, (Dispatcher_lookup store this name w).1 = Ok i.
Proof.
  intros Hi Hp He Hm Ho. unfold Dispatcher_lookup, withRLock.
  rewrite withLock_unfold. simpl.
  unfold getNodeByName_existing. rewrite bind_gets. cbv beta.
  assert (∃ i, ((getChildByNameLocked store this this name ≫=
                 λ child, recordInode child ≫= λ _, mret child.1)
                (add_event (EvRLock this) w)).1 = Ok i) as Hload.
  { rewrite bind_unfold.
    destruct (getChildByNameLocked_Ok this name (add_event (EvRLock this) w) t p e)
      as [child Hc]; try done.
    destruct (getChildByNameLocked _ _ _ _ _) as [r w1]. simpl in Hc. subst r.
    by eexists. }
  destruct (find_node _ _) as [i|].
  - unfold getInode. rewrite bind_gets. cbv beta.
    destruct (inodes _ !! i); simpl; [by eexists | exact Hload].
  - rewrite bind_unfold. simpl. exact Hload.
Qed.

Lemma journals_mkdir fuel this name md w :
  match (mkdir kernel store fuel this name md w).1 with
  | Ok _ => journal (mkdir kernel store fuel this name md w).2
            = [path_add (resolvePath (nameMgr w) this) name] :: journal w
  | Throw _ => journal (mkdir kernel store fuel this name md w).2 = journal w
  end.
Proof.
  unfold mkdir, resolvePathToNode. rewrite bind_gets. cbv beta zeta.
  rewrite bind_unfold.
  pose proof (kept_materializeDirAndParents kernel journal fuel this
                (λ _ _, eq_refl) (λ _ _, eq_refl) (λ _ _, eq_refl) (λ _ _, eq_refl) w) as Hj1.
  pose proof (kept_materializeDirAndParents kernel nameMgr fuel this
                (λ _ _, eq_refl) (λ _ _, eq_refl) (λ _ _, eq_refl) (λ _ _, eq_refl) w) as Hn1.
  destruct (materializeDirAndParents kernel fuel this w) as [[[]|e1] w1]; [|done].
  unfold kept in *. simpl in Hj1, Hn1. rewrite bind_unfold.
  assert (preserves (kept journal)
    (mkdir_commit kernel this name md (resolvePath (nameMgr w) this)
       (path_add (resolvePath (nameMgr w) this) name))) as Hj2
    by (unfold mkdir_commit; kept_steps).
  specialize (Hj2 w1). unfold kept in Hj2.
  destruct (mkdir_commit _ _ _ _ _ _ w1) as [[[]|e2] w2] eqn:Hc; simpl in Hj2;
    [|simpl; congruence].
  apply mkdir_commit_Ok in Hc as (t & p & e & Hi & Hp & He & Hm & Ho & Hn2).
  rewrite bind_unfold. simpl.
  pose proof (kept_Dispatcher_lookup store journal this name
                (λ _ _, eq_refl) (λ _ _, eq_refl) (λ _ _, eq_refl) (λ _ _, eq_refl)
                (set_journal (cons [path_add (resolvePath (nameMgr w) this) name]) w2)) as Hj3.
  destruct (Dispatcher_lookup_Ok this name
              (set_journal (cons [path_add (resolvePath (nameMgr w) this) name]) w2) t p e)
    as [i Hok]; try done.
  { simpl. rewrite Hn2, Hn1, Ho. by eexists. }
  rewrite Hok. rewrite Hj3. simpl. congruence.
Qed.

End JournalMkdir.

(** ** The events of materialization *)

#[global] Instance events_in_preorder P : PreOrder (events_in P).
Proof.
  split.
  - intros w. by exists [].
  - intros w1 w2 w3 (l1 & H1 & F1) (l2 & H2 & F2). exists (l2 ++ l1).
    split; [by rewrite H2, H1, app_assoc | by apply Forall_app].
Qed.

Lemma events_in_add_event (P : Event → Prop) ev w :
  P ev → events_in P w (add_event ev w).
Proof. intros HP. exists [ev]. split; [done | by constructor]. Qed.

Lemma events_in_kept (P : Event → Prop) {A} (m : M A) :
  preserves (kept trace) m → preserves (events_in P) m.
Proof. intros Hm w. exists []. split; [apply Hm | done]. Qed.

Lemma events_in_withLock (P : Event → Prop) {A} acq rel (body : M A) :
  P acq → Forall P rel →
  preserves (events_in P) body → preserves (events_in P) (withLock acq rel body).
Proof.
  intros Hacq Hrel Hb. apply preserves_withLock; [apply _ | | | done].
  - intros w. by apply events_in_add_event.
  - eapply Forall_impl; [exact Hrel|]. intros ev Hev w. by apply events_in_add_event.
Qed.

Lemma events_in_saveOverlayDir (P : Event → Prop) path i :
  (∀ img, P (EvSaveOverlayDir path img)) →
  preserves (events_in P) (saveOverlayDir path i).
Proof.
  intros HP. unfold saveOverlayDir. pres.
  intros w. unfold saveOverlayDir_value. case_match; simpl; [|reflexivity].
  exists [EvSaveOverlayDir path d]. split; [done | by constructor].
Qed.

Section MaterializeEvents.
Context (kernel : list Event → Syscall → SysResult).

Lemma events_in_syscall (P : Event → Prop) c :
  (∀ r, P (EvSyscall c r)) → preserves (events_in P) (syscall kernel c).
Proof. intros HP w. by apply events_in_add_event. Qed.

(** Materialization takes locks, makes directories and saves overlay
    records; it makes no other system call. *)
Lemma events_in_materializeDirAndParents fuel this :
  preserves (events_in is_materialize_event) (materializeDirAndParents kernel fuel this).
Proof.
  revert this. induction fuel as [|fuel IH]; intros this; simpl.
  - pres.
  - pres; try apply IH;
      try (apply events_in_withLock; [done | by repeat constructor | pres]);
      try (by apply events_in_syscall);
      try (by apply events_in_saveOverlayDir);
      apply events_in_kept; kept_steps.
Qed.

End MaterializeEvents.

(** ** unlink *)

Lemma unlink_check_run this name w t :
  inodes w !! this = Some (TreeI t) →
  unlink_check this name w =
  match entries (contents_ t) !! name with
  | None => (Throw (SystemError ENOENT), w)
  | Some p =>
      match heap w !! p with
      | None => (Throw Undefined, w)
      | Some e =>
          if S_ISDIR (mode e) then (Throw (SystemError EISDIR), w) else (Ok p, w)
      end
  end.
Proof.
  intros Hi. unfold unlink_check.
  rewrite (bind_Ok _ _ _ _ _ (run_the_contents _ _ _ Hi)).
  destruct (entries (contents_ t) !! name) as [p|]; [|done].
  rewrite bind_unfold. unfold deref_Entry.
  destruct (heap w !! p) as [e|]; [|done]. by destruct (S_ISDIR (mode e)).
Qed.

Lemma unlink_check_Ok this name w p w' :
  unlink_check this name w = (Ok p, w') →
  w' = w ∧ ∃ t e, inodes w !! this = Some (TreeI t) ∧
    entries (contents_ t) !! name = Some p ∧ heap w !! p = Some e ∧
    S_ISDIR (mode e) = false.
Proof.
  intros H. destruct (inodes w !! this) as [[t|]|] eqn:Hi.
  2,3: by (revert H; unfold unlink_check, the_contents, the_TreeInode;
           rewrite !bind_unfold, Hi).
  rewrite (unlink_check_run _ _ _ _ Hi) in H.
  destruct (entries (contents_ t) !! name) as [q|] eqn:Hq; [|done].
  destruct (heap w !! q) as [e|] eqn:He; [|done].
  destruct (S_ISDIR (mode e)) eqn:Hd; [done|].
  injection H as <- <-. split; [done|]. by exists t, e.
Qed.

Section UnlinkCommit.
Context (kernel : list Event → Syscall → SysResult).

Lemma unlink_commit_Ok this name myname target w w' :
  unlink_commit kernel this name myname target w = (Ok tt, w') →
  ∃ t p e t' img,
    inodes w !! this = Some (TreeI t) ∧
    entries (contents_ t) !! name = Some p ∧
    heap w !! p = Some e ∧
    inodes w' !! this = Some (TreeI t') ∧
    entries (contents_ t') = delete name (entries (contents_ t)) ∧
    Dir_image (heap w') (contents_ t') = Some img ∧
    overlay w' !! myname = Some img ∧
    journal w' = journal w ∧
    trace w' = EvUnlock this :: EvSaveOverlayDir myname img ::
               (if materialized e
                then [EvSyscall (sys_unlink target)
                        (kernel (EvWLock this :: trace w) (sys_unlink target))]
                else []) ++ EvWLock this :: trace w.
Proof.
  unfold unlink_commit, withWLock. rewrite withLock_unfold. intros H.
  injection H as Hr <-.
  destruct (unlink_check this name (add_event (EvWLock this) w)) as [[p|?] w1] eqn:Hc.
  2: by rewrite (bind_Throw _ _ _ _ _ Hc) in Hr.
  rewrite (bind_Ok _ _ _ _ _ Hc) in Hr |- *.
  apply unlink_check_Ok in Hc as (-> & t & e & Hi & Hp & He & Hd).
  simpl in Hi, He.
  rewrite (bind_Ok _ _ _ e (add_event (EvWLock this) w)) in Hr |- * by by apply run_deref_Entry.
  exists t, p, e. revert Hr. munfold. simpl. rewrite Hi. simpl.
  intros Hr.
  repeat (case_match; rewrite ?lookup_insert_eq in *; simplify_eq/=; try done).
  all: eexists _, _; rewrite ?lookup_insert_eq; split_and!; done.
Qed.

Lemma stable_entries w w' i t t' :
  stable w w' → inodes w !! i = Some (TreeI t) → inodes w' !! i = Some (TreeI t') →
  entries (contents_ t') = entries (contents_ t).
Proof.
  intros [Hs _ _ _] Hi Hi'. specialize (Hs i). rewrite Hi, Hi' in Hs.
  inversion Hs as [?? Hle|]. simpl in Hle. destruct Hle as [Hd _]. by destruct Hd.
Qed.

End UnlinkCommit.

(** ** create *)

Section CreateCommit.
Context (kernel : list Event → Syscall → SysResult).

Lemma create_commit_Ok this name flags myname filePath w inode node w' :
  create_commit kernel this name flags myname filePath w = (Ok (inode, node), w') →
  ∃ t t' q st v img,
    inodes w !! this = Some (TreeI t) ∧
    inode = (node, {| file_parent := this; file_entry := q |}) ∧
    heap w !! q = None ∧
    inodes w' !! this = Some (TreeI t') ∧
    entries (contents_ t') = <[name := q]> (entries (contents_ t)) ∧
    heap w' !! q = Some {| mode := st; hash := None; materialized := true |} ∧
    trace w' = [EvUnlock this; EvSaveOverlayDir myname img;
                EvSyscall (sys_fstat filePath) (SysOk st);
                EvSyscall (sys_open filePath
                  (Z.lor (Z.lor O_RDWR O_CREAT) (Z.land flags (Z.lnot (Z.lor O_RDONLY O_WRONLY))))
                  384) (SysOk v);
                EvWLock this] ++ trace w.
Proof.
  unfold create_commit, finishCreate, withWLock. rewrite withLock_unfold. intros H.
  injection H as Hr <-.
  revert Hr. munfold. unfold getNodeByName. simpl.
  intros Hr.
  repeat (case_match; rewrite ?lookup_insert_eq in *; simplify_eq/=; try done).
  all: eexists _, _, _, _, _, _; rewrite ?lookup_insert_eq; split_and!; try done.
  all: try (apply not_elem_of_dom;
            pose proof (is_fresh ({[nullptr]} ∪ dom (heap w))); set_solver).
  all: try (simpl; by rewrite ?insert_insert_eq).
  all: repeat match goal with
       | H : delete _ _ !! _ = Some _ |- _ =>
           apply lookup_delete_Some in H as [_ H]; rewrite lookup_insert_eq in H
       end; by simplify_eq.
Qed.

Lemma nt_ret {A} e (a : A) : never_throws e (mret a).
Proof. by intros w. Qed.

Lemma nt_gets {A} e (f : World → A) : never_throws e (gets f).
Proof. by intros w. Qed.

Lemma nt_throw {A} e e' : e' ≠ e → never_throws e (@throw A e').
Proof. intros Hne w. simpl. congruence. Qed.

Lemma nt_bind {A B} e (m : M A) (f : A → M B) :
  never_throws e m → (∀ a, never_throws e (f a)) → never_throws e (m ≫= f).
Proof.
  intros Hm Hf w. rewrite bind_unfold. specialize (Hm w).
  destruct (m w) as [[a|e'] w1]; [apply Hf | simpl in *; congruence].
Qed.

Lemma nt_withLock {A} e acq rel (body : M A) :
  never_throws e body → never_throws e (withLock acq rel body).
Proof. intros Hb w. rewrite withLock_unfold. apply Hb. Qed.

Lemma nt_the_TreeInode e i : e ≠ Undefined → never_throws e (the_TreeInode i).
Proof. intros Hne w. unfold the_TreeInode. repeat case_match; simpl; congruence. Qed.

Lemma nt_the_contents e i : e ≠ Undefined → never_throws e (the_contents i).
Proof. intros. apply nt_bind; [by apply nt_the_TreeInode | intros; apply nt_ret]. Qed.

Lemma nt_deref_Entry e p : e ≠ Undefined → never_throws e (deref_Entry p).
Proof. intros Hne w. unfold deref_Entry. case_match; simpl; congruence. Qed.

Lemma nt_update_contents e i f : e ≠ Undefined → never_throws e (update_contents i f).
Proof. intros. apply nt_bind; [by apply nt_the_TreeInode | by intros ? ?]. Qed.

Lemma nt_update_Entry e p f : e ≠ Undefined → never_throws e (update_Entry p f).
Proof. intros. apply nt_bind; [by apply nt_deref_Entry | by intros ? ?]. Qed.

Lemma nt_delete_Entry e p : never_throws e (delete_Entry p).
Proof. intros w. unfold delete_Entry. by case_match. Qed.

Lemma nt_new_Entry e x : never_throws e (new_Entry x).
Proof. by intros w. Qed.

Lemma nt_getNodeByName e parent name : never_throws e (getNodeByName parent name).
Proof. intros w. unfold getNodeByName. by case_match. Qed.

Lemma nt_syscall e c : never_throws e (syscall kernel c).
Proof. by intros w. Qed.

Lemma nt_saveOverlayDir e path i : e ≠ Undefined → never_throws e (saveOverlayDir path i).
Proof.
  intros Hne. apply nt_bind; [by apply nt_the_contents | intros d w].
  unfold saveOverlayDir_value. case_match; simpl; congruence.
Qed.

(** [mkdir] failing with EEXIST is tolerated: materialization never throws
    EEXIST. *)
Lemma nt_materializeDirAndParents fuel this :
  never_throws (SystemError EEXIST) (materializeDirAndParents kernel fuel this).
Proof.
  revert this. induction fuel as [|fuel IH]; intros this; simpl.
  - by apply nt_throw.
  - repeat first
      [ apply IH
      | match goal with
        | |- never_throws _ (if bool_decide (_ ≠ EEXIST) then _ else _) =>
            case_bool_decide; [apply nt_throw; congruence | apply nt_ret]
        end
      | apply nt_ret | apply nt_gets
      | apply nt_throw; congruence
      | apply nt_the_TreeInode; congruence
      | apply nt_the_contents; congruence
      | apply nt_deref_Entry; congruence
      | apply nt_update_contents; congruence
      | apply nt_update_Entry; congruence
      | apply nt_saveOverlayDir; congruence
      | apply nt_syscall
      | apply nt_withLock
      | apply nt_bind; [|intros ?]
      | match goal with |- never_throws _ (match ?x with _ => _ end) => destruct x end ].
    all: unfold resolvePathToNode; apply nt_gets.
Qed.

Lemma nt_create_commit this name flags myname filePath :
  (∀ tr path fl m, kernel tr (sys_open path fl m) ≠ SysFail EEXIST) →
  (∀ tr path, kernel tr (sys_fstat path) ≠ SysFail EEXIST) →
  never_throws (SystemError EEXIST) (create_commit kernel this name flags myname filePath).
Proof.
  intros Hopen Hfstat.
  assert (∀ {B} c (f : Z → M B),
    (∀ tr, kernel tr c ≠ SysFail EEXIST) →
    (∀ v, never_throws (SystemError EEXIST) (f v)) →
    never_throws (SystemError EEXIST)
      (syscall kernel c ≫= λ r, checkUnixError r ≫= λ v, f v)) as Hsys.
  { intros B c f Hc Hf w. rewrite bind_unfold. simpl. rewrite bind_unfold.
    specialize (Hc (trace w)). destruct (kernel (trace w) c) as [v|errno]; simpl.
    - apply Hf.
    - congruence. }
  unfold create_commit. apply nt_withLock.
  apply Hsys; [intros; apply Hopen | intros _].
  apply nt_bind; [apply nt_the_contents; congruence | intros c].
  apply nt_bind; [case_match; [apply nt_ret | apply nt_update_contents; congruence] | intros _].
  apply nt_bind; [apply nt_new_Entry | intros p].
  apply nt_bind; [apply nt_the_contents; congruence | intros c'].
  apply nt_bind; [apply nt_update_contents; congruence | intros _].
  apply nt_bind; [apply nt_delete_Entry | intros _].
  apply nt_bind; [apply nt_update_Entry; congruence | intros _].
  apply Hsys; [intros; apply Hfstat | intros st].
  apply nt_bind; [apply nt_update_Entry; congruence | intros _].
  apply nt_bind; [apply nt_getNodeByName | intros node].
  apply nt_bind; [apply nt_ret | intros _].
  apply nt_bind; [apply nt_saveOverlayDir; congruence | intros _].
  apply nt_ret.
Qed.

Lemma stable_heap_None w w' p : stable w w' → heap w' !! p = None → heap w !! p = None.
Proof.
  intros [_ Hh _ _] Hp. specialize (Hh p). rewrite Hp in Hh. by inversion Hh.
Qed.

End CreateCommit.

(** ** rmdir *)

Section RmdirCheck.
Context (store : N → option Tree).

Lemma rmdir_check_run this name w t :
  inodes w !! this = Some (TreeI t) →
  rmdir_check store this name w =
  match entries (contents_ t) !! name with
  | None => (Throw (SystemError ENOENT), w)
  | Some p =>
      match heap w !! p with
      | None => (Throw Undefined, w)
      | Some e =>
          if negb (S_ISDIR (mode e)) then (Throw (SystemError EISDIR), w)
          else
            match lookupChildByNameLocked store this this name w with
            | (Throw x, w1) => (Throw x, w1)
            | (Ok None, w1) => (Throw (SystemError EIO), w1)
            | (Ok (Some (_, FileI _)), w1) => (Throw (SystemError EIO), w1)
            | (Ok (Some (i, TreeI targetDir)), w1) =>
                (if bool_decide (entries (contents_ targetDir) = ∅)
                 then Ok p else Throw (SystemError ENOTEMPTY),
                 add_event (EvUnlock i) (add_event (EvRLock i) w1))
            end
      end
  end.
Proof.
  intros Hi. unfold rmdir_check.
  rewrite (bind_Ok _ _ _ _ _ (run_the_contents _ _ _ Hi)).
  destruct (entries (contents_ t) !! name) as [p|]; [|done].
  rewrite bind_unfold. unfold deref_Entry.
  destruct (heap w !! p) as [e|]; [|done].
  destruct (S_ISDIR (mode e)); simpl; [|done].
  rewrite bind_unfold.
  destruct (lookupChildByNameLocked store this this name w) as [[[[i [td|f]]|]|x] w1]; try done.
  rewrite bind_unfold. unfold withRLock. rewrite withLock_unfold. simpl.
  by case_bool_decide.
Qed.

End RmdirCheck.

(** ** Failures of the preflight *)

Lemma fails_unmaterialized_intro {A} (m : M A) w errno w' l :
  m w = (Throw (SystemError errno), w') →
  inodes w ⊆ inodes w' → heap w ⊆ heap w' →
  overlay w' = overlay w → journal w' = journal w →
  trace w' = l ++ trace w → Forall is_lock_event l →
  fails_unmaterialized m w errno.
Proof.
  intros Hm ? ? ? ? ? ?. unfold fails_unmaterialized. rewrite Hm. simpl.
  split; [done|]. split; try done. by exists l.
Qed.

Section PreflightThrow.
Context (kernel : list Event → Syscall → SysResult) (store : N → option Tree).

Lemma unlink_preflight_throw fuel this name w e :
  unlink_check this name (add_event (EvRLock this) w)
    = (Throw e, add_event (EvRLock this) w) →
  unlink kernel fuel this name w
    = (Throw e, add_event (EvUnlock this) (add_event (EvRLock this) w)).
Proof.
  intros Hc. unfold unlink, resolvePathToNode. rewrite bind_gets. cbv beta zeta.
  rewrite bind_unfold. unfold withRLock. by rewrite withLock_unfold, Hc.
Qed.

Lemma rmdir_preflight_throw fuel this name w e w1 :
  rmdir_check store this name (add_event (EvRLock this) w) = (Throw e, w1) →
  rmdir kernel store fuel this name w = (Throw e, add_event (EvUnlock this) w1).
Proof.
  intros Hc. unfold rmdir, resolvePathToNode. rewrite bind_gets. cbv beta zeta.
  rewrite bind_unfold. unfold withRLock. by rewrite withLock_unfold, Hc.
Qed.

End PreflightThrow.

(** ** What a rename that returns has done *)

Lemma basename_path_add p name : basename (path_add p name) = name.
Proof. unfold basename, path_add. apply last_last. Qed.

Section Rename.
Context (kernel : list Event → Syscall → SysResult) (store : N → option Tree).

Lemma renameHelper_check_Ok this src sourceName dst destName w sp w1 :
  renameHelper_check store this src sourceName dst destName w = (Ok sp, w1) →
  ∃ ts e,
    inodes w !! src = Some (TreeI ts) ∧
    entries (contents_ ts) !! basename sourceName = Some sp ∧
    heap w !! sp = Some e ∧
    not_materialized w w1.
Proof.
  unfold renameHelper_check. intros H.
  apply bind_Ok_inv in H as (sc & w' & Hsc & H).
  apply the_contents_Ok in Hsc as [-> Hsc].
  destruct (entries sc !! basename sourceName) as [sp'|] eqn:Hsp; [|done].
  apply bind_Ok_inv in H as (dc & w' & Hdc & H).
  apply the_contents_Ok in Hdc as [-> Hdc].
  apply bind_Ok_inv in H as (se & w' & Hse & H).
  apply deref_Entry_Ok in Hse as [-> Hse].
  apply bind_Ok_inv in H as ([] & w2 & Hchk & H).
  injection H as <- <-.
  unfold Dir_of in Hsc. destruct (inodes w !! src) as [[ts|]|] eqn:Hsrc; try done.
  injection Hsc as <-. exists ts, se. split_and!; try done.
  assert (not_materialized w w) as Hrefl by (split; try done; by exists []).
  destruct (entries dc !! basename destName) as [destEnt|]; [|by injection Hchk as <-].
  case_bool_decide; [|by injection Hchk as <-].
  apply bind_Ok_inv in Hchk as (de & w' & Hde & Hchk).
  apply deref_Entry_Ok in Hde as [-> Hde].
  case_bool_decide; [done|].
  apply bind_Ok_inv in Hchk as (targetInode & w3 & Hl & Hchk).
  pose proof (frame_lookupChildByNameLocked store this dst (basename destName) w) as Hfr.
  rewrite Hl in Hfr. simpl in Hfr. destruct Hfr as [? ? _ ? ? Htr].
  destruct targetInode as [[i [destDir|]]|]; try done.
  apply bind_Ok_inv in Hchk as (empty & w4 & Hlock & Hchk).
  unfold withRLock in Hlock. rewrite withLock_unfold in Hlock. simpl in Hlock.
  injection Hlock as <- <-. destruct (bool_decide _); [|done].
  injection Hchk as <-. split; try done.
  exists [EvUnlock i; EvRLock i]. split; [simpl; by rewrite Htr | by repeat constructor].
Qed.


Lemma Dir_image_Some h d img name p :
  Dir_image h d = Some img → entries d !! name = Some p → is_Some (h !! p).
Proof.
  unfold Dir_image. case_bool_decide as Hall; [|done]. intros _ Hp.
  by apply (Hall name p).
Qed.

Lemma Dir_of_set_entries_eq i m w d :
  Dir_of w i = Some d → Dir_of (set_entries i m w) i = Some (Dir_set_entries m d).
Proof.
  unfold Dir_of, set_entries. simpl.
  destruct (inodes w !! i) as [[t|]|] eqn:Hi; intros [= <-].
  by rewrite lookup_insert_eq.
Qed.

Lemma Dir_of_set_entries_ne i j m w :
  i ≠ j → Dir_of (set_entries i m w) j = Dir_of w j.
Proof.
  intros Hne. unfold Dir_of, set_entries. simpl.
  destruct (inodes w !! i) as [[t|]|]; try done. by rewrite lookup_insert_ne.
Qed.

Lemma set_entries_twice i m m' w :
  set_entries i m' (set_entries i m w) = set_entries i m' w.
Proof.
  unfold set_entries, set_inodes. simpl. f_equal.
  destruct (inodes w !! i) as [[t|]|] eqn:Hi; rewrite ?Hi; try done.
  rewrite lookup_insert_eq. simpl. by rewrite insert_insert_eq.
Qed.

Lemma run_the_contents_Dir i w d :
  Dir_of w i = Some d → the_contents i w = (Ok d, w).
Proof.
  unfold Dir_of. destruct (inodes w !! i) as [[t|]|] eqn:Hi; intros [= <-].
  by apply run_the_contents.
Qed.

Lemma run_update_entries i g w d :
  Dir_of w i = Some d →
  update_contents i (λ d, Dir_set_entries (g (entries d)) d) w
  = (Ok tt, set_entries i (g (entries d)) w).
Proof.
  unfold Dir_of, update_contents, set_entries.
  destruct (inodes w !! i) as [[t|]|] eqn:Hi; intros [= <-].
  rewrite (bind_Ok _ _ _ _ _ (run_the_TreeInode _ _ _ Hi)).
  unfold modify, set_inodes. simpl. by rewrite Hi.
Qed.

Lemma delete_Entry_run p w :
  delete_Entry p w
  = (Ok tt, if bool_decide (p = nullptr) then w else set_heap (delete p) w).
Proof. unfold delete_Entry. by case_bool_decide. Qed.

Lemma run_saveOverlayDir path i w d :
  Dir_of w i = Some d →
  saveOverlayDir path i w
  = match Dir_image (heap w) d with
    | Some img =>
        (Ok tt, add_event (EvSaveOverlayDir path img) (set_overlay (<[path := img]>) w))
    | None => (Throw Undefined, w)
    end.
Proof.
  intros Hd. unfold saveOverlayDir. rewrite (bind_Ok _ _ _ _ _ (run_the_contents_Dir _ _ _ Hd)).
  unfold saveOverlayDir_value. by destruct (Dir_image _ _).
Qed.

Lemma Dir_of_same_inodes w w' i : inodes w' = inodes w → Dir_of w' i = Dir_of w i.
Proof. unfold Dir_of. by intros ->. Qed.

(** The entry moved by a rename is the one found before the destination
    was inserted; it leaves the source map, and takes the destination name
    unless that is the very slot it came from, in which case it is destroyed. *)
Lemma renameHelper_move_Ok src sourceName dst destName sp w w' ds :
  renameHelper_move kernel src sourceName dst destName sp w = (Ok tt, w') →
  Dir_of w src = Some ds →
  entries ds !! basename sourceName = Some sp →
  ((src, basename sourceName) ≠ (dst, basename destName) →
     ∃ e, heap w !! sp = Some e ∧ heap w' !! sp = Some e ∧
          entry_of w' dst (basename destName) = Some sp ∧
          entry_of w' src (basename sourceName) = None) ∧
  ((src, basename sourceName) = (dst, basename destName) →
     ∃ ds', Dir_of w' src = Some ds' ∧
            entries ds' = delete (basename sourceName) (entries ds) ∧
            (sp ≠ nullptr → heap w' !! sp = None)).
Proof.
  unfold renameHelper_move.
  generalize (basename sourceName) (basename destName) (dirname sourceName) (dirname destName).
  intros sname dname sdir ddir H Hsrc Hsp.
  apply bind_Ok_inv in H as (se & w1 & Hse & H).
  apply deref_Entry_Ok in Hse as [-> Hse].
  apply bind_Ok_inv in H as ([] & wa & Hsys & H).
  assert (inodes wa = inodes w ∧ heap wa = heap w) as [Hin1 Hh1].
  { destruct (materialized se); [|by injection Hsys as <-].
    apply bind_Ok_inv in Hsys as (r & w2 & Hr & Hsys). injection Hr as <- <-.
    destruct (kernel (trace w) (sys_rename sourceName destName)); [|done].
    by injection Hsys as <-. }
  clear Hsys. rewrite <-(Dir_of_same_inodes _ _ _ Hin1) in Hsrc.
  rewrite <-Hh1 in Hse |- *. clear Hin1 Hh1 w. rename wa into w.
  destruct (decide (src = dst)) as [<-|Hne].
  - rewrite (bind_Ok _ _ _ _ _ (run_the_contents_Dir _ _ _ Hsrc)) in H.
    destruct (decide (sname = dname)) as [<-|Hnn].
    + split; [done|]. intros _.
      rewrite Hsp in H. simpl in H. rewrite bind_unfold in H. simpl in H.
      rewrite (bind_Ok _ _ _ _ _ (run_the_contents_Dir _ _ _ Hsrc)), Hsp in H.
      rewrite (bind_Ok _ _ _ _ _ (run_update_entries src (insert sname nullptr) _ _ Hsrc)) in H.
      pose proof (Dir_of_set_entries_eq src (<[sname:=nullptr]> (entries ds)) w ds Hsrc) as Hd1.
      rewrite (bind_Ok _ _ _ _ _ (run_the_contents_Dir _ _ _ Hd1)) in H.
      rewrite (bind_Ok _ _ _ _ _ (run_update_entries src (insert sname sp) _ _ Hd1)) in H.
      simpl in H. rewrite set_entries_twice, lookup_insert_eq in H. simpl in H.
      rewrite (bind_Ok _ _ _ _ _ (delete_Entry_run _ _)) in H. simpl in H.
      pose proof (Dir_of_set_entries_eq src (<[sname:=sp]> (<[sname:=nullptr]> (entries ds))) w ds Hsrc)
        as Hd2.
      rewrite (bind_Ok _ _ _ _ _ (run_the_contents_Dir _ _ _ Hd2)) in H.
      rewrite (bind_Ok _ _ _ _ _ (run_update_entries src (delete sname) _ _ Hd2)) in H.
      simpl in H. rewrite set_entries_twice, lookup_insert_eq, !delete_insert_eq in H.
      simpl in H.
      rewrite (bind_Ok _ _ _ _ _ (delete_Entry_run _ _)) in H.
      pose proof (Dir_of_set_entries_eq src (delete sname (entries ds)) w ds Hsrc) as Hd3.
      rewrite bind_unfold in H.
      set (wh := if bool_decide (sp = nullptr) then _ else _) in H.
      assert (Dir_of wh src = Some (Dir_set_entries (delete sname (entries ds)) ds)) as Hd4
        by (unfold wh; destruct (bool_decide (sp = nullptr)); exact Hd3).
      assert (sp ≠ nullptr → heap wh !! sp = None) as Hgone.
      { intros Hnn. unfold wh. rewrite bool_decide_eq_false_2 by done. simpl.
        apply lookup_delete_eq. }
      rewrite (run_saveOverlayDir _ _ _ _ Hd4) in H.
      destruct (Dir_image _ _) as [img|]; [|done].
      rewrite (bool_decide_eq_false_2 (src ≠ src)) in H by (intros ?; done).
      injection H as <-. eexists. split_and!; [exact Hd4 | done | exact Hgone].
    + split; [intros _|intros [= ?]; done].
      exists se. split; [done|].
      (* auto& destEnt = entries[destName] *)
      destruct (entries ds !! dname) as [old0|] eqn:Hold.
      1: rewrite (bool_decide_eq_true_2 (is_Some _)) in H by (by eexists).
      1: rewrite (bind_Ok _ _ _ _ _ (eq_refl : (mret tt : M unit) w = (Ok tt, w))) in H.
      2: rewrite (bool_decide_eq_false_2 (is_Some _)) in H by (intros [? ?]; done).
      2: rewrite (bind_Ok _ _ _ _ _ (run_update_entries src (insert dname nullptr) _ _ Hsrc)) in H.
      2: apply (Dir_of_set_entries_eq src (<[dname:=nullptr]> (entries ds))) in Hsrc.
      2: assert (entries (Dir_set_entries (<[dname:=nullptr]> (entries ds)) ds) !! sname = Some sp)
           as Hsp' by (simpl; by rewrite lookup_insert_ne).
      2: change (heap w) with (heap (set_entries src (<[dname:=nullptr]> (entries ds)) w)) in Hse.
      2: clear Hsp; revert Hsrc Hsp' Hse H.
      2: generalize (set_entries src (<[dname:=nullptr]> (entries ds)) w)
                    (Dir_set_entries (<[dname:=nullptr]> (entries ds)) ds).
      2: clear w ds Hold; intros w ds Hsrc Hsp Hse H.
      1: clear Hold old0.
      all: rewrite (bind_Ok _ _ _ _ _ (run_the_contents_Dir _ _ _ Hsrc)), Hsp in H.
      all: rewrite (bind_Ok _ _ _ _ _ (run_update_entries src (insert sname nullptr) _ _ Hsrc)) in H.
      all: pose proof (Dir_of_set_entries_eq src (<[sname:=nullptr]> (entries ds)) w ds Hsrc) as Hd1.
      all: rewrite (bind_Ok _ _ _ _ _ (run_the_contents_Dir _ _ _ Hd1)) in H.
      all: rewrite (bind_Ok _ _ _ _ _ (run_update_entries src (insert dname sp) _ _ Hd1)) in H.
      all: pose proof (Dir_of_set_entries_eq src
             (<[dname:=sp]> (<[sname:=nullptr]> (entries ds))) _ _ Hd1) as Hd2.
      all: rewrite (bind_Ok _ _ _ _ _ (delete_Entry_run _ _)) in H.
      all: match type of H with _ ?W = _ => set (wh := W) in H end.
      all: assert (Dir_of wh src = Some (Dir_set_entries
             (<[dname:=sp]> (<[sname:=nullptr]> (entries ds)))
             (Dir_set_entries (<[sname:=nullptr]> (entries ds)) ds))) as Hd3
             by (unfold wh; destruct (bool_decide _); exact Hd2).
      all: assert (∀ e, heap wh !! sp = Some e → e = se) as Hheap
             by (intros e; unfold wh; destruct (bool_decide _); simpl;
                 [|rewrite lookup_delete_Some; intros [_ ?]]; congruence).
      all: clearbody wh.
      all: rewrite (bind_Ok _ _ _ _ _ (run_the_contents_Dir _ _ _ Hd3)) in H.
      all: rewrite (bind_Ok _ _ _ _ _ (run_update_entries src (delete sname) _ _ Hd3)) in H.
      all: pose proof (Dir_of_set_entries_eq src
             (delete sname (<[dname:=sp]> (<[sname:=nullptr]> (entries ds)))) _ _ Hd3) as Hd4.
      all: rewrite (bind_Ok _ _ _ _ _ (delete_Entry_run _ _)) in H.
      all: rewrite (bool_decide_eq_true_2 (default nullptr _ = nullptr)) in H
             by (simpl; by rewrite lookup_insert_ne, lookup_insert_eq).
      all: rewrite bind_unfold, (run_saveOverlayDir _ _ _ _ Hd4) in H.
      all: destruct (Dir_image _ _) as [img|] eqn:Himg; [|done].
      all: rewrite (bool_decide_eq_false_2 (src ≠ src)) in H by (intros ?; done).
      all: injection H as <-.
      all: apply (Dir_image_Some _ _ _ dname sp) in Himg as [e He];
             [|simpl; by rewrite lookup_delete_ne, lookup_insert_eq].
      all: unfold entry_of.
      all: replace (Dir_of _ src) with (Some (Dir_set_entries
             (delete sname (<[dname:=sp]> (<[sname:=nullptr]> (entries ds))))
             (Dir_set_entries (<[dname:=sp]> (<[sname:=nullptr]> (entries ds)))
                (Dir_set_entries (<[sname:=nullptr]> (entries ds)) ds))))
             by (symmetry; exact Hd4).
      all: simpl.
      all: split_and!;
             [ rewrite <-(Hheap e He); exact He
             | by rewrite lookup_delete_ne, lookup_insert_eq
             | by rewrite lookup_delete_eq ].
  - apply bind_Ok_inv in H as (dd & w1 & Hdd & H).
    apply the_contents_Ok in Hdd as [-> Hdst].
    split; [intros _|intros [= ? ?]; done].
    exists se. split; [done|].
    assert (dst ≠ src) as Hne' by done.
    destruct (entries dd !! dname) as [old0|] eqn:Hold.
    1: rewrite (bool_decide_eq_true_2 (is_Some _)) in H by (by eexists).
    1: rewrite (bind_Ok _ _ _ _ _ (eq_refl : (mret tt : M unit) w = (Ok tt, w))) in H.
    2: rewrite (bool_decide_eq_false_2 (is_Some _)) in H by (intros [? ?]; done).
    2: rewrite (bind_Ok _ _ _ _ _ (run_update_entries dst (insert dname nullptr) _ _ Hdst)) in H.
    2: apply (Dir_of_set_entries_eq dst (<[dname:=nullptr]> (entries dd))) in Hdst.
    2: rewrite <-(Dir_of_set_entries_ne dst src (<[dname:=nullptr]> (entries dd)) w Hne') in Hsrc.
    2: change (heap w) with (heap (set_entries dst (<[dname:=nullptr]> (entries dd)) w)) in Hse.
    2: revert Hsrc Hdst Hse H.
    2: generalize (set_entries dst (<[dname:=nullptr]> (entries dd)) w)
                  (Dir_set_entries (<[dname:=nullptr]> (entries dd)) dd).
    2: clear w dd Hold; intros w dd Hsrc Hdst Hse H.
    1: clear Hold old0.
    all: rewrite (bind_Ok _ _ _ _ _ (run_the_contents_Dir _ _ _ Hsrc)), Hsp in H.
    all: rewrite (bind_Ok _ _ _ _ _ (run_update_entries src (insert sname nullptr) _ _ Hsrc)) in H.
    all: pose proof (Dir_of_set_entries_eq src (<[sname:=nullptr]> (entries ds)) w ds Hsrc) as Hs1.
    all: rewrite <-(Dir_of_set_entries_ne src dst (<[sname:=nullptr]> (entries ds)) w Hne) in Hdst.
    all: rewrite (bind_Ok _ _ _ _ _ (run_the_contents_Dir _ _ _ Hdst)) in H.
    all: rewrite (bind_Ok _ _ _ _ _ (run_update_entries dst (insert dname sp) _ _ Hdst)) in H.
    all: pose proof (Dir_of_set_entries_eq dst (<[dname:=sp]> (entries dd)) _ _ Hdst) as Hd2.
    all: rewrite <-(Dir_of_set_entries_ne dst src (<[dname:=sp]> (entries dd)) _ Hne') in Hs1.
    all: rewrite (bind_Ok _ _ _ _ _ (delete_Entry_run _ _)) in H.
    all: match type of H with _ ?W = _ => set (wh := W) in H end.
    all: assert (Dir_of wh src = Some (Dir_set_entries (<[sname:=nullptr]> (entries ds)) ds))
           as Hs3 by (unfold wh; destruct (bool_decide _); exact Hs1).
    all: assert (Dir_of wh dst = Some (Dir_set_entries (<[dname:=sp]> (entries dd)) dd))
           as Hd3 by (unfold wh; destruct (bool_decide _); exact Hd2).
    all: assert (∀ e, heap wh !! sp = Some e → e = se) as Hheap
           by (intros e; unfold wh; destruct (bool_decide _); simpl;
               [|rewrite lookup_delete_Some; intros [_ ?]]; congruence).
    all: clearbody wh.
    all: rewrite (bind_Ok _ _ _ _ _ (run_the_contents_Dir _ _ _ Hs3)) in H.
    all: rewrite (bind_Ok _ _ _ _ _ (run_update_entries src (delete sname) _ _ Hs3)) in H.
    all: pose proof (Dir_of_set_entries_eq src
           (delete sname (<[sname:=nullptr]> (entries ds))) _ _ Hs3) as Hs4.
    all: rewrite <-(Dir_of_set_entries_ne src dst
           (delete sname (<[sname:=nullptr]> (entries ds))) _ Hne) in Hd3.
    all: rewrite (bind_Ok _ _ _ _ _ (delete_Entry_run _ _)) in H.
    all: rewrite (bool_decide_eq_true_2 (default nullptr _ = nullptr)) in H
           by (simpl; by rewrite lookup_insert_eq).
    all: rewrite bind_unfold, (run_saveOverlayDir _ _ _ _ Hs4) in H.
    all: destruct (Dir_image _ _) as [img|] eqn:Himg; [|done].
    all: rewrite (bool_decide_eq_true_2 (src ≠ dst)) in H by done.
    all: match type of H with
         | saveOverlayDir _ _ ?W = _ => rewrite (run_saveOverlayDir ddir dst W _ Hd3) in H
         end.
    all: destruct (Dir_image _ (Dir_set_entries (<[dname:=sp]> _) _)) as [img'|] eqn:Himg';
           [|done].
    all: injection H as <-.
    all: apply (Dir_image_Some _ _ _ dname sp) in Himg' as [e He];
           [|simpl; by rewrite lookup_insert_eq].
    all: unfold entry_of.
    all: replace (Dir_of _ dst) with (Some (Dir_set_entries (<[dname:=sp]> (entries dd)) dd))
           by (symmetry; exact Hd3).
    all: replace (Dir_of _ src) with (Some (Dir_set_entries
           (delete sname (<[sname:=nullptr]> (entries ds)))
           (Dir_set_entries (<[sname:=nullptr]> (entries ds)) ds)))
           by (symmetry; exact Hs4).
    all: simpl.
    all: split_and!;
           [ rewrite <-(Hheap e He); exact He
           | by rewrite lookup_insert_eq
           | by rewrite lookup_delete_eq ].
Qed.


(** [renameHelper] as a whole: its checks leave the inode table and the
    heap as they were, so the entry it moves is the one the source name had
    when it was called. *)
Lemma renameHelper_Ok this src sourceName dst destName w w' ds sp :
  renameHelper kernel store this src sourceName dst destName w = (Ok tt, w') →
  Dir_of w src = Some ds →
  entries ds !! basename sourceName = Some sp →
  ((src, basename sourceName) ≠ (dst, basename destName) →
     ∃ e, heap w !! sp = Some e ∧ heap w' !! sp = Some e ∧
          entry_of w' dst (basename destName) = Some sp ∧
          entry_of w' src (basename sourceName) = None) ∧
  ((src, basename sourceName) = (dst, basename destName) →
     ∃ ds', Dir_of w' src = Some ds' ∧
            entries ds' = delete (basename sourceName) (entries ds) ∧
            (sp ≠ nullptr → heap w' !! sp = None)).
Proof.
  unfold renameHelper. intros H Hds Hsp.
  apply bind_Ok_inv in H as (sp' & w1 & Hchk & Hmove).
  apply renameHelper_check_Ok in Hchk as (ts & e & Hts & Hsp' & He & [Hin Hh _ _ _]).
  assert (ds = contents_ ts) as -> by (unfold Dir_of in Hds; rewrite Hts in Hds; congruence).
  assert (sp' = sp) as -> by congruence.
  assert (Dir_of w1 src = Some (contents_ ts)) as Hds1.
  { unfold Dir_of. by rewrite (lookup_weaken _ _ _ _ Hts Hin). }
  destruct (renameHelper_move_Ok _ _ _ _ _ _ _ _ Hmove Hds1 Hsp) as [Hdiff Hsame].
  split; [|exact Hsame].
  intros Hne. destruct (Hdiff Hne) as (e1 & He1 & He1' & Hdst & Hsrc).
  exists e. rewrite (lookup_weaken _ _ _ _ He Hh) in He1. by simplify_eq.
Qed.

Local Ltac stable_of Hrun tac :=
  match type of Hrun with
  | ?m ?w = (_, ?w1) =>
      let Hst := fresh "Hst" in
      assert (stable w w1) as Hst
        by (let P := fresh in
            assert (preserves stable m) as P by tac;
            specialize (P w); rewrite Hrun in P; exact P)
  end.

(** [rename] as a whole. *)
Lemma rename_Ok fuel this name newParent newName w w' d p :
  rename kernel store fuel this name newParent newName w = (Ok tt, w') →
  Dir_of w this = Some d →
  entries d !! name = Some p →
  ((this, name) ≠ (newParent, newName) →
     ∃ e e', heap w !! p = Some e ∧ heap w' !! p = Some e' ∧ Entry_le e e' ∧
             entry_of w' newParent newName = Some p ∧
             entry_of w' this name = None) ∧
  ((this, name) = (newParent, newName) →
     ∃ d', Dir_of w' this = Some d' ∧
           entries d' = delete name (entries d) ∧
           (p ≠ nullptr → heap w' !! p = None)).
Proof.
  unfold rename. intros H Hd Hp.
  rewrite bind_gets in H.
  destruct (inodes w !! newParent) as [[tn|]|] eqn:Hnp; try done.
  unfold resolvePathToNode in H. rewrite !bind_gets in H.
  set (sourceName := path_add (resolvePath (nameMgr w) this) name) in H.
  set (targetName := path_add (resolvePath (nameMgr w) newParent) newName) in H.
  apply bind_Ok_inv in H as ([] & w1 & Hpre & H).
  stable_of Hpre ltac:(apply stable_withLock; pres).
  apply bind_Ok_inv in H as ([] & w2 & Hmat & H).
  stable_of Hmat ltac:(apply stable_materializeDirAndParents).
  apply bind_Ok_inv in H as ([] & w3 & Hlock & H).
  injection H as <-.
  assert (∃ W wB, stable w W ∧ heap w3 = heap wB ∧ inodes w3 = inodes wB ∧
    renameHelper kernel store this this sourceName newParent targetName W = (Ok tt, wB))
    as (W & wB & HstW & Hh3 & Hi3 & Hrun).
  { case_bool_decide as Heq.
    - unfold withWLock in Hlock. rewrite withLock_unfold in Hlock.
      destruct (renameHelper _ _ _ _ _ _ _ _) as [r wB] eqn:Hrun in Hlock.
      simpl in Hlock. injection Hlock as -> <-. subst newParent.
      eexists _, wB. split_and!; [|done|done|exact Hrun].
      do 2 (etrans; [eassumption|]). apply stable_add_event.
    - apply bind_Ok_inv in Hlock as ([] & w2' & Hmat' & Hlock).
      stable_of Hmat' ltac:(apply stable_materializeDirAndParents).
      unfold SYNCHRONIZED_DUAL in Hlock. rewrite withLock_unfold in Hlock.
      destruct (renameHelper _ _ _ _ _ _ _ _) as [r wB] eqn:Hrun in Hlock.
      simpl in Hlock. injection Hlock as -> <-.
      eexists _, wB. split_and!; [|done|done|exact Hrun].
      do 3 (etrans; [eassumption|]). apply stable_add_event. }
  destruct (stable_Dir_of _ _ _ _ HstW Hd) as (dW & HdW & HeW & _).
  assert (entries dW !! basename sourceName = Some p) as HpW.
  { unfold sourceName. by rewrite basename_path_add, HeW. }
  destruct (renameHelper_Ok _ _ _ _ _ _ _ _ _ Hrun HdW HpW) as [Hdiff Hsame].
  unfold sourceName, targetName in Hdiff, Hsame. rewrite !basename_path_add in Hdiff, Hsame.
  unfold entry_of, Dir_of in *. simpl. rewrite Hh3, Hi3.
  split.
  - intros Hne. destruct (Hdiff Hne) as (e' & He' & HeB & Hdst & Hsrc).
    pose proof (stable_heap _ _ HstW p) as Hle. rewrite He' in Hle.
    inversion Hle as [e ? Hee|]; subst. by exists e, e'.
  - intros Heq. destruct (Hsame Heq) as (d' & Hd' & Hent & Hgone).
    exists d'. by rewrite Hent, HeW.
Qed.

End Rename.

(** * The claims *)

(** C8. lookup(name) fails with ENOENT exactly when name is absent from the
    directory's entries; in that case nothing is allocated (the world only
    records the read lock taken and released), and when the name is present
    the name manager holds a node for (this, name) afterwards, which is the
    inode number of the child that is returned. *)
Theorem lookup_ENOENT_exactly_when_absent store this name w t :
  inodes w !! this = Some (TreeI t) →
  ((getChildByName store this name w).1 = Throw (SystemError ENOENT)
     ↔ entries (contents_ t) !! name = None) ∧
  (entries (contents_ t) !! name = None →
     (getChildByName store this name w).2
       = add_event (EvUnlock this) (add_event (EvRLock this) w)) ∧
  (is_Some (entries (contents_ t) !! name) →
     ∃ i, nameMgr (getChildByName store this name w).2 !! i
            = Some (path_add (resolvePath (nameMgr w) this) name) ∧
          ∀ j o, (getChildByName store this name w).1 = Ok (j, o) → j = i).
Proof.
  intros Hi. unfold getChildByName, withRLock. rewrite withLock_unfold. simpl.
  set (wl := add_event (EvRLock this) w).
  assert (Dir_of wl this = Some (contents_ t)) as Hd
    by (unfold Dir_of; simpl; by rewrite Hi).
  destruct (entries (contents_ t) !! name) as [p|] eqn:Hp.
  - destruct (getChildByNameLocked_present store this this name wl _ p Hd Hp)
      as (i & w2 & Hn & Hnm & Hne & Hok).
    split_and!; [done | done |].
    intros _. exists i. split; [|done]. rewrite Hnm.
    destruct (getNodeByName_spec this name wl) as (i' & w2' & Hn' & Hpath & _).
    rewrite Hn in Hn'. injection Hn' as <- <-. exact Hpath.
  - assert (getChildByNameLocked store this this name wl = (Throw (SystemError ENOENT), wl))
      as ->.
    { unfold getChildByNameLocked, the_contents, the_TreeInode.
      rewrite !bind_unfold. unfold wl. simpl. rewrite Hi. simpl. by rewrite Hp. }
    split_and!; [done | done | by intros []].
Qed.

Lemma lookup_ENOENT_exactly_when_absent_witness :
  ((getChildByName store0 FUSE_ROOT_ID "b" w0).1 = Throw (SystemError ENOENT)
     ↔ entries (contents_ root0) !! "b" = None) ∧
  (entries (contents_ root0) !! "b" = None →
     (getChildByName store0 FUSE_ROOT_ID "b" w0).2
       = add_event (EvUnlock FUSE_ROOT_ID) (add_event (EvRLock FUSE_ROOT_ID) w0)) ∧
  (is_Some (entries (contents_ root0) !! "b") →
     ∃ i, nameMgr (getChildByName store0 FUSE_ROOT_ID "b" w0).2 !! i
            = Some (path_add (resolvePath (nameMgr w0) FUSE_ROOT_ID) "b") ∧
          ∀ j o, (getChildByName store0 FUSE_ROOT_ID "b" w0).1 = Ok (j, o) → j = i).
Proof.
  apply (lookup_ENOENT_exactly_when_absent store0 FUSE_ROOT_ID "b" w0 root0).
  reflexivity.
Defined.

(** C4. Dir.materialized is monotone and materialization is idempotent:
    once the directory of an inode is materialized, it is materialized after
    every sequence of requests to the mount, and materializeDirAndParents on
    it returns at once: the world is as before, but for the read lock taken
    and released (no state change, no overlay write, no system call). *)
Theorem materialized_monotone_and_idempotent kernel store fuel w this t :
  inodes w !! this = Some (TreeI t) →
  dir_materialized (contents_ t) = true →
  (∀ ops, ∃ t',
     inodes (run_ops kernel store fuel ops w) !! this = Some (TreeI t') ∧
     dir_materialized (contents_ t') = true) ∧
  materializeDirAndParents kernel (S fuel) this w
    = (Ok tt, add_event (EvUnlock this) (add_event (EvRLock this) w)).
Proof.
  intros Hi Hm. split.
  - intros ops. by apply (mk_run_ops kernel store fuel ops w this t).
  - simpl. rewrite (bind_Ok _ _ _ _ _ (run_the_TreeInode _ _ _ Hi)).
    erewrite (bind_Ok _ _ _ true); [reflexivity|].
    unfold withRLock. rewrite withLock_unfold.
    rewrite (bind_Ok _ _ _ _ _ (run_the_contents this (add_event _ w) t Hi)).
    simpl. by rewrite Hm.
Qed.

Lemma materialized_monotone_and_idempotent_witness :
  (∀ ops, ∃ t',
     inodes (run_ops kernel_ok store0 3 ops w1) !! FUSE_ROOT_ID = Some (TreeI t') ∧
     dir_materialized (contents_ t') = true) ∧
  materializeDirAndParents kernel_ok 4 FUSE_ROOT_ID w1
    = (Ok tt, add_event (EvUnlock FUSE_ROOT_ID) (add_event (EvRLock FUSE_ROOT_ID) w1)).
Proof.
  apply (materialized_monotone_and_idempotent kernel_ok store0 3 w1 FUSE_ROOT_ID root1);
    reflexivity.
Defined.

(** C5 (as amended). For every invocation of create, mkdir, unlink, rmdir
    or rename: if the operation succeeds it appends exactly one JournalDelta,
    listing the affected path (both paths for rename); if it fails it appends
    no JournalDelta, with one exception: a create whose materialization and
    write-locked part have returned, so that the file is made and recorded,
    writes the journal before it looks up the attributes of the new file, and
    when that lookup fails the create fails with its error, the last event
    being the failed stat, and has appended its one JournalDelta. *)
Theorem journal_coverage kernel store fuel op w d :
  delta_of w op = Some d →
  match (run_op kernel store fuel op w).1 with
  | Ok _ => journal (run_op kernel store fuel op w).2 = d :: journal w
  | Throw e =>
      if create_committed kernel fuel op w
      then journal (run_op kernel store fuel op w).2 = d :: journal w ∧
           ∃ errno path, d = [path] ∧ e = SystemError errno ∧
             head (trace (run_op kernel store fuel op w).2)
             = Some (EvSyscall (sys_fstat path) (SysFail errno))
      else journal (run_op kernel store fuel op w).2 = journal w
  end.
Proof.
  assert (∀ {A} (m : M A) (w : World) (P : World → Prop) (Q : exn → World → Prop),
    match (m w).1 with Ok _ => P (m w).2 | Throw e => Q e (m w).2 end →
    match ((m ≫= λ _, mret tt) w).1 with
    | Ok _ => P ((m ≫= λ _, mret tt) w).2
    | Throw e => Q e ((m ≫= λ _, mret tt) w).2
    end) as Hret.
  { intros A m w' P Q. rewrite bind_unfold. by destruct (m w') as [[a|e] w'']. }
  destruct op; simpl; intros [= <-].
  - set (d := [path_add (resolvePath (nameMgr w) this) name]).
    apply (Hret _ _ _ (λ w', journal w' = d :: journal w)
             (λ e w', if create_committed kernel fuel (OpCreate this name md flags) w
                      then journal w' = d :: journal w ∧
                           ∃ errno path, d = [path] ∧ e = SystemError errno ∧
                             head (trace w') = Some (EvSyscall (sys_fstat path) (SysFail errno))
                      else journal w' = journal w)).
    pose proof (journals_create kernel fuel this name md flags w) as Hc.
    destruct (create kernel fuel this name md flags w) as [[res|e] w']; [exact Hc|].
    destruct (create_committed kernel fuel (OpCreate this name md flags) w); [|exact Hc].
    destruct Hc as (Hj & errno & -> & Hev). split; [exact Hj|].
    exists errno, (path_add (resolvePath (nameMgr w) this) name). by split_and!.
  - apply (Hret _ _ _ (λ w', journal w' = _ :: _) (λ _ w', journal w' = _)), journals_mkdir.
  - apply journals_unlink.
  - apply journals_rmdir.
  - apply journals_rename.
Qed.

Lemma journal_coverage_witness :
  match (run_op kernel_ok store0 2 (OpRename FUSE_ROOT_ID "a" FUSE_ROOT_ID "b") w0).1 with
  | Ok _ =>
      journal (run_op kernel_ok store0 2 (OpRename FUSE_ROOT_ID "a" FUSE_ROOT_ID "b") w0).2
      = [["a"]; ["b"]] :: journal w0
  | Throw e =>
      if create_committed kernel_ok 2 (OpRename FUSE_ROOT_ID "a" FUSE_ROOT_ID "b") w0
      then journal (run_op kernel_ok store0 2
                      (OpRename FUSE_ROOT_ID "a" FUSE_ROOT_ID "b") w0).2
           = [["a"]; ["b"]] :: journal w0 ∧
           ∃ errno path, [["a"]; ["b"]] = [path] ∧ e = SystemError errno ∧
             head (trace (run_op kernel_ok store0 2
                            (OpRename FUSE_ROOT_ID "a" FUSE_ROOT_ID "b") w0).2)
             = Some (EvSyscall (sys_fstat path) (SysFail errno))
      else journal (run_op kernel_ok store0 2
                      (OpRename FUSE_ROOT_ID "a" FUSE_ROOT_ID "b") w0).2
           = journal w0
  end.
Proof.
  apply (journal_coverage kernel_ok store0 2
           (OpRename FUSE_ROOT_ID "a" FUSE_ROOT_ID "b") w0 [["a"]; ["b"]]).
  reflexivity.
Defined.

(** C5 as stated fails for create: the journal is written when the write
    lock is released, before the attributes of the new file are looked up.
    On a kernel whose second fstat of the file fails, the create of [n] in
    the root fails with EIO, and the journal, empty before, holds the delta
    of [n]. *)
Lemma create_fails_after_journal_write :
  (run_op kernel_fstat_once store0 2 (OpCreate FUSE_ROOT_ID "n" 33188 65) w0).1
    = Throw (SystemError EIO) ∧
  journal w0 = [] ∧
  journal (run_op kernel_fstat_once store0 2 (OpCreate FUSE_ROOT_ID "n" 33188 65) w0).2
    = [[["n"]]].
Proof. split_and!; vm_compute; reflexivity. Qed.

Section UnlinkSpec.
Context (kernel : list Event → Syscall → SysResult).


End UnlinkSpec.


(** The unlink of the unmaterialized file [a] of the mount succeeds. *)
Example unlink_a_succeeds :
  (unlink kernel_ok 2 FUSE_ROOT_ID "a" w0).1 = Ok tt.
Proof. vm_compute. reflexivity. Qed.

Section CreateSpec.
Context (kernel : list Event → Syscall → SysResult).

(** C9 (as amended). For every directory that already has an entry named n,
    of any type, create(n, mode, flags) makes no existence check of its own:
    it fails with EEXIST only if the kernel answers EEXIST to the open or the
    fstat of the overlay file; and whenever it succeeds, entries holds under
    n a fresh Entry (an object that did not exist before) whose materialized
    flag is true, which has no hash, and whose mode is the one fstat gave:
    the fstat made under the write lock, after the open and before the
    directory is saved.  The attributes returned are those of the stat made
    once the lock is released. *)
Theorem create_replaces_existing_entry fuel this name md flags w t p :
  inodes w !! this = Some (TreeI t) →
  entries (contents_ t) !! name = Some p →
  ((∀ tr path fl m, kernel tr (sys_open path fl m) ≠ SysFail EEXIST) →
   (∀ tr path, kernel tr (sys_fstat path) ≠ SysFail EEXIST) →
   (create kernel fuel this name md flags w).1 ≠ Throw (SystemError EEXIST)) ∧
  (∀ res w', create kernel fuel this name md flags w = (Ok res, w') →
     ∃ t' q st,
       inodes w' !! this = Some (TreeI t') ∧
       entries (contents_ t') = <[name := q]> (entries (contents_ t)) ∧
       file_entry (cr_inode res).2 = q ∧
       heap w !! q = None ∧
       heap w' !! q = Some {| mode := st; hash := None; materialized := true |} ∧
       ∃ wm v img,
         materializeDirAndParents kernel fuel this w = (Ok tt, wm) ∧
         trace w'
         = [EvSyscall (sys_fstat (path_add (resolvePath (nameMgr w) this) name))
              (SysOk (cr_attr_mode res));
            EvUnlock this;
            EvSaveOverlayDir (resolvePath (nameMgr w) this) img;
            EvSyscall (sys_fstat (path_add (resolvePath (nameMgr w) this) name)) (SysOk st);
            EvSyscall
              (sys_open (path_add (resolvePath (nameMgr w) this) name)
                 (Z.lor (Z.lor O_RDWR O_CREAT)
                    (Z.land flags (Z.lnot (Z.lor O_RDONLY O_WRONLY))))
                 384)
              (SysOk v);
            EvWLock this] ++ trace wm).
Proof.
  intros Hi Hp. split.
  - intros Hopen Hfstat.
    unfold create, resolvePathToNode. rewrite bind_gets. cbv beta zeta.
    apply nt_bind; [apply nt_materializeDirAndParents | intros _].
    apply nt_bind; [by apply nt_create_commit | intros [inode node]].
    apply nt_bind; [by intros ? | intros _].
    apply nt_bind; [|intros; apply nt_ret].
    intros w1. unfold FileHandle_getattr, syscall. rewrite bind_unfold. simpl.
    specialize (Hfstat (trace w1) (path_add (resolvePath (nameMgr w) this) name)).
    destruct (kernel (trace w1) (sys_fstat (path_add (resolvePath (nameMgr w) this) name)));
      simpl; congruence.
  - intros res w' H.
    unfold create, resolvePathToNode in H. rewrite bind_gets in H. cbv beta zeta in H.
    apply bind_Ok_inv in H as ([] & wm & Hmat & H).
    apply bind_Ok_inv in H as ([inode node] & w2 & Hcommit & H).
    apply bind_Ok_inv in H as ([] & w3 & Hdelta & H). injection Hdelta as <-.
    apply bind_Ok_inv in H as (attr & w4 & Hattr & H). injection H as <- <-.
    revert Hattr. unfold FileHandle_getattr, syscall. rewrite bind_unfold. simpl.
    destruct (kernel (trace w2) (sys_fstat (path_add (resolvePath (nameMgr w) this) name)))
      as [attr'|errno] eqn:Hk; simpl; [|done]. intros [= -> <-].
    apply create_commit_Ok in Hcommit
      as (tm & t' & q & st & v & img & Him & -> & Hq & Hi' & Hent & Hhq & Htr).
    pose proof (stable_materializeDirAndParents kernel fuel this w) as Hst.
    rewrite Hmat in Hst. simpl in Hst.
    exists t', q, st. simpl. split_and!; try done.
    + rewrite Hent. f_equal. eapply stable_entries; eauto.
    + eapply stable_heap_None; eauto.
    + exists wm, v, img. split; [done|]. by rewrite Htr.
Qed.

End CreateSpec.

Lemma create_replaces_existing_entry_witness :
  inodes w0 !! FUSE_ROOT_ID = Some (TreeI root0) ∧
  entries (contents_ root0) !! "a" = Some 1%N ∧
  (create kernel_ok 2 FUSE_ROOT_ID "a" 33188 65 w0).1 ≠ Throw (SystemError EEXIST) ∧
  (∃ res, (create kernel_ok 2 FUSE_ROOT_ID "a" 33188 65 w0).1 = Ok res) ∧
  (∀ res w', create kernel_ok 2 FUSE_ROOT_ID "a" 33188 65 w0 = (Ok res, w') →
     ∃ t' q st,
       inodes w' !! FUSE_ROOT_ID = Some (TreeI t') ∧
       entries (contents_ t') = <["a" := q]> (entries (contents_ root0)) ∧
       file_entry (cr_inode res).2 = q ∧
       heap w0 !! q = None ∧
       heap w' !! q = Some {| mode := st; hash := None; materialized := true |} ∧
       ∃ wm v img,
         materializeDirAndParents kernel_ok 2 FUSE_ROOT_ID w0 = (Ok tt, wm) ∧
         trace w'
         = [EvSyscall (sys_fstat (path_add (resolvePath (nameMgr w0) FUSE_ROOT_ID) "a"))
              (SysOk (cr_attr_mode res));
            EvUnlock FUSE_ROOT_ID;
            EvSaveOverlayDir (resolvePath (nameMgr w0) FUSE_ROOT_ID) img;
            EvSyscall (sys_fstat (path_add (resolvePath (nameMgr w0) FUSE_ROOT_ID) "a"))
              (SysOk st);
            EvSyscall
              (sys_open (path_add (resolvePath (nameMgr w0) FUSE_ROOT_ID) "a")
                 (Z.lor (Z.lor O_RDWR O_CREAT)
                    (Z.land 65 (Z.lnot (Z.lor O_RDONLY O_WRONLY))))
                 384)
              (SysOk v);
            EvWLock FUSE_ROOT_ID] ++ trace wm).
Proof.
  split; [reflexivity|]. split; [reflexivity|].
  destruct (create_replaces_existing_entry kernel_ok 2 FUSE_ROOT_ID "a" 33188 65 w0 root0 1%N)
    as [Hno Hok]; [reflexivity | reflexivity |].
  split; [apply Hno; intros; discriminate|].
  split; [eexists; vm_compute; reflexivity | exact Hok].
Defined.

(** C9 as stated fails: create passes O_EXCL on to open, and once the overlay
    file of an entry exists, a create of that name with O_EXCL fails with
    EEXIST.  Here [b] is created, then created again with
    O_CREAT | O_EXCL | O_WRONLY. *)
Lemma create_existing_entry_EEXIST :
  is_Some (entry_of (create kernel_fs 2 FUSE_ROOT_ID "b" 33188 65 w0).2 FUSE_ROOT_ID "b") ∧
  (create kernel_fs 2 FUSE_ROOT_ID "b" 33188 193
     (create kernel_fs 2 FUSE_ROOT_ID "b" 33188 65 w0).2).1
  = Throw (SystemError EEXIST).
Proof. split; [vm_compute; by eexists | vm_compute; reflexivity]. Qed.

Section RmdirSpec.
Context (kernel : list Event → Syscall → SysResult) (store : N → option Tree).

(** C6. rmdir(name) fails with ENOTEMPTY unless the entries of the target
    directory are empty: in the preflight (a), and again in the commit (b),
    which, run in any world, throws ENOTEMPTY for a non-empty target after
    taking the write lock of this directory and the read lock of the target,
    and leaves every inode, the overlay and the journal as they were; (c) a
    commit that succeeds has found the target empty while it held the write
    lock, before the rmdir system call, the save of the parent Dir and the
    removal of the overlay record. *)
Theorem rmdir_ENOTEMPTY_rechecked_at_commit fuel this name w t p e :
  inodes w !! this = Some (TreeI t) →
  entries (contents_ t) !! name = Some p →
  heap w !! p = Some e →
  S_ISDIR (mode e) = true →
  let myname := resolvePath (nameMgr w) this in
  let targetName := path_add myname name in
  (∀ i td w1,
     lookupChildByNameLocked store this this name (add_event (EvRLock this) w)
       = (Ok (Some (i, TreeI td)), w1) →
     entries (contents_ td) ≠ ∅ →
     rmdir kernel store fuel this name w
       = (Throw (SystemError ENOTEMPTY),
          add_event (EvUnlock this) (add_event (EvUnlock i) (add_event (EvRLock i) w1)))) ∧
  (∀ i td w1,
     lookupChildByNameLocked store this this name (add_event (EvWLock this) w)
       = (Ok (Some (i, TreeI td)), w1) →
     entries (contents_ td) ≠ ∅ →
     rmdir_commit kernel store this name myname targetName w
       = (Throw (SystemError ENOTEMPTY),
          add_event (EvUnlock this) (add_event (EvUnlock i) (add_event (EvRLock i) w1))) ∧
     inodes w ⊆ inodes w1 ∧ overlay w1 = overlay w ∧ journal w1 = journal w ∧
     trace w1 = EvWLock this :: trace w) ∧
  (∀ w', rmdir_commit kernel store this name myname targetName w = (Ok tt, w') →
     ∃ i td w1 img,
       lookupChildByNameLocked store this this name (add_event (EvWLock this) w)
         = (Ok (Some (i, TreeI td)), w1) ∧
       entries (contents_ td) = ∅ ∧
       trace w' = EvUnlock this :: EvRemoveOverlayDir targetName
                  :: EvSaveOverlayDir myname img
                  :: (if materialized e
                      then [EvSyscall (sys_rmdir targetName)
                              (kernel (EvUnlock i :: EvRLock i :: EvWLock this :: trace w)
                                 (sys_rmdir targetName))]
                      else [])
                  ++ EvUnlock i :: EvRLock i :: EvWLock this :: trace w).
Proof.
  intros Hi Hp He Hd myname targetName.
  assert (∀ ev i td w1,
    lookupChildByNameLocked store this this name (add_event ev w)
      = (Ok (Some (i, TreeI td)), w1) →
    entries (contents_ td) ≠ ∅ →
    rmdir_check store this name (add_event ev w)
      = (Throw (SystemError ENOTEMPTY), add_event (EvUnlock i) (add_event (EvRLock i) w1)))
    as Hcheck.
  { intros ev i td w1 Hl Hne. rewrite (rmdir_check_run store this name (add_event ev w) t Hi).
    rewrite Hp. simpl. rewrite He, Hd. simpl. rewrite Hl.
    by rewrite bool_decide_eq_false_2. }
  split_and!.
  - intros i td w1 Hl Hne.
    unfold rmdir, resolvePathToNode. rewrite bind_gets. cbv beta zeta.
    rewrite bind_unfold. unfold withRLock. rewrite withLock_unfold.
    by rewrite (Hcheck _ _ _ _ Hl Hne).
  - intros i td w1 Hl Hne. split.
    + unfold rmdir_commit, withWLock. rewrite withLock_unfold.
      by rewrite (bind_Throw _ _ _ _ _ (Hcheck _ _ _ _ Hl Hne)).
    + pose proof (frame_lookupChildByNameLocked store this this name
                    (add_event (EvWLock this) w)) as Hfr.
      rewrite Hl in Hfr. by destruct Hfr.
  - intros w' H. unfold rmdir_commit, withWLock in H. rewrite withLock_unfold in H.
    injection H as Hr <-.
    rewrite bind_unfold in Hr |- *.
    rewrite (rmdir_check_run store this name (add_event (EvWLock this) w) t Hi) in Hr |- *.
    rewrite Hp in Hr |- *. simpl in Hr |- *. rewrite He, Hd in Hr |- *. simpl in Hr |- *.
    pose proof (frame_lookupChildByNameLocked store this this name
                  (add_event (EvWLock this) w)) as Hfr.
    destruct (lookupChildByNameLocked store this this name (add_event (EvWLock this) w))
      as [[[[i [td|f]]|]|x] w1]; try done.
    simpl in Hfr. destruct Hfr as [_ Hheap _ _ _ Htr]. simpl in Hheap, Htr.
    assert (heap w1 !! p = Some e) as He1 by (eapply lookup_weaken; eauto).
    case_bool_decide as Hempty; [|done].
    revert Hr. munfold. simpl. rewrite He1. simpl.
    intros Hr.
    repeat (case_match; rewrite ?lookup_insert_eq in *; simplify_eq/=; try done).
    all: eexists _, _, _, _; split_and!; try done.
    all: rewrite ?Htr in *.
    all: repeat match goal with H : kernel _ _ = _ |- _ => rewrite H; clear H end.
    all: reflexivity.
Qed.

End RmdirSpec.

Lemma rmdir_ENOTEMPTY_rechecked_at_commit_witness :
  inodes w0 !! FUSE_ROOT_ID = Some (TreeI root0) ∧
  entries (contents_ root0) !! "sub" = Some 2%N ∧
  heap w0 !! 2%N = Some entry_sub ∧
  S_ISDIR (mode entry_sub) = true ∧
  (rmdir kernel_ok store0 2 FUSE_ROOT_ID "sub" w0).1 = Throw (SystemError ENOTEMPTY).
Proof.
  split_and!; [reflexivity..|].
  destruct (rmdir_ENOTEMPTY_rechecked_at_commit kernel_ok store0 2 FUSE_ROOT_ID "sub"
              w0 root0 2%N entry_sub) as (Hpre & _ & _); [reflexivity..|].
  erewrite (Hpre 2%N sub0); [reflexivity | vm_compute; reflexivity |].
  apply insert_non_empty.
Defined.

Section PreflightSpec.
Context (kernel : list Event → Syscall → SysResult) (store : N → option Tree).

(** C1 (as amended). unlink and rmdir return every failure of a user
    precondition (absent name: ENOENT; wrong type: EISDIR; non-empty target:
    ENOTEMPTY) from the preflight, and rename returns EXDEV for a new parent
    that is not a TreeInode and ENOENT for an absent source name, in each
    case without materializing this directory or any ancestor: every inode
    and Entry is as before, the overlay and the journal are untouched, and
    only locks were taken. *)
Theorem preflight_failure_not_materialized fuel this name w t :
  inodes w !! this = Some (TreeI t) →
  (entries (contents_ t) !! name = None →
     fails_unmaterialized (unlink kernel fuel this name) w ENOENT) ∧
  (∀ p e, entries (contents_ t) !! name = Some p → heap w !! p = Some e →
     S_ISDIR (mode e) = true →
     fails_unmaterialized (unlink kernel fuel this name) w EISDIR) ∧
  (entries (contents_ t) !! name = None →
     fails_unmaterialized (rmdir kernel store fuel this name) w ENOENT) ∧
  (∀ p e, entries (contents_ t) !! name = Some p → heap w !! p = Some e →
     S_ISDIR (mode e) = false →
     fails_unmaterialized (rmdir kernel store fuel this name) w EISDIR) ∧
  (∀ p e i td w1, entries (contents_ t) !! name = Some p → heap w !! p = Some e →
     S_ISDIR (mode e) = true →
     lookupChildByNameLocked store this this name (add_event (EvRLock this) w)
       = (Ok (Some (i, TreeI td)), w1) →
     entries (contents_ td) ≠ ∅ →
     fails_unmaterialized (rmdir kernel store fuel this name) w ENOTEMPTY) ∧
  (∀ newParent newName, (∀ tp, inodes w !! newParent ≠ Some (TreeI tp)) →
     fails_unmaterialized (rename kernel store fuel this name newParent newName) w EXDEV) ∧
  (∀ newParent newName tp, inodes w !! newParent = Some (TreeI tp) →
     entries (contents_ t) !! name = None →
     fails_unmaterialized (rename kernel store fuel this name newParent newName) w ENOENT).
Proof.
  intros Hi.
  assert (Hi' : inodes (add_event (EvRLock this) w) !! this = Some (TreeI t)) by done.
  split_and!.
  - intros Hn.
    apply (fails_unmaterialized_intro _ _ _ _ [EvUnlock this; EvRLock this]
             (unlink_preflight_throw kernel fuel this name w _
                ltac:(by rewrite (unlink_check_run this name (add_event (EvRLock this) w) t Hi), Hn)));
      by repeat constructor.
  - intros p e Hp He Hd.
    apply (fails_unmaterialized_intro _ _ _ _ [EvUnlock this; EvRLock this]
             (unlink_preflight_throw kernel fuel this name w _
                ltac:(rewrite (unlink_check_run this name (add_event (EvRLock this) w) t Hi), Hp; simpl; by rewrite He, Hd)));
      by repeat constructor.
  - intros Hn.
    apply (fails_unmaterialized_intro _ _ _ _ [EvUnlock this; EvRLock this]
             (rmdir_preflight_throw kernel store fuel this name w _ _
                ltac:(by rewrite (rmdir_check_run store this name (add_event (EvRLock this) w) t Hi), Hn)));
      by repeat constructor.
  - intros p e Hp He Hd.
    apply (fails_unmaterialized_intro _ _ _ _ [EvUnlock this; EvRLock this]
             (rmdir_preflight_throw kernel store fuel this name w _ _
                ltac:(rewrite (rmdir_check_run store this name (add_event (EvRLock this) w) t Hi), Hp; simpl;
                      by rewrite He, Hd)));
      by repeat constructor.
  - intros p e i td w1 Hp He Hd Hl Hne.
    pose proof (frame_lookupChildByNameLocked store this this name
                  (add_event (EvRLock this) w)) as Hfr.
    rewrite Hl in Hfr. destruct Hfr as [? ? _ ? ? Htr]. simpl in *.
    apply (fails_unmaterialized_intro _ _ _ _
             [EvUnlock this; EvUnlock i; EvRLock i; EvRLock this]
             (rmdir_preflight_throw kernel store fuel this name w _ _
                ltac:(rewrite (rmdir_check_run store this name (add_event (EvRLock this) w) t Hi), Hp; simpl;
                      rewrite He, Hd; simpl; rewrite Hl;
                      by rewrite bool_decide_eq_false_2)));
      try done; [simpl; by rewrite Htr | by repeat constructor].
  - intros newParent newName Hnp.
    apply (fails_unmaterialized_intro _ _ _ w []); try done.
    unfold rename. rewrite bind_gets. cbv beta.
    destruct (inodes w !! newParent) as [[tp|]|] eqn:Hp; try done. by destruct (Hnp tp).
  - intros newParent newName tp Hnp Hn.
    apply (fails_unmaterialized_intro _ _ _
             (add_event (EvUnlock this) (add_event (EvRLock this) w))
             [EvUnlock this; EvRLock this]); try done; [|by repeat constructor].
    unfold rename. rewrite bind_gets. cbv beta. rewrite Hnp.
    unfold resolvePathToNode. rewrite !bind_gets. cbv beta zeta.
    rewrite bind_unfold. unfold withRLock. rewrite withLock_unfold.
    rewrite (bind_Ok _ _ _ _ _ (run_the_contents _ _ _ Hi')). by rewrite Hn.
Qed.

End PreflightSpec.

Lemma preflight_failure_not_materialized_witness :
  inodes w0 !! FUSE_ROOT_ID = Some (TreeI root0) ∧
  fails_unmaterialized (unlink kernel_ok 2 FUSE_ROOT_ID "sub") w0 EISDIR ∧
  fails_unmaterialized (rmdir kernel_ok store0 2 FUSE_ROOT_ID "sub") w0 ENOTEMPTY ∧
  fails_unmaterialized (rename kernel_ok store0 2 FUSE_ROOT_ID "sub" 7%N "x") w0 EXDEV.
Proof.
  split; [reflexivity|].
  destruct (preflight_failure_not_materialized kernel_ok store0 2 FUSE_ROOT_ID "sub"
              w0 root0) as (_ & Hisdir & _ & _ & Hnotempty & Hxdev & _); [reflexivity|].
  split_and!.
  - apply (Hisdir 2%N entry_sub); reflexivity.
  - apply (Hnotempty 2%N entry_sub 2%N sub0
             (lookupChildByNameLocked store0 FUSE_ROOT_ID FUSE_ROOT_ID "sub"
                (add_event (EvRLock FUSE_ROOT_ID) w0)).2);
      [reflexivity | reflexivity | reflexivity | vm_compute; reflexivity |].
    apply insert_non_empty.
  - apply Hxdev. intros tp. vm_compute. discriminate.
Defined.

(** C1 as stated fails for rename: the type of the destination is checked
    only in the commit, after materialization.  Renaming the directory [sub]
    onto the file [a] fails with ENOTDIR, and the root, which was not
    materialized, is. *)
Lemma rename_ENOTDIR_after_materialization :
  (rename kernel_ok store0 2 FUSE_ROOT_ID "sub" FUSE_ROOT_ID "a" w0).1
    = Throw (SystemError ENOTDIR) ∧
  dir_materialized <$> Dir_of w0 FUSE_ROOT_ID = Some false ∧
  dir_materialized <$>
    Dir_of (rename kernel_ok store0 2 FUSE_ROOT_ID "sub" FUSE_ROOT_ID "a" w0).2 FUSE_ROOT_ID
    = Some true ∧
  ¬ fails_unmaterialized
      (rename kernel_ok store0 2 FUSE_ROOT_ID "sub" FUSE_ROOT_ID "a") w0 ENOTDIR.
Proof.
  split_and!; [vm_compute; reflexivity..|].
  intros [_ [Hin _ _ _ _]].
  assert (inodes (rename kernel_ok store0 2 FUSE_ROOT_ID "sub" FUSE_ROOT_ID "a" w0).2
            !! FUSE_ROOT_ID = Some (TreeI root0)) as H
    by (apply (lookup_weaken (inodes w0)); [reflexivity | exact Hin]).
  vm_compute in H. discriminate H.
Qed.

(** mkdir has no preflight: with the name present it materializes the
    directory before it throws EEXIST. *)
Lemma mkdir_existing_name_materializes :
  (mkdir kernel_ok store0 2 FUSE_ROOT_ID "a" 493 w0).1 = Throw (SystemError EEXIST) ∧
  dir_materialized <$> Dir_of w0 FUSE_ROOT_ID = Some false ∧
  dir_materialized <$>
    Dir_of (mkdir kernel_ok store0 2 FUSE_ROOT_ID "a" 493 w0).2 FUSE_ROOT_ID
    = Some true.
Proof. split_and!; vm_compute; reflexivity. Qed.

(** ** Rename *)

Section RenameSpec.
Context (kernel : list Event → Syscall → SysResult) (store : N → option Tree).

(** C3 (as amended). For every directory d and every name n present in
    d.entries, whenever rename(n, d, n) returns successfully the entry has
    not stayed in place: n is absent from d.entries afterwards, the other
    names of d are as they were, and the Entry object that n held has been
    destroyed. *)
Theorem rename_onto_itself_erases fuel d n w w' dir p :
  Dir_of w d = Some dir →
  entries dir !! n = Some p →
  p ≠ nullptr →
  rename kernel store fuel d n d n w = (Ok tt, w') →
  entry_of w' d n = None ∧
  (∀ n', n' ≠ n → entry_of w' d n' = entry_of w d n') ∧
  heap w' !! p = None.
Proof.
  intros Hd Hp Hnull H.
  destruct (rename_Ok _ _ _ _ _ _ _ _ _ _ _ H Hd Hp) as [_ Hsame].
  destruct (Hsame eq_refl) as (d' & Hd' & Hent & Hgone).
  unfold entry_of. rewrite Hd, Hd', Hent. split_and!.
  - apply lookup_delete_eq.
  - intros n' Hne. by apply lookup_delete_ne.
  - by apply Hgone.
Qed.

End RenameSpec.

Lemma rename_onto_itself_erases_witness :
  Dir_of w0 FUSE_ROOT_ID = Some (contents_ root0) ∧
  entries (contents_ root0) !! "a" = Some 1%N ∧
  1%N ≠ nullptr ∧
  (rename kernel_ok store0 2 FUSE_ROOT_ID "a" FUSE_ROOT_ID "a" w0).1 = Ok tt ∧
  entry_of (rename kernel_ok store0 2 FUSE_ROOT_ID "a" FUSE_ROOT_ID "a" w0).2
    FUSE_ROOT_ID "a" = None ∧
  (∀ n', n' ≠ "a" →
     entry_of (rename kernel_ok store0 2 FUSE_ROOT_ID "a" FUSE_ROOT_ID "a" w0).2
       FUSE_ROOT_ID n' = entry_of w0 FUSE_ROOT_ID n') ∧
  heap (rename kernel_ok store0 2 FUSE_ROOT_ID "a" FUSE_ROOT_ID "a" w0).2 !! 1%N = None.
Proof.
  split; [reflexivity|]. split; [reflexivity|]. split; [done|].
  split; [vm_compute; reflexivity|].
  apply (rename_onto_itself_erases kernel_ok store0 2 FUSE_ROOT_ID "a" w0 _
           (contents_ root0) 1%N);
    [reflexivity | reflexivity | done | vm_compute; reflexivity].
Defined.

(** C3 as stated fails for a name that holds a directory with entries:
    rename of [sub] onto itself is refused with ENOTEMPTY, and the entry
    stays in place. *)
Lemma rename_onto_itself_ENOTEMPTY :
  entry_of w0 FUSE_ROOT_ID "sub" = Some 2%N ∧
  (rename kernel_ok store0 2 FUSE_ROOT_ID "sub" FUSE_ROOT_ID "sub" w0).1
    = Throw (SystemError ENOTEMPTY) ∧
  entry_of (rename kernel_ok store0 2 FUSE_ROOT_ID "sub" FUSE_ROOT_ID "sub" w0).2
    FUSE_ROOT_ID "sub" = Some 2%N.
Proof. split_and!; vm_compute; reflexivity. Qed.

(** C2 does not hold of [rename] where the destination is the very slot of
    the source.  The root has the file [a], held by the Entry object 1.
    Renaming [a] to [a] in the root returns successfully; afterwards the root
    has no entry named [a] and the object is gone from the heap, so the
    destination name does not hold the source Entry. *)
Theorem rename_same_name_loses_entry :
  entry_of w0 FUSE_ROOT_ID "a" = Some 1%N ∧
  heap w0 !! 1%N = Some entry_a ∧
  (rename kernel_ok store0 2 FUSE_ROOT_ID "a" FUSE_ROOT_ID "a" w0).1 = Ok tt ∧
  entry_of (rename kernel_ok store0 2 FUSE_ROOT_ID "a" FUSE_ROOT_ID "a" w0).2
    FUSE_ROOT_ID "a" = None ∧
  heap (rename kernel_ok store0 2 FUSE_ROOT_ID "a" FUSE_ROOT_ID "a" w0).2 !! 1%N = None ∧
  ¬ rename_identity w0
      (rename kernel_ok store0 2 FUSE_ROOT_ID "a" FUSE_ROOT_ID "a" w0).2
      FUSE_ROOT_ID "a" FUSE_ROOT_ID "a".
Proof.
  split_and!; [vm_compute; reflexivity..|].
  intros Hid.
  destruct (Hid 1%N entry_a eq_refl eq_refl) as [(q & Hq & _) _].
  revert Hq. vm_compute. discriminate.
Qed.

(** * Further properties of the code *)

(** ** Guid *)

(** Linear arithmetic with division by a constant. *)
Local Ltac nlia := zify; Z.to_euclidean_division_equations; lia.

Lemma hex_digit_elem d : hex_digit d ∈ hex_digits.
Proof.
  unfold hex_digit. fold hex_digits.
  destruct (decide (N.to_nat d < length hex_digits)%nat) as [Hlt|Hge].
  - apply list_elem_of_In, nth_In. exact Hlt.
  - rewrite nth_overflow by lia. by left.
Qed.

Lemma hex_digit_inj d1 d2 :
  (d1 < 16)%N → (d2 < 16)%N → hex_digit d1 = hex_digit d2 → d1 = d2.
Proof.
  intros H1 H2 Heq. apply N2Nat.inj.
  assert (NoDup hex_digits) as Hnd by (by apply (bool_decide_unpack _)).
  apply NoDup_ListNoDup in Hnd.
  eapply (proj1 (List.NoDup_nth hex_digits "0"%char) Hnd); [simpl; lia..|exact Heq].
Qed.

Lemma length_fixed_hex w n : length (fixed_hex w n) = w.
Proof.
  revert n. induction w as [|w IH]; intros n; simpl; [done|].
  rewrite length_app, IH. simpl. lia.
Qed.

Lemma fixed_hex_inj w n1 n2 :
  (n1 < 16 ^ N.of_nat w)%N → (n2 < 16 ^ N.of_nat w)%N →
  fixed_hex w n1 = fixed_hex w n2 → n1 = n2.
Proof.
  revert n1 n2. induction w as [|w IH]; intros n1 n2 H1 H2 Heq.
  - simpl in H1, H2. lia.
  - simpl in Heq. apply app_inj_tail in Heq as [Hhi Hlo].
    rewrite Nat2N.inj_succ, N.pow_succ_r' in H1, H2.
    apply IH in Hhi; [|apply N.Div0.div_lt_upper_bound; lia..].
    apply hex_digit_inj in Hlo; [|apply N.mod_lt; lia..].
    rewrite (N.div_mod n1 16), (N.div_mod n2 16) by lia. congruence.
Qed.

Lemma fixed_hex_zero w : fixed_hex w 0 = replicate w "0"%char.
Proof.
  induction w as [|w IH]; [done|].
  cbn [fixed_hex]. change (0 / 16)%N with 0%N.
  rewrite IH. change (hex_digit (0 mod 16)) with "0"%char.
  by rewrite <-replicate_cons_app.
Qed.

Lemma fixed_hex_pad j k n :
  (n < 16 ^ N.of_nat k)%N →
  fixed_hex (j + k) n = replicate j "0"%char ++ fixed_hex k n.
Proof.
  revert n. induction k as [|k IH]; intros n Hn.
  - simpl in Hn. assert (n = 0%N) as -> by lia.
    rewrite Nat.add_0_r, fixed_hex_zero. simpl. by rewrite app_nil_r.
  - rewrite Nat.add_succ_r. simpl.
    rewrite Nat2N.inj_succ, N.pow_succ_r' in Hn.
    rewrite IH by (apply N.Div0.div_lt_upper_bound; lia).
    by rewrite app_assoc.
Qed.

Lemma to_hex_fuel_S fuel n acc :
  to_hex_fuel (S fuel) n acc
  = if (n / 16 =? 0)%N then hex_digit (n mod 16) :: acc
    else to_hex_fuel fuel (n / 16) (hex_digit (n mod 16) :: acc).
Proof. reflexivity. Qed.

Lemma to_hex_fuel_fixed fuel n acc :
  (n < 2 ^ N.of_nat fuel)%N →
  ∃ k, (1 ≤ k)%nat ∧ (n < 16 ^ N.of_nat k)%N ∧
       (k = 1%nat ∨ (16 ^ N.of_nat (k - 1) ≤ n)%N) ∧
       to_hex_fuel (S fuel) n acc = fixed_hex k n ++ acc.
Proof.
  revert n acc. induction fuel as [|fuel IH]; intros n acc Hn.
  - simpl in Hn. assert (n = 0%N) as -> by lia.
    exists 1%nat. split_and!; [lia | simpl; lia | by left | done].
  - rewrite to_hex_fuel_S. destruct (n / 16 =? 0)%N eqn:Hq.
    + apply N.eqb_eq in Hq. exists 1%nat.
      assert (n < 16)%N by (apply N.div_small_iff in Hq; lia).
      split_and!; [lia | simpl; lia | by left | done].
    + apply N.eqb_neq in Hq.
      assert (n / 16 < 2 ^ N.of_nat fuel)%N as Hn'.
      { rewrite Nat2N.inj_succ, N.pow_succ_r' in Hn.
        apply N.Div0.div_lt_upper_bound. lia. }
      destruct (IH (n / 16)%N (hex_digit (n mod 16) :: acc) Hn') as (k & Hk & Hlt & Hge & Heq).
      exists (S k). split_and!.
      * lia.
      * rewrite Nat2N.inj_succ, N.pow_succ_r'.
        generalize dependent (16 ^ N.of_nat k)%N. clear. intros. nlia.
      * right. simpl. rewrite Nat.sub_0_r.
        destruct Hge as [->|Hge].
        -- change (16 ^ N.of_nat 1)%N with 16%N. clear -Hq. nlia.
        -- replace k with (S (k - 1)) at 1 by lia.
           rewrite Nat2N.inj_succ, N.pow_succ_r'.
           generalize dependent (16 ^ N.of_nat (k - 1))%N. clear. intros. nlia.
      * rewrite Heq. simpl. by rewrite <-app_assoc.
Qed.

(** A value that fits in [w] digits is printed in exactly [w] digits. *)
Lemma fmt_0X_fixed w n :
  (1 ≤ w)%nat → (n < 16 ^ N.of_nat w)%N → fmt_0X w n = fixed_hex w n.
Proof.
  intros Hw Hn. unfold fmt_0X, to_hex.
  destruct (to_hex_fuel_fixed (N.to_nat (N.size n)) n []) as (k & Hk & Hlt & Hge & ->).
  { rewrite N2Nat.id. apply N.size_gt. }
  rewrite app_nil_r, length_fixed_hex.
  assert (k ≤ w)%nat as Hkw.
  { destruct Hge as [->|Hge]; [done|].
    destruct (decide (k ≤ w)%nat); [done|].
    assert (16 ^ N.of_nat w ≤ 16 ^ N.of_nat (k - 1))%N by (apply N.pow_le_mono_r; lia).
    lia. }
  rewrite <-fixed_hex_pad by done. f_equal. lia.
Qed.

Lemma GUID_wf_Data4 g :
  GUID_wf g →
  ∃ b0 b1 b2 b3 b4 b5 b6 b7, Data4 g = [b0; b1; b2; b3; b4; b5; b6; b7] ∧
    Forall (λ b, (b < 16 ^ N.of_nat 2)%N) [b0; b1; b2; b3; b4; b5; b6; b7].
Proof.
  intros (_ & _ & _ & Hlen & Hall).
  destruct (Data4 g) as [|b0 [|b1 [|b2 [|b3 [|b4 [|b5 [|b6 [|b7 [|]]]]]]]]]; try done.
  by exists b0, b1, b2, b3, b4, b5, b6, b7.
Qed.

(** On a GUID whose fields have the values of their types, every field is
    printed in its full width. *)
Lemma toString_fixed g :
  GUID_wf g →
  ∃ b0 b1 b2 b3 b4 b5 b6 b7, Data4 g = [b0; b1; b2; b3; b4; b5; b6; b7] ∧
    Forall (λ b, (b < 16 ^ N.of_nat 2)%N) [b0; b1; b2; b3; b4; b5; b6; b7] ∧
    toString g =
      ["{"%char] ++ fixed_hex 8 (Data1 g) ++ ["-"%char] ++ fixed_hex 4 (Data2 g) ++ ["-"%char]
      ++ fixed_hex 4 (Data3 g) ++ ["-"%char] ++ fixed_hex 2 b0 ++ fixed_hex 2 b1 ++ ["-"%char]
      ++ fixed_hex 2 b2 ++ fixed_hex 2 b3 ++ fixed_hex 2 b4 ++ fixed_hex 2 b5
      ++ fixed_hex 2 b6 ++ fixed_hex 2 b7 ++ ["}"%char].
Proof.
  intros Hwf. destruct (GUID_wf_Data4 g Hwf) as (b0 & b1 & b2 & b3 & b4 & b5 & b6 & b7 & Hd & Hall).
  exists b0, b1, b2, b3, b4, b5, b6, b7. split; [done|]. split; [done|].
  destruct Hwf as (H1 & H2 & H3 & _). unfold toString. rewrite Hd.
  cbn [lookup_total list_lookup_total].
  repeat match goal with
         | H : Forall _ (_ :: _) |- _ => apply Forall_cons in H as [? H]
         end.
  rewrite !fmt_0X_fixed by (done || lia). done.
Qed.

(** [Guid::toString] prints 38 characters: the braces, four hyphens at
    the positions 9, 14, 19 and 24, and upper-case hexadecimal digits
    everywhere else. *)
Theorem toString_format g :
  GUID_wf g →
  length (toString g) = 38%nat ∧
  toString g !! 0%nat = Some "{"%char ∧
  toString g !! 37%nat = Some "}"%char ∧
  (∀ i, i ∈ [9; 14; 19; 24]%nat → toString g !! i = Some "-"%char) ∧
  (∀ i c, i ∉ [0; 9; 14; 19; 24; 37]%nat → toString g !! i = Some c → c ∈ hex_digits).
Proof.
  intros Hwf.
  destruct (toString_fixed g Hwf) as (b0 & b1 & b2 & b3 & b4 & b5 & b6 & b7 & _ & _ & ->).
  cbn [fixed_hex app]. split_and!; [done..| |].
  - intros i Hi. repeat (apply elem_of_cons in Hi as [->|Hi]; [done|]). by apply elem_of_nil in Hi.
  - intros i c Hi Hc.
    do 38 (destruct i as [|i];
           [first [ by (exfalso; apply Hi; repeat first [by left | right])
                  | injection Hc as <-; apply hex_digit_elem ] |]).
    done.
Qed.

Lemma toString_format_witness :
  GUID_wf guid0 ∧ length (toString guid0) = 38%nat ∧
  toString guid0 !! 9%nat = Some "-"%char.
Proof.
  assert (GUID_wf guid0) as Hwf
    by (unfold GUID_wf, guid0; simpl; split_and!; try done; repeat constructor).
  split; [exact Hwf|].
  destruct (toString_format guid0 Hwf) as (Hlen & _ & _ & Hdash & _).
  split; [exact Hlen|]. apply Hdash. by constructor.
Defined.

(** [Guid::toString] loses nothing: two GUIDs that print alike are the
    same. *)
Theorem toString_inj g1 g2 :
  GUID_wf g1 → GUID_wf g2 → toString g1 = toString g2 → g1 = g2.
Proof.
  intros Hwf1 Hwf2.
  destruct (toString_fixed g1 Hwf1) as (a0 & a1 & a2 & a3 & a4 & a5 & a6 & a7 & Ha & Hal & ->).
  destruct (toString_fixed g2 Hwf2) as (b0 & b1 & b2 & b3 & b4 & b5 & b6 & b7 & Hb & Hbl & ->).
  destruct Hwf1 as (? & ? & ? & _), Hwf2 as (? & ? & ? & _).
  repeat match goal with
         | H : Forall _ (_ :: _) |- _ => apply Forall_cons in H as [? H]
         end.
  intros Heq.
  repeat match type of Heq with
         | [_] ++ _ = [_] ++ _ => apply (app_inj_1 [_] [_]) in Heq as [_ Heq]; [|done]
         | fixed_hex _ _ ++ _ = fixed_hex _ _ ++ _ =>
             let Hf := fresh "Hf" in
             apply app_inj_1 in Heq as [Hf Heq]; [|by rewrite !length_fixed_hex];
             apply fixed_hex_inj in Hf; [|done || lia..]
         end.
  destruct g1, g2. simpl in *. congruence.
Qed.

Lemma toString_inj_witness :
  GUID_wf guid0 ∧ toString guid0 = toString (mkGUID (Data1 guid0) 43981 15 (Data4 guid0)) ∧
  guid0 = mkGUID (Data1 guid0) 43981 15 (Data4 guid0).
Proof.
  assert (GUID_wf guid0) as Hwf
    by (unfold GUID_wf, guid0; simpl; split_and!; try done; repeat constructor).
  split; [exact Hwf|]. split; [reflexivity|].
  apply (toString_inj guid0 (mkGUID (Data1 guid0) 43981 15 (Data4 guid0)));
    [exact Hwf | exact Hwf | reflexivity].
Defined.

(** The relation that a run establishes between the world before and after. *)
Ltac run_preserves R Hrun tac :=
  match type of Hrun with
  | ?m ?w = (_, ?w1) =>
      let Hst := fresh "Hpres" in
      assert (R w w1) as Hst
        by (let P := fresh in
            assert (preserves R m) as P by tac;
            specialize (P w); rewrite Hrun in P; exact P)
  end.

Lemma update_contents_Ok i f w w' :
  update_contents i f w = (Ok tt, w') →
  ∃ t, inodes w !! i = Some (TreeI t) ∧
       w' = set_inodes (<[i := TreeI (TreeInode_set_contents (f (contents_ t)) t)]>) w.
Proof.
  unfold update_contents. intros H.
  apply bind_Ok_inv in H as (t & w1 & Ht & H).
  apply the_TreeInode_Ok in Ht as [-> Ht]. injection H as <-. eauto.
Qed.

Lemma withLock_Ok {A} acq rel (body : M A) w a w' :
  withLock acq rel body w = (Ok a, w') →
  ∃ wb, body (add_event acq w) = (Ok a, wb) ∧
        w' = foldl (λ w ev, add_event ev w) wb rel.
Proof.
  rewrite withLock_unfold. destruct (body (add_event acq w)) as [r wb].
  simpl. intros [= -> <-]. eauto.
Qed.

Section Materialize.
Context (kernel : list Event → Syscall → SysResult).

(** The write-locked part of a materialization that returns leaves the
    directory materialized. *)
Lemma materialize_Ok fuel this w w' :
  materializeDirAndParents kernel fuel this w = (Ok tt, w') →
  ∃ t t',
    inodes w !! this = Some (TreeI t) ∧
    inodes w' !! this = Some (TreeI t') ∧
    dir_materialized (contents_ t') = true ∧
    (dir_materialized (contents_ t) = false → this ≠ FUSE_ROOT_ID →
       ∃ tp, inodes w' !! parent_ t = Some (TreeI tp) ∧
             dir_materialized (contents_ tp) = true).
Proof.
  revert this w w'. induction fuel as [|fuel IH]; intros this w w' H; [done|].
  simpl in H.
  apply bind_Ok_inv in H as (self & w0 & Hself & H).
  apply the_TreeInode_Ok in Hself as [-> Hself].
  apply bind_Ok_inv in H as (already & wl & Hal & H).
  unfold withRLock in Hal. rewrite withLock_unfold in Hal.
  rewrite (bind_Ok _ _ _ _ _ (run_the_contents this (add_event _ w) self Hself)) in Hal.
  injection Hal as <- <-. simpl in H.
  exists self.
  destruct (dir_materialized (contents_ self)) eqn:Hm.
  { injection H as <-. exists self. by split_and!. }
  apply bind_Ok_inv in H as ([] & w2 & Hpar & H).
  run_preserves stable Hpar ltac:(pres; apply stable_materializeDirAndParents).
  apply bind_Ok_inv in H as (updateParent & w3 & Hlock & H).
  run_preserves stable Hlock ltac:(apply stable_withLock; pres;
      try apply stable_syscall; try apply stable_saveOverlayDir;
      try (apply stable_update_contents; intros d; by split_and!);
      try (apply stable_update_Entry; intros e; by split_and!)).
  assert (∃ t3, inodes w3 !! this = Some (TreeI t3) ∧ dir_materialized (contents_ t3) = true)
    as (t3 & Ht3 & Hm3).
  { apply withLock_Ok in Hlock as (wb & Hbody & ->). simpl.
    apply bind_Ok_inv in Hbody as (c & w4 & Hc & Hbody).
    apply the_contents_Ok in Hc as [-> Hc].
    unfold Dir_of in Hc. simpl in Hc.
    destruct (inodes w2 !! this) as [[t2|]|] eqn:Ht2; try done. injection Hc as <-.
    destruct (dir_materialized (contents_ t2)) eqn:Hm2.
    { injection Hbody as _ <-. eauto. }
    unfold resolvePathToNode in Hbody. rewrite bind_gets in Hbody.
    apply bind_Ok_inv in Hbody as (r & wk & Hsys & Hbody).
    injection Hsys as <- <-.
    apply bind_Ok_inv in Hbody as ([] & wk & Hchk & Hbody).
    apply bind_Ok_inv in Hbody as ([] & wu & Hu & Hbody).
    apply update_contents_Ok in Hu as (tu & _ & ->).
    run_preserves (kept inodes) Hbody ltac:(kept_steps).
    unfold kept in *. rewrite Hpres1. simpl. rewrite lookup_insert_eq. eauto. }
  assert (materialized_kept w3 w') as Hk3.
  { destruct updateParent; [|by injection H as <-].
    run_preserves (kept inodes) H ltac:(kept_steps).
    intros j tj Hj Hmj. exists tj. unfold kept in *. by rewrite Hpres1. }
  destruct (Hk3 _ _ Ht3 Hm3) as (t' & Ht' & Hm').
  exists t'. split_and!; try done.
  intros _ Hroot. rewrite bool_decide_eq_true_2 in Hpar by done.
  apply bind_Ok_inv in Hpar as (tp0 & wp & Htp & Hpar).
  apply the_TreeInode_Ok in Htp as [-> Htp].
  apply IH in Hpar as (tp & tp' & _ & Htp' & Hmp & _).
  destruct (stable_materialized_kept _ _ Hpres0 _ _ Htp' Hmp) as (tp3 & Htp3 & Hmp3).
  destruct (Hk3 _ _ Htp3 Hmp3) as (tp4 & ? & ?). eauto.
Qed.

End Materialize.

(** ** buildDirFromTree *)

Lemma emplace_entries_spec l m w :
  (∀ n q, m !! n = Some q → is_Some (heap w !! q)) →
  ∃ m' w',
    emplace_entries l m w = (Ok m', w') ∧
    inodes w' = inodes w ∧ nameMgr w' = nameMgr w ∧ overlay w' = overlay w ∧
    journal w' = journal w ∧ trace w' = trace w ∧
    heap w ⊆ heap w' ∧
    (∀ name p, m !! name = Some p → m' !! name = Some p) ∧
    (∀ name, m !! name = None →
       match tree_find name l with
       | Some te => ∃ p, m' !! name = Some p ∧ p ≠ nullptr ∧ heap w !! p = None ∧
                         heap w' !! p = Some (Entry_of_TreeEntry te)
       | None => m' !! name = None
       end) ∧
    (∀ p, is_Some (heap w' !! p) →
       is_Some (heap w !! p) ∨ ∃ name, m !! name = None ∧ m' !! name = Some p) ∧
    (∀ n1 n2 p, m !! n1 = None → m' !! n1 = Some p → m' !! n2 = Some p → n1 = n2).
Proof.
  revert m w. induction l as [|te l IH]; intros m w Hlive.
  - exists m, w. simpl. split_and!; try done.
    + intros p Hp. by left.
    + intros n1 n2 p Hn1 Hn2. congruence.
  - cbn [emplace_entries].
    destruct (new_Entry_spec (Entry_of_TreeEntry te) w) as (p & Hnew & Hp & Hfresh).
    unfold Entry_of_TreeEntry in Hnew. rewrite (bind_Ok _ _ _ _ _ Hnew).
    fold (Entry_of_TreeEntry te).
    destruct (m !! te_name te) as [q|] eqn:Hq.
    + rewrite (bind_Ok _ _ _ _ _ (delete_Entry_run _ _)).
      rewrite bool_decide_eq_false_2 by done.
      assert (set_heap (delete p) (set_heap <[p:=Entry_of_TreeEntry te]> w) = w) as ->.
      { destruct w. unfold set_heap. simpl in *. f_equal.
        rewrite delete_insert_eq. by apply delete_id. }
      destruct (IH m w Hlive)
        as (m' & w' & Hrun & ? & ? & ? & ? & ? & ? & Hkeep & Hnew' & Hleak & Hinj).
      exists m', w'. split_and!; try done.
      intros name Hname. specialize (Hnew' name Hname).
      unfold tree_find in *. simpl.
      rewrite bool_decide_eq_false_2 by congruence. done.
    + destruct (IH (<[te_name te := p]> m) (set_heap <[p:=Entry_of_TreeEntry te]> w))
        as (m' & w' & Hrun & ? & ? & ? & ? & ? & Hsub & Hkeep & Hnew' & Hleak & Hinj).
      { intros n q. simpl. destruct (decide (te_name te = n)) as [<-|].
        - rewrite lookup_insert_eq. intros [= <-]. by rewrite lookup_insert_eq.
        - rewrite lookup_insert_ne by done. intros Hn.
          destruct (Hlive _ _ Hn) as [e He].
          exists e. rewrite lookup_insert_ne; [done|]. congruence. }
      simpl in *.
      assert (heap w ⊆ heap w') as Hsub'.
      { etrans; [|exact Hsub]. by apply insert_subseteq. }
      exists m', w'. split_and!; try done.
      * intros name r Hr. apply Hkeep. rewrite lookup_insert_ne by congruence. done.
      * intros name Hname. unfold tree_find. simpl.
        case_bool_decide as Hn.
        -- subst name. exists p. split_and!; try done.
           ++ apply Hkeep. apply lookup_insert_eq.
           ++ eapply lookup_weaken; [|exact Hsub]. apply lookup_insert_eq.
        -- specialize (Hnew' name). rewrite lookup_insert_ne in Hnew' by done.
           specialize (Hnew' Hname). fold (tree_find name l).
           destruct (tree_find name l) as [te'|]; [|done].
           destruct Hnew' as (r & ? & ? & Hr & ?). exists r. split_and!; try done.
           destruct (decide (r = p)) as [->|]; [done|].
           by rewrite lookup_insert_ne in Hr.
      * intros r Hr. destruct (Hleak r Hr) as [Hold|(name & Hn & Hn')].
        -- destruct (decide (r = p)) as [->|].
           ++ right. exists (te_name te). split; [done|]. apply Hkeep, lookup_insert_eq.
           ++ left. by rewrite lookup_insert_ne in Hold.
        -- right. exists name. split; [|done].
           destruct (decide (te_name te = name)) as [<-|]; [|by rewrite lookup_insert_ne in Hn].
           by rewrite lookup_insert_eq in Hn.
      * assert (∀ n2, m' !! n2 = Some p → n2 = te_name te) as Honly.
        { intros n2 H2'. destruct (decide (te_name te = n2)) as [|Hne2]; [done|].
          exfalso.
          destruct (<[te_name te:=p]> m !! n2) as [r2|] eqn:Hr2.
          - pose proof (Hkeep _ _ Hr2). assert (r2 = p) as -> by congruence.
            rewrite lookup_insert_ne in Hr2 by done.
            destruct (Hlive _ _ Hr2) as [? ?]. congruence.
          - specialize (Hnew' n2 Hr2).
            destruct (tree_find n2 l); [|congruence].
            destruct Hnew' as (r & Hr & _ & Hfr & _).
            assert (r = p) as -> by congruence.
            by rewrite lookup_insert_eq in Hfr. }
        intros n1 n2 r Hn1 Hn1' Hn2'.
        destruct (decide (te_name te = n1)) as [<-|Hne1].
        -- assert (r = p) as ->.
           { pose proof (Hkeep (te_name te) p (lookup_insert_eq _ _ _)). congruence. }
           symmetry. by apply Honly.
        -- rewrite <-(lookup_insert_ne m (te_name te) n1 p) in Hn1 by done.
           by apply (Hinj n1 n2 r).
Qed.

Lemma buildDirFromTree_run t w :
  ∃ d w', buildDirFromTree (Some t) w = (Ok d, w') ∧
    Dir_of_Tree t w w' d ∧
    inodes w' = inodes w ∧ nameMgr w' = nameMgr w ∧ overlay w' = overlay w ∧
    journal w' = journal w ∧ trace w' = trace w.
Proof.
  destruct (emplace_entries_spec (tree_entries t) ∅ w)
    as (m & w' & Hrun & ? & ? & ? & ? & ? & ? & _ & Hnew & Hleak & Hinj); [done|].
  eexists _, w'. unfold buildDirFromTree. rewrite (bind_Ok _ _ _ _ _ Hrun).
  split; [reflexivity|]. split; [|done].
  unfold Dir_of_Tree. simpl. split_and!; try done.
  - intros name. by apply Hnew.
  - intros n1 n2 p. by apply Hinj.
  - intros p Hp. destruct (Hleak p Hp) as [|(name & _ & ?)]; eauto.
Qed.

(** [buildDirFromTree] of a tree makes an unmaterialized [Dir] with the
    hash of the tree, in which every name of the tree holds a new [Entry]
    with the mode and hash of the first tree entry of that name; no two names
    share an [Entry], the entries that existed are untouched, and every
    [Entry] allocated is held by the [Dir] (those made for a name that was
    already there are destroyed).  Without a tree the [Dir] is empty and
    materialized, and nothing is allocated. *)
Theorem buildDirFromTree_spec w :
  buildDirFromTree None w
    = (Ok {| entries := ∅; dir_materialized := true; treeHash := None |}, w) ∧
  ∀ t, ∃ d w', buildDirFromTree (Some t) w = (Ok d, w') ∧ Dir_of_Tree t w w' d ∧
    inodes w' = inodes w ∧ nameMgr w' = nameMgr w ∧ overlay w' = overlay w ∧
    journal w' = journal w ∧ trace w' = trace w.
Proof. split; [reflexivity|]. intros t. apply buildDirFromTree_run. Qed.

(** ** Lookup *)

Section LookupKinds.
Context (store : N → option Tree).


End LookupKinds.


Lemma find_node_None nm path j :
  find_node nm path = None → nm !! j ≠ Some path.
Proof.
  unfold find_node. destruct (find _ _) as [x|] eqn:Hf; [done|]. intros _ Hj.
  assert (In (j, path) (map_to_list nm)) as Hin
    by (by apply list_elem_of_In, elem_of_map_to_list).
  pose proof (find_none _ _ Hf (j, path) Hin) as Hb. simpl in Hb.
  by rewrite bool_decide_eq_true_2 in Hb.
Qed.

Lemma find_node_insert_fresh nm path i :
  find_node nm path = None → find_node (<[i := path]> nm) path = Some i.
Proof.
  intros Hnone. destruct (find_node (<[i:=path]> nm) path) as [j|] eqn:Hf.
  - apply find_node_Some in Hf. destruct (decide (i = j)) as [->|Hne]; [done|].
    rewrite lookup_insert_ne in Hf by done. by apply find_node_None in Hf.
  - by apply (find_node_None _ _ i) in Hf; rewrite lookup_insert_eq in Hf.
Qed.

Section LookupAgain.
Context (store : N → option Tree).

Lemma getChildByNameLocked_alloc this contents name w i o w1 :
  getChildByNameLocked store this contents name w = (Ok (i, o), w1) →
  find_node (nameMgr w) (path_add (resolvePath (nameMgr w) this) name) = None →
  nameMgr w1 = <[i := path_add (resolvePath (nameMgr w) this) name]> (nameMgr w) ∧
  i ∉ dom (inodes w).
Proof.
  intros Hc Hf. pose proof Hc as Hc'.
  unfold getChildByNameLocked in Hc'.
  apply bind_Ok_inv in Hc' as (d & w0 & Hd & Hc').
  apply the_contents_Ok in Hd as [-> Hd].
  destruct (entries d !! name) as [p|] eqn:Hp; [|done]. clear Hc'.
  destruct (getChildByNameLocked_present store this contents name w d p Hd Hp)
    as (i' & w2 & Hn & Hnm & _ & Hi).
  rewrite Hc in Hnm, Hi. simpl in Hnm, Hi. specialize (Hi i o eq_refl). subst i'.
  destruct (getNodeByName_spec this name w) as (i2 & w2' & Hn' & _ & [[Hs _]|(_ & Hin & _ & Hw2)]);
    [congruence|].
  rewrite Hn in Hn'. injection Hn' as <- <-. by rewrite Hnm, Hw2.
Qed.

(** A second lookup through the inode table returns the inode that the
    first one recorded, and changes nothing. *)
Theorem lookupChildByNameLocked_again this contents name w r w' :
  is_Some (inodes w !! this) →
  lookupChildByNameLocked store this contents name w = (Ok r, w') →
  lookupChildByNameLocked store this contents name w' = (Ok r, w').
Proof.
  intros Hthis H. unfold lookupChildByNameLocked, getNodeByName_existing in *.
  rewrite bind_gets in H. rewrite bind_gets. cbv beta in *.
  destruct (find_node (nameMgr w) _) as [i0|] eqn:Hf.
  - unfold getInode, gets in H. injection H as <- <-. by rewrite Hf.
  - apply bind_Ok_inv in H as ([i o] & w1 & Hc & H). injection H as <- <-.
    destruct (getChildByNameLocked_alloc _ _ _ _ _ _ _ Hc Hf) as [Hnm Hi].
    simpl. rewrite Hnm.
    assert (i ≠ this) as Hne.
    { intros ->. apply Hi. by apply elem_of_dom. }
    unfold resolvePath at 2. rewrite lookup_insert_ne by done.
    fold (resolvePath (nameMgr w) this).
    rewrite (find_node_insert_fresh _ _ _ Hf).
    unfold getInode, gets. simpl. by rewrite lookup_insert_eq.
Qed.

End LookupAgain.

Lemma lookupChildByNameLocked_again_witness :
  is_Some (inodes w0 !! FUSE_ROOT_ID) ∧
  (lookupChildByNameLocked store0 FUSE_ROOT_ID FUSE_ROOT_ID "sub" w0).1
    = Ok (Some (2%N, TreeI sub0)) ∧
  lookupChildByNameLocked store0 FUSE_ROOT_ID FUSE_ROOT_ID "sub"
    (lookupChildByNameLocked store0 FUSE_ROOT_ID FUSE_ROOT_ID "sub" w0).2
  = (Ok (Some (2%N, TreeI sub0)),
     (lookupChildByNameLocked store0 FUSE_ROOT_ID FUSE_ROOT_ID "sub" w0).2).
Proof.
  split; [by eexists|]. split; [vm_compute; reflexivity|].
  apply (lookupChildByNameLocked_again store0 FUSE_ROOT_ID FUSE_ROOT_ID "sub" w0);
    [by eexists | vm_compute; reflexivity].
Defined.

(** ** create *)

Lemma run_syscall kernel c w :
  syscall kernel c w = (Ok (kernel (trace w) c), add_event (EvSyscall c (kernel (trace w) c)) w).
Proof. reflexivity. Qed.

Section CreateFailure.
Context (kernel : list Event → Syscall → SysResult).

(** When [open] fails, [create] throws its error and the directory is as
    materialization left it: no entry is made or replaced, nothing is saved
    or journalled. *)
Theorem create_open_failure fuel this name md flags w wm errno :
  let path := path_add (resolvePath (nameMgr w) this) name in
  materializeDirAndParents kernel fuel this w = (Ok tt, wm) →
  kernel (EvWLock this :: trace wm) (sys_open path (create_open_flags flags) 384)
    = SysFail errno →
  create kernel fuel this name md flags w
  = (Throw (SystemError errno),
     add_event (EvUnlock this)
       (add_event (EvSyscall (sys_open path (create_open_flags flags) 384) (SysFail errno))
          (add_event (EvWLock this) wm))).
Proof.
  intros path Hmat Hopen. unfold create, resolvePathToNode. rewrite bind_gets. cbv beta zeta.
  rewrite (bind_Ok _ _ _ _ _ Hmat). rewrite bind_unfold.
  unfold create_commit, withWLock. rewrite withLock_unfold.
  rewrite bind_unfold, run_syscall. simpl. fold path.
  unfold create_open_flags in Hopen. rewrite Hopen. done.
Qed.

(** When [open] succeeds and [fstat] fails, [create] throws the error of
    [fstat] after it has put a new [Entry] under the name: the directory keeps
    an entry with mode 0 that is marked materialized, the [Entry] that the name
    held before is destroyed, and neither the overlay record of the directory
    nor the journal tells of it. *)
Theorem create_fstat_failure fuel this name md flags w wm d v errno :
  let path := path_add (resolvePath (nameMgr w) this) name in
  let open_ev := EvSyscall (sys_open path (create_open_flags flags) 384) (SysOk v) in
  materializeDirAndParents kernel fuel this w = (Ok tt, wm) →
  Dir_of wm this = Some d →
  (∀ p, entries d !! name = Some p → is_Some (heap wm !! p)) →
  kernel (EvWLock this :: trace wm) (sys_open path (create_open_flags flags) 384)
    = SysOk v →
  kernel (open_ev :: EvWLock this :: trace wm) (sys_fstat path) = SysFail errno →
  ∃ w' q,
    create kernel fuel this name md flags w = (Throw (SystemError errno), w') ∧
    Dir_of w' this = Some (Dir_set_entries (<[name := q]> (entries d)) d) ∧
    heap wm !! q = None ∧
    heap w' !! q = Some {| mode := 0; hash := None; materialized := true |} ∧
    (∀ p, entries d !! name = Some p → p ≠ nullptr → heap w' !! p = None) ∧
    overlay w' = overlay wm ∧ journal w' = journal w.
Proof.
  intros path open_ev Hmat Hd Hlive Hopen Hfstat.
  unfold create, resolvePathToNode. rewrite bind_gets. cbv beta zeta.
  rewrite (bind_Ok _ _ _ _ _ Hmat). rewrite bind_unfold.
  unfold create_commit, withWLock. rewrite withLock_unfold.
  match goal with
  | |- context [(?b (add_event (EvWLock this) wm)).1] =>
      destruct (b (add_event (EvWLock this) wm)) as [r wb] eqn:Hb
  end.
  simpl fst. simpl snd.
  rewrite (bind_Ok _ _ _ _ _ (run_syscall _ _ _)) in Hb. simpl trace in Hb. fold path in Hb.
  fold (create_open_flags flags) in Hb. rewrite Hopen in Hb. fold open_ev in Hb.
  rewrite (bind_Ok _ _ _ v (add_event open_ev (add_event (EvWLock this) wm))) in Hb by done.
  set (w1 := add_event open_ev (add_event (EvWLock this) wm)) in Hb.
  assert (Dir_of w1 this = Some d) as Hd1 by done.
  rewrite (bind_Ok _ _ _ _ _ (run_the_contents_Dir _ _ _ Hd1)) in Hb.
  assert (∃ w2 d2, ((if bool_decide (is_Some (entries d !! name)) then mret tt
                     else update_contents this
                            (λ d, Dir_set_entries (<[name := nullptr]> (entries d)) d)) w1
                    = (Ok tt, w2)) ∧
            Dir_of w2 this = Some d2 ∧
            d2 = Dir_set_entries (<[name := default nullptr (entries d !! name)]> (entries d)) d ∧
            heap w2 = heap wm ∧ overlay w2 = overlay wm ∧ journal w2 = journal wm ∧
            trace w2 = trace w1) as (w2 & d2 & Hstep & Hd2 & Hd2' & Hh2 & Ho2 & Hj2 & Ht2).
  { destruct (entries d !! name) as [p|] eqn:Hp.
    - rewrite bool_decide_eq_true_2 by eauto. exists w1, d. simpl.
      rewrite insert_id by done. split_and!; try done. by destruct d.
    - rewrite bool_decide_eq_false_2 by (intros [? ?]; done).
      eexists _, _. split; [apply (run_update_entries this (insert name nullptr) _ _ Hd1)|].
      split; [by apply Dir_of_set_entries_eq|]. done. }
  assert (entries d2 !! name = Some (default nullptr (entries d !! name))) as Hn2
    by (rewrite Hd2'; simpl; apply lookup_insert_eq).
  rewrite (bind_Ok _ _ _ _ _ Hstep) in Hb.
  destruct (new_Entry_spec Entry_default w2) as (q & Hnew & Hq & Hfresh).
  rewrite (bind_Ok _ _ _ _ _ Hnew) in Hb.
  set (w3 := set_heap (<[q := Entry_default]>) w2) in Hb.
  assert (Dir_of w3 this = Some d2) as Hd3 by done.
  rewrite (bind_Ok _ _ _ _ _ (run_the_contents_Dir _ _ _ Hd3)) in Hb.
  rewrite (bind_Ok _ _ _ _ _ (run_update_entries this (insert name q) _ _ Hd3)) in Hb.
  rewrite (bind_Ok _ _ _ _ _ (delete_Entry_run _ _)) in Hb.
  rewrite Hn2 in Hb. simpl default in Hb.
  match type of Hb with _ ?W = _ => set (w4 := W) in Hb end.
  assert (Dir_of w4 this = Some (Dir_set_entries (<[name := q]> (entries d)) d)) as Hd4.
  { assert (Dir_of w4 this = Some (Dir_set_entries (<[name := q]> (entries d2)) d2)) as ->
      by (unfold w4; destruct (bool_decide _); by apply Dir_of_set_entries_eq).
    rewrite Hd2'. unfold Dir_set_entries. simpl. by rewrite insert_insert_eq. }
  assert (heap w4 !! q = Some Entry_default) as Hq4.
  { unfold w4. destruct (bool_decide (default nullptr _ = nullptr)) eqn:Hnull; simpl;
      [apply lookup_insert_eq|].
    rewrite lookup_delete_ne; [apply lookup_insert_eq|].
    destruct (entries d !! name) as [p|] eqn:Hp; [|done]. simpl in *.
    intros ->. destruct (Hlive _ eq_refl) as [? ?]. congruence. }
  assert (∀ p, entries d !! name = Some p → p ≠ nullptr → heap w4 !! p = None) as Hgone.
  { intros p Hp Hnull. unfold w4. rewrite Hp. simpl.
    rewrite bool_decide_eq_false_2 by done. simpl. apply lookup_delete_eq. }
  assert (overlay w4 = overlay wm ∧ journal w4 = journal wm ∧ trace w4 = trace w1)
    as (Ho4 & Hj4 & Ht4) by (unfold w4; destruct (bool_decide _); done).
  clearbody w4.
  rewrite (bind_Ok _ _ _ tt
             (set_heap (<[q := Entry_set_materialized true Entry_default]>) w4)) in Hb.
  2: { unfold update_Entry. by rewrite (bind_Ok _ _ _ _ _ (run_deref_Entry _ _ _ Hq4)). }
  rewrite (bind_Ok _ _ _ _ _ (run_syscall _ _ _)) in Hb. simpl trace in Hb. rewrite Ht4 in Hb.
  unfold w1 at 1 in Hb. simpl trace in Hb. rewrite Hfstat in Hb.
  rewrite bind_unfold in Hb. simpl in Hb. injection Hb as <- <-.
  eexists _, q. split; [reflexivity|]. simpl.
  split_and!; try done.
  - congruence.
  - apply lookup_insert_eq.
  - intros p Hp Hnull. rewrite lookup_insert_ne; [by apply Hgone|].
    intros ->. destruct (Hlive _ Hp) as [? ?]. congruence.
  - rewrite Hj4. pose proof (kept_materializeDirAndParents kernel journal fuel this
      (λ _ _, eq_refl) (λ _ _, eq_refl) (λ _ _, eq_refl) (λ _ _, eq_refl) w) as Hk.
    rewrite Hmat in Hk. exact Hk.
Qed.

End CreateFailure.

Lemma create_open_failure_witness :
  (create (kernel_refusing is_sys_open) 2 FUSE_ROOT_ID "n" 420 0 w0).1
  = Throw (SystemError EACCES).
Proof.
  rewrite (create_open_failure (kernel_refusing is_sys_open) 2 FUSE_ROOT_ID "n" 420 0 w0
             (materializeDirAndParents (kernel_refusing is_sys_open) 2 FUSE_ROOT_ID w0).2
             EACCES);
    [reflexivity | vm_compute; reflexivity | reflexivity].
Defined.

Lemma create_fstat_failure_witness :
  ∃ w' q,
    create (kernel_refusing is_sys_fstat) 2 FUSE_ROOT_ID "a" 420 0 w0
      = (Throw (SystemError EACCES), w') ∧
    entry_of w' FUSE_ROOT_ID "a" = Some q ∧
    heap w' !! q = Some {| mode := 0; hash := None; materialized := true |}.
Proof.
  destruct (create_fstat_failure (kernel_refusing is_sys_fstat) 2 FUSE_ROOT_ID "a" 420 0 w0
              (materializeDirAndParents (kernel_refusing is_sys_fstat) 2 FUSE_ROOT_ID w0).2
              (contents_ root1) 0 EACCES)
    as (w' & q & Hrun & Hd & _ & Hq & _).
  - vm_compute. reflexivity.
  - vm_compute. reflexivity.
  - intros p Hp. vm_compute in Hp. injection Hp as <-. vm_compute. by eexists.
  - reflexivity.
  - reflexivity.
  - exists w', q. split_and!; [exact Hrun | | exact Hq].
    unfold entry_of. rewrite Hd. simpl. apply lookup_insert_eq.
Defined.

(** *** The flags of the open *)

Lemma create_open_flags_spec flags :
  Z.land (create_open_flags flags) 3 = O_RDWR ∧
  Z.land (create_open_flags flags) O_CREAT = O_CREAT ∧
  (∀ n, 2 ≤ n → n ≠ 6 →
     Z.testbit (create_open_flags flags) n = Z.testbit flags n).
Proof.
  unfold create_open_flags, O_RDWR, O_CREAT, O_RDONLY, O_WRONLY.
  change (Z.lor (Z.lor 2 64) _) with (Z.lor 66 (Z.land flags (Z.lnot 1))).
  assert (∀ n, 0 ≤ n → Z.testbit 66 n = bool_decide (n = 1 ∨ n = 6)) as H66.
  { intros n Hn. destruct (decide (n ≤ 7)).
    - assert (n = 0 ∨ n = 1 ∨ n = 2 ∨ n = 3 ∨ n = 4 ∨ n = 5 ∨ n = 6 ∨ n = 7) as Hc by lia.
      repeat destruct Hc as [->|Hc]; try subst n; done.
    - rewrite bool_decide_eq_false_2 by lia.
      apply (Z.bits_above_log2 66 n); [lia|]. change (Z.log2 66) with 6. lia. }
  assert (∀ n, 0 ≤ n → Z.testbit 1 n = bool_decide (n = 0)) as H1.
  { intros n Hn. destruct (decide (n = 0)) as [->|]; [done|].
    rewrite bool_decide_eq_false_2 by done.
    apply (Z.bits_above_log2 1 n); [lia|]. change (Z.log2 1) with 0. lia. }
  assert (∀ n, 0 ≤ n → Z.testbit 3 n = bool_decide (n = 0 ∨ n = 1)) as H3.
  { intros n Hn. destruct (decide (n ≤ 1)).
    - assert (n = 0 ∨ n = 1) as [->| ->] by lia; done.
    - rewrite bool_decide_eq_false_2 by lia.
      apply (Z.bits_above_log2 3 n); [lia|]. change (Z.log2 3) with 1. lia. }
  assert (∀ n, 0 ≤ n → Z.testbit 64 n = bool_decide (n = 6)) as H64.
  { intros n Hn. change 64 with (2 ^ 6). rewrite Z.pow2_bits_eqb by lia.
    destruct (Z.eqb_spec 6 n); [by rewrite bool_decide_eq_true_2
                               | by rewrite bool_decide_eq_false_2 by lia]. }
  split_and!.
  - apply Z.bits_inj'. intros n Hn.
    rewrite Z.land_spec, Z.lor_spec, Z.land_spec, Z.lnot_spec, H66, H1, H3 by done.
    change 2 with (2 ^ 1). rewrite Z.pow2_bits_eqb by lia.
    destruct (Z.eqb_spec 1 n) as [<-|]; [by destruct (Z.testbit flags 1)|].
    repeat case_bool_decide; try lia; simpl; by rewrite ?andb_false_r, ?orb_false_r.
  - apply Z.bits_inj'. intros n Hn.
    rewrite Z.land_spec, Z.lor_spec, Z.land_spec, Z.lnot_spec, H66, H1, H64 by done.
    repeat case_bool_decide; try lia; simpl; by rewrite ?andb_false_r, ?orb_false_r.
  - intros n Hn H6.
    rewrite Z.lor_spec, Z.land_spec, Z.lnot_spec, H66, H1 by lia.
    repeat case_bool_decide; try lia; simpl. by rewrite andb_true_r.
Qed.

(** ** Events *)

Lemma events_in_saveOverlayDir_value (P : Event → Prop) path d :
  (∀ img, P (EvSaveOverlayDir path img)) →
  preserves (events_in P) (saveOverlayDir_value path d).
Proof.
  intros HP w. unfold saveOverlayDir_value. case_match; simpl; [|reflexivity].
  eexists [_]. split; [done | by constructor].
Qed.

Lemma events_in_removeOverlayDir (P : Event → Prop) path :
  P (EvRemoveOverlayDir path) → preserves (events_in P) (removeOverlayDir path).
Proof. intros HP w. eexists [_]. split; [done | by constructor]. Qed.

Lemma events_in_mono (P Q : Event → Prop) w w' :
  (∀ ev, P ev → Q ev) → events_in P w w' → events_in Q w w'.
Proof. intros HPQ (l & ? & ?). exists l. split; [done | by eapply Forall_impl]. Qed.

Lemma events_in_elem (P : Event → Prop) w w' ev :
  events_in P w w' → ev ∈ trace w → ev ∈ trace w'.
Proof. intros (l & -> & _) ?. apply elem_of_app. by right. Qed.

(** Steps through a computation whose events all satisfy a predicate. *)
Ltac ev_step :=
  lazymatch goal with
  | |- preserves _ (withLock _ _ _) =>
      apply events_in_withLock; [done | by repeat constructor |]
  | |- preserves _ (withRLock _ _) =>
      apply events_in_withLock; [done | by repeat constructor |]
  | |- preserves _ (withWLock _ _) =>
      apply events_in_withLock; [done | by repeat constructor |]
  | |- preserves _ (SYNCHRONIZED_DUAL _ _ _) =>
      apply events_in_withLock; [done | by repeat constructor |]
  | |- preserves _ (syscall _ _) => apply events_in_syscall; done
  | |- preserves _ (saveOverlayDir _ _) => apply events_in_saveOverlayDir; done
  | |- preserves _ (saveOverlayDir_value _ _) => apply events_in_saveOverlayDir_value; done
  | |- preserves _ (removeOverlayDir _) => apply events_in_removeOverlayDir; done
  | |- preserves _ (materializeDirAndParents _ _ _) =>
      intros ?; eapply events_in_mono; [|apply events_in_materializeDirAndParents];
      by intros []
  | _ => first [ pres_step | apply events_in_kept; kept_step ]
  end.

Ltac ev_steps := repeat ev_step.

Section CreateFlags.
Context (kernel : list Event → Syscall → SysResult).

(** The steps of a [create] that returns. *)
Lemma create_Ok fuel this name md flags w res w' :
  create kernel fuel this name md flags w = (Ok res, w') →
  let myname := resolvePath (nameMgr w) this in
  let path := path_add myname name in
  ∃ wm wc,
    materializeDirAndParents kernel fuel this w = (Ok tt, wm) ∧
    create_commit kernel this name flags myname path wm = (Ok (cr_inode res, cr_node res), wc) ∧
    kernel (trace wc) (sys_fstat path) = SysOk (cr_attr_mode res) ∧
    w' = add_event (EvSyscall (sys_fstat path) (SysOk (cr_attr_mode res)))
           (set_journal (cons [path]) wc).
Proof.
  unfold create, resolvePathToNode. rewrite bind_gets. cbv beta zeta. intros H.
  apply bind_Ok_inv in H as ([] & wm & Hmat & H).
  apply bind_Ok_inv in H as ([inode node] & wc & Hcommit & H).
  apply bind_Ok_inv in H as ([] & wj & Hj & H). injection Hj as <-.
  apply bind_Ok_inv in H as (attr & wa & Hattr & H). injection H as <- <-.
  revert Hattr. unfold FileHandle_getattr. rewrite bind_unfold, run_syscall.
  change (trace (set_journal _ wc)) with (trace wc).
  destruct (kernel (trace wc) _) as [attr'|errno] eqn:Hk; simpl; [|done].
  intros [= -> <-]. by exists wm, wc.
Qed.

(** Whatever access mode and mode bits the caller gives, a [create] that
    succeeds has opened the overlay file read-write, with O_CREAT, the
    caller's other flags and the mode 0600. *)
Theorem create_opens_read_write fuel this name md flags w res w' :
  create kernel fuel this name md flags w = (Ok res, w') →
  ∃ fl v,
    EvSyscall (sys_open (path_add (resolvePath (nameMgr w) this) name) fl 384) (SysOk v)
      ∈ trace w' ∧
    Z.land fl 3 = O_RDWR ∧ Z.land fl O_CREAT = O_CREAT ∧
    (∀ n, 2 ≤ n → n ≠ 6 → Z.testbit fl n = Z.testbit flags n).
Proof.
  intros H. apply create_Ok in H as (wm & wc & _ & Hcommit & _ & ->).
  apply create_commit_Ok in Hcommit as (t & t' & q & st & v & img & _ & _ & _ & _ & _ & _ & Htr).
  exists (create_open_flags flags), v. split; [|apply create_open_flags_spec].
  simpl. rewrite Htr. unfold create_open_flags. simpl.
  do 4 (apply elem_of_cons; right). apply elem_of_cons. by left.
Qed.

End CreateFlags.

Lemma create_opens_read_write_witness :
  ∃ fl v,
    EvSyscall (sys_open (path_add (resolvePath (nameMgr w0) FUSE_ROOT_ID) "n") fl 384) (SysOk v)
      ∈ trace (create kernel_ok 2 FUSE_ROOT_ID "n" 420 O_WRONLY w0).2 ∧
    Z.land fl 3 = O_RDWR.
Proof.
  destruct (create_opens_read_write kernel_ok 2 FUSE_ROOT_ID "n" 420 O_WRONLY w0
              {| cr_inode := (2%N, {| file_parent := 1; file_entry := 3 |});
                 cr_attr_mode := 33152; cr_node := 2 |}
              (create kernel_ok 2 FUSE_ROOT_ID "n" 420 O_WRONLY w0).2)
    as (fl & v & Hin & Hrw & _).
  - vm_compute. reflexivity.
  - by exists fl, v.
Defined.

(** ** Mutations materialize *)

Section Mutations.
Context (kernel : list Event → Syscall → SysResult) (store : N → option Tree).

Lemma materialized_after {A} fuel this (m : M A) w wm a w' :
  materializeDirAndParents kernel fuel this w = (Ok tt, wm) →
  m wm = (Ok a, w') →
  preserves materialized_kept m →
  ∃ t, inodes w' !! this = Some (TreeI t) ∧ dir_materialized (contents_ t) = true.
Proof.
  intros Hmat Hm Hk. apply materialize_Ok in Hmat as (_ & t & _ & Ht & Hmt & _).
  specialize (Hk wm). rewrite Hm in Hk. by apply (Hk this t).
Qed.

Lemma run_op_materialized fuel op w w' i :
  run_op kernel store fuel op w = (Ok tt, w') → i ∈ op_dirs op →
  ∃ t, inodes w' !! i = Some (TreeI t) ∧ dir_materialized (contents_ t) = true.
Proof.
  intros H Hi. destruct op; simpl in *; try by apply elem_of_nil in Hi.
  - apply list_elem_of_singleton in Hi as ->.
    by apply materialize_Ok in H as (_ & t & _ & Ht & Hmt & _); eauto.
  - apply list_elem_of_singleton in Hi as ->.
    apply bind_Ok_inv in H as (res & w1 & H & [= <-]).
    unfold create, resolvePathToNode in H. rewrite bind_gets in H. cbv beta zeta in H.
    apply bind_Ok_inv in H as ([] & wm & Hmat & H).
    eapply (materialized_after _ _ _ _ _ _ _ Hmat H).
    unfold create_commit, finishCreate, FileHandle_getattr. mk_steps.
  - apply list_elem_of_singleton in Hi as ->.
    apply bind_Ok_inv in H as (res & w1 & H & [= <-]).
    unfold mkdir, resolvePathToNode in H. rewrite bind_gets in H. cbv beta zeta in H.
    apply bind_Ok_inv in H as ([] & wm & Hmat & H).
    eapply (materialized_after _ _ _ _ _ _ _ Hmat H). unfold mkdir_commit. mk_steps.
  - apply list_elem_of_singleton in Hi as ->.
    unfold unlink, resolvePathToNode in H. rewrite bind_gets in H. cbv beta zeta in H.
    apply bind_Ok_inv in H as (? & w1 & _ & H).
    apply bind_Ok_inv in H as ([] & wm & Hmat & H).
    eapply (materialized_after _ _ _ _ _ _ _ Hmat H).
    unfold unlink_commit, unlink_check. mk_steps.
  - apply list_elem_of_singleton in Hi as ->.
    unfold rmdir, resolvePathToNode in H. rewrite bind_gets in H. cbv beta zeta in H.
    apply bind_Ok_inv in H as (? & w1 & _ & H).
    apply bind_Ok_inv in H as ([] & wm & Hmat & H).
    eapply (materialized_after _ _ _ _ _ _ _ Hmat H).
    unfold rmdir_commit, rmdir_check. mk_steps.
  - unfold rename in H. rewrite bind_gets in H.
    destruct (inodes w !! newParent) as [[tn|]|] eqn:Hnp; try done.
    unfold resolvePathToNode in H. rewrite !bind_gets in H. cbv beta zeta in H.
    apply bind_Ok_inv in H as ([] & w1 & _ & H).
    apply bind_Ok_inv in H as ([] & wm & Hmat & H).
    case_bool_decide as Heq.
    + assert (i = this) as ->.
      { subst. repeat (apply elem_of_cons in Hi as [->|Hi]; [done|]). by apply elem_of_nil in Hi. }
      eapply (materialized_after _ _ _ _ _ _ _ Hmat H). mk_steps. apply mk_renameHelper.
    + apply elem_of_cons in Hi as [->|Hi].
      * eapply (materialized_after _ _ _ _ _ _ _ Hmat H). mk_steps. apply mk_renameHelper.
      * apply list_elem_of_singleton in Hi as ->.
        apply bind_Ok_inv in H as ([] & w2 & H & Hd).
        apply bind_Ok_inv in H as ([] & wm' & Hmat' & H).
        assert (preserves materialized_kept (addDelta [path_add (resolvePath (nameMgr w) this) name;
                  path_add (resolvePath (nameMgr w) newParent) newName])) as Hk by mk_steps.
        specialize (Hk w2). rewrite Hd in Hk.
        destruct (materialized_after _ _ _ _ _ _ _ Hmat' H) as (t & Ht & Hmt).
        { mk_steps. apply mk_renameHelper. }
        by apply (Hk newParent t).
Qed.

(** A request that changes a directory and succeeds leaves it materialized,
    so that the inode cannot be forgotten: [canForget] answers false. *)
Theorem canForget_after_mutation fuel op w w' i :
  run_op kernel store fuel op w = (Ok tt, w') → i ∈ op_dirs op →
  canForget i w' = (Ok false, add_event (EvUnlock i) (add_event (EvRLock i) w')).
Proof.
  intros H Hi. destruct (run_op_materialized _ _ _ _ _ H Hi) as (t & Ht & Hmt).
  unfold canForget, withRLock. rewrite withLock_unfold.
  rewrite (bind_Ok _ _ _ _ _ (run_the_contents i (add_event _ w') t Ht)).
  simpl. by rewrite Hmt.
Qed.

End Mutations.

Lemma canForget_after_mutation_witness :
  (run_op kernel_ok store0 2 (OpUnlink FUSE_ROOT_ID "a") w0).1 = Ok tt ∧
  (canForget FUSE_ROOT_ID (run_op kernel_ok store0 2 (OpUnlink FUSE_ROOT_ID "a") w0).2).1
  = Ok false.
Proof.
  split; [vm_compute; reflexivity|].
  rewrite (canForget_after_mutation kernel_ok store0 2 (OpUnlink FUSE_ROOT_ID "a") w0
             (run_op kernel_ok store0 2 (OpUnlink FUSE_ROOT_ID "a") w0).2 FUSE_ROOT_ID);
    [reflexivity | vm_compute; reflexivity | by constructor].
Defined.

(** ** What the steps that succeed have done *)

Lemma saveOverlayDir_value_Ok path d w w' :
  saveOverlayDir_value path d w = (Ok tt, w') →
  ∃ img, Dir_image (heap w) d = Some img ∧
    w' = add_event (EvSaveOverlayDir path img) (set_overlay (<[path := img]>) w).
Proof.
  unfold saveOverlayDir_value. destruct (Dir_image _ _) as [img|]; [|done].
  intros [= <-]. eauto.
Qed.

Lemma saveOverlayDir_Ok path i w w' :
  saveOverlayDir path i w = (Ok tt, w') →
  ∃ d img, Dir_of w i = Some d ∧ Dir_image (heap w) d = Some img ∧
    w' = add_event (EvSaveOverlayDir path img) (set_overlay (<[path := img]>) w).
Proof.
  unfold saveOverlayDir. intros H.
  apply bind_Ok_inv in H as (d & w1 & Hd & H).
  apply the_contents_Ok in Hd as [-> Hd].
  apply saveOverlayDir_value_Ok in H as (img & ? & ?). eauto.
Qed.

Lemma syscall_checked_Ok {B} kernel c (k : Z → M B) w b w' :
  (r ← syscall kernel c; v ← checkUnixError r; k v) w = (Ok b, w') →
  ∃ v, kernel (trace w) c = SysOk v ∧
       k v (add_event (EvSyscall c (SysOk v)) w) = (Ok b, w').
Proof.
  intros H. apply bind_Ok_inv in H as (r & w1 & Hs & H).
  rewrite run_syscall in Hs. injection Hs as <- <-.
  apply bind_Ok_inv in H as (v & w1 & Hc & H).
  destruct (kernel (trace w) c) as [v'|]; [|done]. injection Hc as <- <-. eauto.
Qed.

Lemma delete_Entry_Ok p w w' :
  delete_Entry p w = (Ok tt, w') →
  w' = if bool_decide (p = nullptr) then w else set_heap (delete p) w.
Proof. rewrite delete_Entry_run. by intros [= <-]. Qed.

(** ** mkdir *)

Section Mkdir.
Context (kernel : list Event → Syscall → SysResult) (store : N → option Tree).

Lemma mkdir_commit_done this name md myname targetName w w' :
  mkdir_commit kernel this name md myname targetName w = (Ok tt, w') →
  ∃ d q v st img,
    Dir_of w this = Some d ∧ entries d !! name = None ∧
    heap w !! q = None ∧ q ≠ nullptr ∧
    kernel (EvWLock this :: trace w) (sys_mkdir targetName md) = SysOk v ∧
    kernel (EvSyscall (sys_mkdir targetName md) (SysOk v) :: EvWLock this :: trace w)
      (sys_lstat targetName) = SysOk st ∧
    Dir_of w' this = Some (Dir_set_entries (<[name := q]> (entries d)) d) ∧
    heap w' = <[q := {| mode := st; hash := None; materialized := true |}]> (heap w) ∧
    Dir_image (heap w') (Dir_set_entries (<[name := q]> (entries d)) d) = Some img ∧
    overlay w' = <[targetName := {| img_entries := ∅; img_materialized := true;
                                    img_treeHash := None |}]>
                   (<[myname := img]> (overlay w)) ∧
    (∀ j, j ≠ this → inodes w' !! j = inodes w !! j) ∧
    nameMgr w' = nameMgr w ∧ journal w' = journal w ∧
    trace w' = [EvUnlock this;
                EvSaveOverlayDir targetName {| img_entries := ∅; img_materialized := true;
                                               img_treeHash := None |};
                EvSaveOverlayDir myname img;
                EvSyscall (sys_lstat targetName) (SysOk st);
                EvSyscall (sys_mkdir targetName md) (SysOk v);
                EvWLock this] ++ trace w.
Proof.
  unfold mkdir_commit, withWLock. intros H.
  apply withLock_Ok in H as (wb & H & ->).
  apply bind_Ok_inv in H as (d & w1 & Hd & H).
  apply the_contents_Ok in Hd as [-> Hd].
  apply bind_Ok_inv in H as ([] & w1 & Hex & H).
  case_bool_decide as Hn; [done|]. injection Hex as <-.
  apply syscall_checked_Ok in H as (v & Hmk & H).
  apply syscall_checked_Ok in H as (st & Hst & H).
  apply bind_Ok_inv in H as (q & w1 & Hq & H).
  destruct (new_Entry_spec {| mode := st; hash := None; materialized := true |}
              (add_event (EvSyscall (sys_lstat targetName) (SysOk st))
                 (add_event (EvSyscall (sys_mkdir targetName md) (SysOk v))
                    (add_event (EvWLock this) w)))) as (q' & Hq' & Hnull & Hfresh).
  rewrite Hq' in Hq. injection Hq as <- <-.
  apply bind_Ok_inv in H as ([] & w1 & Hu & H).
  apply update_contents_Ok in Hu as (t & Ht & ->).
  apply bind_Ok_inv in H as ([] & w1 & Hs1 & H).
  apply saveOverlayDir_Ok in Hs1 as (d1 & img & Hd1 & Himg & ->).
  apply saveOverlayDir_value_Ok in H as (img2 & Himg2 & ->).
  unfold Dir_set_materialized, Dir_default in Himg2. simpl in Himg2.
  rewrite Dir_image_empty in Himg2. injection Himg2 as <-.
  unfold Dir_of in Hd, Hd1. simpl in *. rewrite Ht in Hd. injection Hd as <-.
  rewrite lookup_insert_eq in Hd1. injection Hd1 as <-.
  exists (contents_ t), q', v, st, img. unfold Dir_of. simpl.
  rewrite Ht, lookup_insert_eq. split_and!; try done.
  - by apply eq_None_not_Some.
  - intros j Hj. by rewrite lookup_insert_ne.
Qed.

Lemma grows_heap_Dispatcher_lookup parent name :
  preserves (grows heap) (Dispatcher_lookup store parent name).
Proof.
  assert (∀ ev w, grows heap w (add_event ev w)) as Hev
    by (intros ev w; unfold grows; reflexivity).
  unfold Dispatcher_lookup, withRLock.
  apply preserves_withLock; [apply _ | apply Hev | |].
  { apply Forall_forall. intros ev _. apply Hev. }
  pres; try (apply kept_grows; kept_step); apply grows_heap_getChildByNameLocked.
Qed.

Lemma events_in_Dispatcher_lookup (P : Event → Prop) parent name :
  P (EvRLock parent) → P (EvUnlock parent) →
  preserves (events_in P) (Dispatcher_lookup store parent name).
Proof. intros. unfold Dispatcher_lookup. ev_steps. Qed.

(** What a [mkdir] that returns has done. *)
Lemma mkdir_done fuel this name md w d i w' :
  Dir_of w this = Some d →
  mkdir kernel store fuel this name md w = (Ok i, w') →
  ∃ d' q st,
    entries d !! name = None ∧
    Dir_of w' this = Some d' ∧
    entries d' = <[name := q]> (entries d) ∧
    dir_materialized d' = true ∧
    heap w !! q = None ∧
    heap w' !! q = Some {| mode := st; hash := None; materialized := true |} ∧
    EvSyscall (sys_lstat (path_add (resolvePath (nameMgr w) this) name)) (SysOk st)
      ∈ trace w' ∧
    overlay w' !! path_add (resolvePath (nameMgr w) this) name
      = Some {| img_entries := ∅; img_materialized := true; img_treeHash := None |}.
Proof.
  intros Hd H.
  unfold mkdir, resolvePathToNode in H. rewrite bind_gets in H. cbv beta zeta in H.
  apply bind_Ok_inv in H as ([] & wm & Hmat & H).
  apply bind_Ok_inv in H as ([] & wc & Hcommit & H).
  apply bind_Ok_inv in H as ([] & wj & Hj & H). injection Hj as <-.
  run_preserves stable Hmat ltac:(apply stable_materializeDirAndParents).
  destruct (stable_Dir_of _ _ _ _ Hpres Hd) as (dm & Hdm & Hem & _).
  apply materialize_Ok in Hmat as (_ & tm & _ & Htm & Hmm & _).
  assert (dm = contents_ tm) as -> by (unfold Dir_of in Hdm; rewrite Htm in Hdm; congruence).
  apply mkdir_commit_done in Hcommit
    as (d0 & q & v & st & img & Hd0 & Hnone & Hq & _ & _ & _ & Hdc & Hhc & _ & Hov & _ & _ & _ & Htr).
  rewrite Hdm in Hd0. injection Hd0 as <-.
  run_preserves (grows inodes) H ltac:(apply grows_inodes_Dispatcher_lookup).
  run_preserves (grows heap) H ltac:(apply grows_heap_Dispatcher_lookup).
  run_preserves (kept overlay) H ltac:(kept_steps).
  run_preserves (events_in (λ _ : Event, True)) H
    ltac:(by apply events_in_Dispatcher_lookup).
  unfold grows, kept in *. simpl in *.
  exists (Dir_set_entries (<[name := q]> (entries (contents_ tm))) (contents_ tm)), q, st.
  split_and!.
  - by rewrite <-Hem.
  - unfold Dir_of in Hdc |- *.
    destruct (inodes wc !! this) as [[tc|]|] eqn:Htc; try done.
    by rewrite (lookup_weaken _ _ _ _ Htc Hpres0).
  - simpl. by rewrite Hem.
  - done.
  - eapply stable_heap_None; [exact Hpres|done].
  - eapply lookup_weaken; [|exact Hpres1]. rewrite Hhc. apply lookup_insert_eq.
  - eapply events_in_elem; [exact Hpres3|]. simpl. rewrite Htr.
    rewrite !elem_of_cons. auto.
  - rewrite Hpres2, Hov. apply lookup_insert_eq.
Qed.

(** [mkdir] of a name that the directory has fails with EEXIST, once the
    directory is materialized and without a call of mkdir for the name; a
    [mkdir] that succeeds has added to the directory, which is materialized,
    one [Entry] for the name: new, materialized, without hash and with the
    mode that [lstat] gave, and the overlay has the record of an empty
    materialized directory under the path of the name. *)
Theorem mkdir_spec fuel this name md w d :
  Dir_of w this = Some d →
  let target := path_add (resolvePath (nameMgr w) this) name in
  (is_Some (entries d !! name) →
     ∀ wm, materializeDirAndParents kernel fuel this w = (Ok tt, wm) →
       mkdir kernel store fuel this name md w
       = (Throw (SystemError EEXIST), add_event (EvUnlock this) (add_event (EvWLock this) wm))) ∧
  (∀ i w', mkdir kernel store fuel this name md w = (Ok i, w') →
     ∃ d' q st,
       entries d !! name = None ∧
       Dir_of w' this = Some d' ∧
       entries d' = <[name := q]> (entries d) ∧
       dir_materialized d' = true ∧
       heap w !! q = None ∧
       heap w' !! q = Some {| mode := st; hash := None; materialized := true |} ∧
       EvSyscall (sys_lstat target) (SysOk st) ∈ trace w' ∧
       overlay w' !! target
         = Some {| img_entries := ∅; img_materialized := true; img_treeHash := None |}).
Proof.
  intros Hd target. split.
  - intros Hn wm Hmat.
    run_preserves stable Hmat ltac:(apply stable_materializeDirAndParents).
    destruct (stable_Dir_of _ _ _ _ Hpres Hd) as (dm & Hdm & Hem & _).
    unfold mkdir, resolvePathToNode. rewrite bind_gets. cbv beta zeta.
    rewrite (bind_Ok _ _ _ _ _ Hmat). rewrite bind_unfold.
    unfold mkdir_commit, withWLock. rewrite withLock_unfold.
    rewrite (bind_Ok _ _ _ dm (add_event (EvWLock this) wm))
      by (by apply run_the_contents_Dir).
    rewrite Hem, bool_decide_eq_true_2 by done. done.
  - intros i w' H. by apply (mkdir_done fuel this name md w d i w').
Qed.

End Mkdir.

Lemma mkdir_spec_witness :
  Dir_of w0 FUSE_ROOT_ID = Some (contents_ root0) ∧
  is_Some (entries (contents_ root0) !! "a") ∧
  (mkdir kernel_ok store0 2 FUSE_ROOT_ID "a" 493 w0).1 = Throw (SystemError EEXIST).
Proof.
  split; [reflexivity|]. split; [by eexists|].
  destruct (mkdir_spec kernel_ok store0 2 FUSE_ROOT_ID "a" 493 w0 (contents_ root0) eq_refl)
    as [Hex _].
  rewrite (Hex ltac:(by eexists) (materializeDirAndParents kernel_ok 2 FUSE_ROOT_ID w0).2);
    [reflexivity | vm_compute; reflexivity].
Defined.

(** ** rmdir *)

Section Rmdir.
Context (kernel : list Event → Syscall → SysResult) (store : N → option Tree).

Lemma rmdir_check_Ok this name w p w1 :
  rmdir_check store this name w = (Ok p, w1) →
  ∃ t e i td w0,
    inodes w !! this = Some (TreeI t) ∧
    entries (contents_ t) !! name = Some p ∧
    heap w !! p = Some e ∧ S_ISDIR (mode e) = true ∧
    lookupChildByNameLocked store this this name w = (Ok (Some (i, TreeI td)), w0) ∧
    entries (contents_ td) = ∅ ∧
    w1 = add_event (EvUnlock i) (add_event (EvRLock i) w0).
Proof.
  intros H. destruct (inodes w !! this) as [[t|]|] eqn:Hi.
  2,3: by (revert H; unfold rmdir_check, the_contents, the_TreeInode;
           rewrite !bind_unfold, Hi).
  rewrite (rmdir_check_run store _ _ _ _ Hi) in H.
  destruct (entries (contents_ t) !! name) as [q|] eqn:Hq; [|done].
  destruct (heap w !! q) as [e|] eqn:He; [|done].
  destruct (S_ISDIR (mode e)) eqn:Hd; [|done]. simpl in H.
  destruct (lookupChildByNameLocked store this this name w) as [[[[i [td|f]]|]|x] w0] eqn:Hl;
    try done.
  case_bool_decide as Hempty; [|done]. injection H as <- <-.
  by exists t, e, i, td, w0.
Qed.

(** What a [rmdir] that returns has done. *)
Lemma rmdir_done fuel this name w w' :
  rmdir kernel store fuel this name w = (Ok tt, w') →
  ∃ d p e d',
    Dir_of w this = Some d ∧ entries d !! name = Some p ∧
    heap w !! p = Some e ∧ S_ISDIR (mode e) = true ∧
    Dir_of w' this = Some d' ∧
    entries d' = delete name (entries d) ∧
    dir_materialized d' = true ∧
    (p ≠ nullptr → heap w' !! p = None) ∧
    overlay w' !! path_add (resolvePath (nameMgr w) this) name = None.
Proof.
  unfold rmdir, resolvePathToNode. rewrite bind_gets. cbv beta zeta. intros H.
  apply bind_Ok_inv in H as (p0 & w1 & Hpre & H).
  apply bind_Ok_inv in H as ([] & wm & Hmat & H).
  apply bind_Ok_inv in H as ([] & wc & Hcommit & H). injection H as <-.
  unfold withRLock in Hpre. apply withLock_Ok in Hpre as (wb & Hpre & ->).
  apply rmdir_check_Ok in Hpre as (t & e & i0 & td0 & w0 & Ht & Hp & He & Hdir & Hl0 & _ & ->).
  simpl in Ht, He.
  pose proof (frame_lookupChildByNameLocked store this this name
                (add_event (EvRLock this) w)) as Hfr.
  rewrite Hl0 in Hfr. destruct Hfr as [Hin0 _ _ _ _ _]. simpl in Hin0.
  run_preserves stable Hmat ltac:(apply stable_materializeDirAndParents).
  apply materialize_Ok in Hmat as (_ & tm & _ & Htm & Hmm & _).
  assert (entries (contents_ tm) = entries (contents_ t)) as Hem.
  { eapply (stable_entries _ _ this _ _ Hpres); [|exact Htm]. simpl.
    eapply lookup_weaken; [exact Ht | exact Hin0]. }
  unfold rmdir_commit, withWLock in Hcommit.
  apply withLock_Ok in Hcommit as (wb & Hbody & ->).
  apply bind_Ok_inv in Hbody as (p & w2 & Hchk & Hbody).
  apply rmdir_check_Ok in Hchk as (t2 & e2 & i & td & w3 & Ht2 & Hp2 & He2 & _ & Hl & _ & ->).
  simpl in Ht2, He2. rewrite Htm in Ht2. injection Ht2 as <-.
  rewrite Hem, Hp in Hp2. injection Hp2 as <-.
  pose proof (frame_lookupChildByNameLocked store this this name
                (add_event (EvWLock this) wm)) as Hfr.
  rewrite Hl in Hfr. destruct Hfr as [Hin3 Hh3 _ _ _ _]. simpl in Hin3, Hh3.
  apply bind_Ok_inv in Hbody as (e3 & w4 & He3 & Hbody).
  apply deref_Entry_Ok in He3 as [-> He3]. simpl in He3.
  apply bind_Ok_inv in Hbody as ([] & w4 & Hsys & Hbody).
  assert (inodes w4 = inodes w3 ∧ heap w4 = heap w3) as [Hi4 Hh4].
  { destruct (materialized e3); [|by injection Hsys as <-].
    apply syscall_checked_Ok in Hsys as (v & _ & Hsys). by injection Hsys as <-. }
  apply bind_Ok_inv in Hbody as ([] & w5 & Hu & Hbody).
  apply update_contents_Ok in Hu as (t4 & Ht4 & ->).
  apply bind_Ok_inv in Hbody as ([] & w6 & Hdel & Hbody).
  apply delete_Entry_Ok in Hdel as ->.
  apply bind_Ok_inv in Hbody as ([] & w7 & Hsave & Hbody).
  apply saveOverlayDir_Ok in Hsave as (d7 & img & _ & _ & ->).
  injection Hbody as <-.
  assert (t4 = tm) as ->.
  { rewrite Hi4 in Ht4. pose proof (lookup_weaken _ _ _ _ Htm Hin3). congruence. }
  exists (contents_ t), p0, e,
    (Dir_set_entries (delete name (entries (contents_ tm))) (contents_ tm)).
  unfold Dir_of. simpl. rewrite Ht.
  split_and!; try done.
  - destruct (bool_decide (p0 = nullptr)); simpl; by rewrite lookup_insert_eq.
  - simpl. by rewrite Hem.
  - intros Hnull. rewrite bool_decide_eq_false_2 by done. simpl. apply lookup_delete_eq.
  - apply lookup_delete_eq.
Qed.

(** A [rmdir] that succeeds has found under the name a directory entry
    whose directory is empty, has erased the entry from the directory, which
    is materialized, has destroyed the [Entry], and has removed the overlay
    record of the path. *)
Theorem rmdir_spec fuel this name w w' :
  rmdir kernel store fuel this name w = (Ok tt, w') →
  ∃ d p e d',
    Dir_of w this = Some d ∧ entries d !! name = Some p ∧
    heap w !! p = Some e ∧ S_ISDIR (mode e) = true ∧
    Dir_of w' this = Some d' ∧
    entries d' = delete name (entries d) ∧
    dir_materialized d' = true ∧
    (p ≠ nullptr → heap w' !! p = None) ∧
    overlay w' !! path_add (resolvePath (nameMgr w) this) name = None.
Proof. apply rmdir_done. Qed.

End Rmdir.

Lemma rmdir_spec_witness :
  (rmdir kernel_ok store0 2 FUSE_ROOT_ID "d" w_d).1 = Ok tt ∧
  ∃ d p d',
    Dir_of w_d FUSE_ROOT_ID = Some d ∧ entries d !! "d" = Some p ∧
    Dir_of (rmdir kernel_ok store0 2 FUSE_ROOT_ID "d" w_d).2 FUSE_ROOT_ID = Some d' ∧
    entries d' = delete "d" (entries d).
Proof.
  split; [vm_compute; reflexivity|].
  destruct (rmdir_spec kernel_ok store0 2 FUSE_ROOT_ID "d" w_d
              (rmdir kernel_ok store0 2 FUSE_ROOT_ID "d" w_d).2)
    as (d & p & e & d' & Hd & Hp & _ & _ & Hd' & He & _).
  - vm_compute. reflexivity.
  - exists d, p, d'. exact (conj Hd (conj Hp (conj Hd' He))).
Defined.

(** ** rename *)

Section RenameMore.
Context (kernel : list Event → Syscall → SysResult) (store : N → option Tree).

(** A rename that succeeds and whose destination is not the slot of the
    source has moved the [Entry] object: the destination name holds the
    object that the source name held, with the mode and the hash it had (its
    materialized flag can only have been set), and the source name is gone. *)
Theorem rename_moves_entry fuel this name newParent newName w w' d p :
  rename kernel store fuel this name newParent newName w = (Ok tt, w') →
  Dir_of w this = Some d →
  entries d !! name = Some p →
  (this, name) ≠ (newParent, newName) →
  ∃ e e', heap w !! p = Some e ∧ heap w' !! p = Some e' ∧
          mode e' = mode e ∧ hash e' = hash e ∧
          (materialized e = true → materialized e' = true) ∧
          entry_of w' newParent newName = Some p ∧
          entry_of w' this name = None.
Proof.
  intros H Hd Hp Hne.
  destruct (rename_Ok kernel store _ _ _ _ _ _ _ _ _ H Hd Hp) as [Hdiff _].
  destruct (Hdiff Hne) as (e & e' & ? & ? & (? & ? & ?) & ? & ?).
  by exists e, e'.
Qed.


(** The rename on disk: it is made exactly when the source [Entry] is
    materialized, and when it fails the error is thrown before any map is
    changed. *)
Theorem renameHelper_move_on_disk src sourceName dst destName sp se w :
  heap w !! sp = Some se →
  (materialized se = true →
     ∀ errno, kernel (trace w) (sys_rename sourceName destName) = SysFail errno →
       renameHelper_move kernel src sourceName dst destName sp w
       = (Throw (SystemError errno),
          add_event (EvSyscall (sys_rename sourceName destName) (SysFail errno)) w)) ∧
  (materialized se = false →
     events_in (λ ev, match ev with EvSaveOverlayDir _ _ => True | _ => False end)
       w (renameHelper_move kernel src sourceName dst destName sp w).2).
Proof.
  intros Hse. unfold renameHelper_move.
  rewrite (bind_Ok _ _ _ _ _ (run_deref_Entry _ _ _ Hse)).
  split.
  - intros -> errno Hk. rewrite !bind_unfold, run_syscall, Hk. done.
  - intros ->. rewrite (bind_Ok _ _ _ tt w) by done.
    match goal with |- events_in _ _ (?m w).2 => assert (preserves
      (events_in (λ ev, match ev with EvSaveOverlayDir _ _ => True | _ => False end)) m) as Hm
    end.
    { ev_steps. }
    apply Hm.
Qed.

End RenameMore.

Lemma rename_moves_entry_witness :
  Dir_of w0 FUSE_ROOT_ID = Some (contents_ root0) ∧
  entries (contents_ root0) !! "a" = Some 1%N ∧
  (rename kernel_ok store0 2 FUSE_ROOT_ID "a" FUSE_ROOT_ID "b" w0).1 = Ok tt ∧
  entry_of (rename kernel_ok store0 2 FUSE_ROOT_ID "a" FUSE_ROOT_ID "b" w0).2
    FUSE_ROOT_ID "b" = Some 1%N ∧
  entry_of (rename kernel_ok store0 2 FUSE_ROOT_ID "a" FUSE_ROOT_ID "b" w0).2
    FUSE_ROOT_ID "a" = None.
Proof.
  split; [reflexivity|]. split; [reflexivity|]. split; [vm_compute; reflexivity|].
  assert ((FUSE_ROOT_ID, "a") ≠ (FUSE_ROOT_ID, "b")) as Hne by (intros [=]).
  destruct (rename_moves_entry kernel_ok store0 2 FUSE_ROOT_ID "a" FUSE_ROOT_ID "b" w0
              (rename kernel_ok store0 2 FUSE_ROOT_ID "a" FUSE_ROOT_ID "b" w0).2
              (contents_ root0) 1%N ltac:(vm_compute; reflexivity) eq_refl eq_refl Hne)
    as (e & e' & _ & _ & _ & _ & _ & Hto & Hfrom).
  exact (conj Hto Hfrom).
Defined.


Lemma renameHelper_move_on_disk_witness :
  heap w0 !! 1%N = Some entry_a ∧ materialized entry_a = false ∧
  events_in (λ ev, match ev with EvSaveOverlayDir _ _ => True | _ => False end)
    w0 (renameHelper_move kernel_ok FUSE_ROOT_ID ["a"] FUSE_ROOT_ID ["b"] 1%N w0).2.
Proof.
  split; [reflexivity|]. split; [reflexivity|].
  destruct (renameHelper_move_on_disk kernel_ok FUSE_ROOT_ID ["a"] FUSE_ROOT_ID ["b"]
              1%N entry_a w0 eq_refl) as [_ Hquiet].
  apply Hquiet. reflexivity.
Defined.

(** ** Locks *)

Lemma locks_held_app l1 l2 : locks_held (l1 ++ l2) = locks_held l1 + locks_held l2.
Proof. induction l1 as [|ev l1 IH]; simpl; [done|]. rewrite IH. lia. Qed.

#[global] Instance locks_within_preorder n : PreOrder (locks_within n).
Proof.
  split.
  - intros w. exists []. split_and!; [done..|].
    intros l1 l2 Hl. symmetry in Hl. apply app_eq_nil in Hl as [_ ->]. simpl. lia.
  - intros w1 w2 w3 (la & Ha & Hza & Hba) (lb & Hb & Hzb & Hbb).
    exists (lb ++ la). split_and!.
    + by rewrite Hb, Ha, app_assoc.
    + rewrite locks_held_app. lia.
    + intros l1 l2 Hl. apply app_eq_inv in Hl as [(k & -> & ->)|(k & -> & ->)].
      * rewrite locks_held_app, Hza, Z.add_0_r. by apply (Hbb l1 k).
      * by apply (Hba k l2).
Qed.






Section Locks.
Context (kernel : list Event → Syscall → SysResult) (store : N → option Tree).





(** [rename] takes the two write locks together only for two different
    directories: it never asks for the lock of one directory twice. *)
Theorem rename_never_locks_twice fuel this name newParent newName w :
  events_in (λ ev, ∀ i, ev ≠ EvWLockDual i i) w
    (rename kernel store fuel this name newParent newName w).2.
Proof.
  unfold rename. rewrite bind_gets.
  destruct (inodes w !! newParent) as [[tn|]|]; try reflexivity.
  unfold resolvePathToNode. rewrite !bind_gets. cbv beta zeta.
  match goal with
  | |- events_in ?P _ (?m w).2 => assert (preserves (events_in P) m) as Hm
  end; [|apply Hm].
  case_bool_decide as Heq.
  - ev_steps; unfold renameHelper, renameHelper_check, renameHelper_move; ev_steps.
  - repeat lazymatch goal with
    | |- preserves _ (SYNCHRONIZED_DUAL _ _ _) =>
        unfold SYNCHRONIZED_DUAL; apply events_in_withLock;
        [by intros ? [= <- <-] | by repeat constructor |]
    | |- preserves _ (renameHelper _ _ _ _ _ _ _) =>
        unfold renameHelper, renameHelper_check, renameHelper_move
    | _ => ev_step
    end.
Qed.

End Locks.

Section MaterializeMore.
Context (kernel : list Event → Syscall → SysResult).

Lemma materialize_already fuel this w t :
  inodes w !! this = Some (TreeI t) →
  dir_materialized (contents_ t) = true →
  materializeDirAndParents kernel (S fuel) this w
  = (Ok tt, add_event (EvUnlock this) (add_event (EvRLock this) w)).
Proof.
  intros Hi Hm. simpl. rewrite (bind_Ok _ _ _ _ _ (run_the_TreeInode _ _ _ Hi)).
  erewrite (bind_Ok _ _ _ true); [reflexivity|].
  unfold withRLock. rewrite withLock_unfold.
  rewrite (bind_Ok _ _ _ _ _ (run_the_contents this (add_event _ w) t Hi)).
  simpl. by rewrite Hm.
Qed.

(** A materialization that returns has materialized the directory, and
    its parent if the directory was not materialized before (the root has no
    parent). *)
Theorem materialize_success fuel this w w' :
  materializeDirAndParents kernel fuel this w = (Ok tt, w') →
  ∃ t t',
    inodes w !! this = Some (TreeI t) ∧
    inodes w' !! this = Some (TreeI t') ∧
    dir_materialized (contents_ t') = true ∧
    entries (contents_ t') = entries (contents_ t) ∧
    (dir_materialized (contents_ t) = false → this ≠ FUSE_ROOT_ID →
       ∃ tp, inodes w' !! parent_ t = Some (TreeI tp) ∧
             dir_materialized (contents_ tp) = true).
Proof.
  intros H. pose proof H as Hst.
  run_preserves stable Hst ltac:(apply stable_materializeDirAndParents).
  apply materialize_Ok in H as (t & t' & Ht & Ht' & Hm & Hp).
  exists t, t'. split_and!; try done. by eapply stable_entries.
Qed.

(** When the [mkdir] of the overlay directory fails with an error other
    than EEXIST, materialization throws that error before it marks the
    directory: the inodes, the entries and the overlay are as they were.  It
    never throws EEXIST. *)
Theorem materialize_mkdir_failure fuel this w t errno :
  inodes w !! this = Some (TreeI t) →
  dir_materialized (contents_ t) = false →
  (this ≠ FUSE_ROOT_ID →
     ∃ tp, inodes w !! parent_ t = Some (TreeI tp) ∧ dir_materialized (contents_ tp) = true) →
  let wl := add_event (EvUnlock this) (add_event (EvRLock this) w) in
  let wp := if bool_decide (this ≠ FUSE_ROOT_ID)
            then add_event (EvUnlock (parent_ t)) (add_event (EvRLock (parent_ t)) wl)
            else wl in
  let mk := sys_mkdir (resolvePath (nameMgr w) this) 493 in
  kernel (EvWLock this :: trace wp) mk = SysFail errno →
  (errno ≠ EEXIST →
     materializeDirAndParents kernel (S (S fuel)) this w
     = (Throw (SystemError errno),
        add_event (EvUnlock this)
          (add_event (EvSyscall mk (SysFail errno)) (add_event (EvWLock this) wp)))) ∧
  (materializeDirAndParents kernel (S (S fuel)) this w).1 ≠ Throw (SystemError EEXIST).
Proof.
  intros Hi Hm Hpar wl wp mk Hk. split; [|apply nt_materializeDirAndParents].
  intros Herr.
  remember (S fuel) as f1 eqn:Hf1. simpl.
  rewrite (bind_Ok _ _ _ _ _ (run_the_TreeInode _ _ _ Hi)).
  rewrite (bind_Ok _ _ _ false wl).
  2: { unfold withRLock. rewrite withLock_unfold.
       rewrite (bind_Ok _ _ _ _ _ (run_the_contents this (add_event _ w) t Hi)).
       simpl. by rewrite Hm. }
  rewrite (bind_Ok _ _ _ tt wp).
  2: { unfold wp. case_bool_decide as Hroot; [|done].
       destruct (Hpar Hroot) as (tp & Htp & Hmp).
       rewrite (bind_Ok _ _ _ tp wl) by (by apply run_the_TreeInode).
       subst f1. by apply (materialize_already _ _ _ tp). }
  assert (inodes wp !! this = Some (TreeI t) ∧ nameMgr wp = nameMgr w) as [Hip Hnp]
    by (unfold wp; by destruct (bool_decide _)).
  rewrite bind_unfold. unfold withWLock. rewrite withLock_unfold.
  rewrite (bind_Ok _ _ _ _ _ (run_the_contents this (add_event _ wp) t Hip)).
  rewrite Hm. unfold resolvePathToNode. rewrite bind_gets. cbv beta. simpl nameMgr.
  rewrite Hnp. fold mk.
  rewrite (bind_Ok _ _ _ _ _ (run_syscall _ _ _)). simpl trace. rewrite Hk.
  rewrite bind_unfold. rewrite (bool_decide_eq_true_2 _ Herr). done.
Qed.

End MaterializeMore.

Lemma materialize_success_witness :
  (materializeDirAndParents kernel_ok 2 FUSE_ROOT_ID w0).1 = Ok tt ∧
  ∃ t', inodes (materializeDirAndParents kernel_ok 2 FUSE_ROOT_ID w0).2 !! FUSE_ROOT_ID
          = Some (TreeI t') ∧
        dir_materialized (contents_ t') = true ∧
        entries (contents_ t') = entries (contents_ root0).
Proof.
  split; [vm_compute; reflexivity|].
  destruct (materialize_success kernel_ok 2 FUSE_ROOT_ID w0
              (materializeDirAndParents kernel_ok 2 FUSE_ROOT_ID w0).2)
    as (t & t' & Ht & Ht' & Hm & He & _).
  - vm_compute. reflexivity.
  - exists t'. split_and!; [exact Ht' | exact Hm |].
    rewrite He. change (inodes w0 !! FUSE_ROOT_ID) with (Some (TreeI root0)) in Ht.
    by injection Ht as <-.
Defined.

Lemma materialize_mkdir_failure_witness :
  inodes w0 !! FUSE_ROOT_ID = Some (TreeI root0) ∧
  dir_materialized (contents_ root0) = false ∧
  (materializeDirAndParents (kernel_refusing is_sys_mkdir) 2 FUSE_ROOT_ID w0).1
  = Throw (SystemError EACCES).
Proof.
  split; [reflexivity|]. split; [reflexivity|].
  destruct (materialize_mkdir_failure (kernel_refusing is_sys_mkdir) 0 FUSE_ROOT_ID w0 root0
              EACCES eq_refl eq_refl) as [Hfail _].
  - intros Hroot. by destruct Hroot.
  - reflexivity.
  - rewrite Hfail; [reflexivity | vm_compute; discriminate].
Defined.

(** ** Requests one after the other *)

Lemma update_Entry_Ok p f w w' :
  update_Entry p f w = (Ok tt, w') →
  ∃ e, heap w !! p = Some e ∧ w' = set_heap (<[p := f e]>) w.
Proof.
  unfold update_Entry. intros H. apply bind_Ok_inv in H as (e & w1 & He & H).
  apply deref_Entry_Ok in He as [-> He]. injection H as <-. eauto.
Qed.

(** The node of (this, name) is found again once it was given. *)
Lemma getNodeByName_found parent name w i w2 :
  is_Some (inodes w !! parent) →
  getNodeByName parent name w = (Ok i, w2) →
  inodes w2 = inodes w ∧ heap w2 = heap w ∧ overlay w2 = overlay w ∧
  journal w2 = journal w ∧ trace w2 = trace w ∧
  resolvePath (nameMgr w2) parent = resolvePath (nameMgr w) parent ∧
  find_node (nameMgr w2) (path_add (resolvePath (nameMgr w2) parent) name) = Some i.
Proof.
  intros Hp Hn.
  destruct (getNodeByName_spec parent name w) as (i' & w2' & Hn' & _ & Hcase).
  rewrite Hn in Hn'. injection Hn' as <- <-.
  destruct Hcase as [[Hf ->]|(Hf & Hi & _ & ->)]; [done|]. simpl.
  assert (i ≠ parent) as Hne by (intros ->; apply Hi; by apply elem_of_dom).
  assert (resolvePath (<[i:=path_add (resolvePath (nameMgr w) parent) name]> (nameMgr w)) parent
          = resolvePath (nameMgr w) parent) as Hr
    by (unfold resolvePath; by rewrite lookup_insert_ne).
  split_and!; try done. rewrite Hr. by apply find_node_insert_fresh.
Qed.

Lemma getNodeByName_again parent name w i :
  find_node (nameMgr w) (path_add (resolvePath (nameMgr w) parent) name) = Some i →
  getNodeByName parent name w = (Ok i, w).
Proof. intros Hf. unfold getNodeByName. by rewrite Hf. Qed.

Lemma Dir_of_is_Some w i d : Dir_of w i = Some d → is_Some (inodes w !! i).
Proof. unfold Dir_of. destruct (inodes w !! i); [by eexists | done]. Qed.

Section CreateDone.
Context (kernel : list Event → Syscall → SysResult).

Lemma create_commit_done this name flags myname filePath w inode node w' :
  create_commit kernel this name flags myname filePath w = (Ok (inode, node), w') →
  ∃ d q st,
    Dir_of w this = Some d ∧
    inode = (node, {| file_parent := this; file_entry := q |}) ∧
    heap w !! q = None ∧ q ≠ nullptr ∧
    Dir_of w' this = Some (Dir_set_entries (<[name := q]> (entries d)) d) ∧
    heap w' !! q = Some {| mode := st; hash := None; materialized := true |} ∧
    resolvePath (nameMgr w') this = resolvePath (nameMgr w) this ∧
    find_node (nameMgr w') (path_add (resolvePath (nameMgr w') this) name) = Some node ∧
    journal w' = journal w.
Proof.
  unfold create_commit, withWLock. intros H.
  apply withLock_Ok in H as (wb & H & ->).
  apply syscall_checked_Ok in H as (v & _ & H).
  set (w1 := add_event _ _) in H.
  apply bind_Ok_inv in H as (d & w1' & Hd & H).
  apply the_contents_Ok in Hd as [-> Hd].
  apply bind_Ok_inv in H as ([] & w2 & Hslot & H).
  assert (∃ d2, Dir_of w2 this = Some d2 ∧
            d2 = Dir_set_entries (<[name := default nullptr (entries d !! name)]> (entries d)) d ∧
            heap w2 = heap w ∧ nameMgr w2 = nameMgr w ∧ journal w2 = journal w)
    as (d2 & Hd2 & Hd2' & Hh2 & Hn2 & Hj2).
  { destruct (entries d !! name) as [p|] eqn:Hp.
    - rewrite bool_decide_eq_true_2 in Hslot by eauto. injection Hslot as <-.
      exists d. simpl. rewrite insert_id by done. split_and!; try done. by destruct d.
    - rewrite bool_decide_eq_false_2 in Hslot by (intros [? ?]; done).
      rewrite (run_update_entries this (insert name nullptr) _ _ Hd) in Hslot.
      injection Hslot as <-. eexists. split; [by apply Dir_of_set_entries_eq|]. done. }
  apply bind_Ok_inv in H as (q & w3 & Hq & H).
  destruct (new_Entry_spec Entry_default w2) as (q' & Hq' & Hnull & Hfresh).
  rewrite Hq' in Hq. injection Hq as <- <-.
  apply bind_Ok_inv in H as (c & w3 & Hc & H).
  apply the_contents_Ok in Hc as [-> Hc].
  assert (c = d2) as -> by (unfold Dir_of in *; simpl in *; congruence).
  apply bind_Ok_inv in H as ([] & w3 & Hu & H).
  rewrite (run_update_entries this (insert name q') _ _ Hc) in Hu. injection Hu as <-.
  apply bind_Ok_inv in H as ([] & w4 & Hdel & H).
  apply delete_Entry_Ok in Hdel as ->.
  match type of H with _ ?W = _ => set (w4 := W) in H end.
  assert (Dir_of w4 this = Some (Dir_set_entries (<[name := q']> (entries d)) d)) as Hd4.
  { assert (Dir_of w4 this = Some (Dir_set_entries (<[name := q']> (entries d2)) d2)) as ->
      by (unfold w4; destruct (bool_decide (default nullptr _ = nullptr));
          by apply Dir_of_set_entries_eq).
    rewrite Hd2'. unfold Dir_set_entries. simpl. by rewrite insert_insert_eq. }
  assert (nameMgr w4 = nameMgr w ∧ journal w4 = journal w ∧
          ∀ e, heap w4 !! q' = Some e → e = Entry_default) as (Hn4 & Hj4 & Hq4).
  { unfold w4. destruct (bool_decide (default nullptr _ = nullptr)); simpl;
      (split_and!; [done|done|]); intros e He.
    - rewrite lookup_insert_eq in He. congruence.
    - apply lookup_delete_Some in He as [_ He]. rewrite lookup_insert_eq in He. congruence. }
  clearbody w4.
  apply bind_Ok_inv in H as ([] & w5 & Hm & H).
  apply update_Entry_Ok in Hm as (e5 & He5 & ->).
  apply syscall_checked_Ok in H as (st' & _ & H).
  apply bind_Ok_inv in H as ([] & w6 & Hmode & H).
  apply update_Entry_Ok in Hmode as (e6 & He6 & ->).
  apply bind_Ok_inv in H as (node' & w7 & Hnode & H).
  apply getNodeByName_found in Hnode as (Hi7 & Hh7 & Ho7 & Hj7 & Ht7 & Hr7 & Hf7).
  2: { eapply Dir_of_is_Some. exact Hd4. }
  apply bind_Ok_inv in H as ([] & w8 & Hfin & H). injection Hfin as <-.
  apply bind_Ok_inv in H as ([] & w8 & Hsave & H).
  apply saveOverlayDir_Ok in Hsave as (d8 & img & _ & _ & ->).
  injection H as <- <- <-.
  exists d, q', st'. unfold Dir_of in *. simpl in *.
  rewrite Hi7. split_and!; try done.
  - congruence.
  - rewrite Hh7, lookup_insert_eq. rewrite lookup_insert_eq in He6.
    injection He6 as <-. by rewrite (Hq4 _ He5).
  - by rewrite Hr7, Hn4.
  - congruence.
Qed.

End CreateDone.

Lemma size_delete_Z (m : gmap string N) name p :
  m !! name = Some p → Z.of_nat (size (delete name m)) = Z.of_nat (size m) - 1.
Proof.
  intros Hp. rewrite <-(insert_delete_id m name p Hp) at 2.
  rewrite map_size_insert_None by apply lookup_delete_eq. lia.
Qed.

Lemma size_insert_Z (m : gmap string N) name q :
  m !! name = None → Z.of_nat (size (<[name := q]> m)) = Z.of_nat (size m) + 1.
Proof. intros Hn. rewrite map_size_insert_None by done. lia. Qed.

Section Compose.
Context (kernel : list Event → Syscall → SysResult) (store : N → option Tree).

Lemma create_done fuel this name md flags w res w' :
  create kernel fuel this name md flags w = (Ok res, w') →
  ∃ d d' q st,
    Dir_of w this = Some d ∧
    cr_inode res = (cr_node res, {| file_parent := this; file_entry := q |}) ∧
    Dir_of w' this = Some d' ∧
    entries d' = <[name := q]> (entries d) ∧
    heap w' !! q = Some {| mode := st; hash := None; materialized := true |} ∧
    find_node (nameMgr w') (path_add (resolvePath (nameMgr w') this) name)
      = Some (cr_node res).
Proof.
  intros H. apply create_Ok in H as (wm & wc & Hmat & Hcommit & _ & ->).
  run_preserves stable Hmat ltac:(apply stable_materializeDirAndParents).
  apply create_commit_done in Hcommit
    as (dm & q & st & Hdm & Hino & _ & _ & Hd' & Hq & Hr & Hf & _).
  apply materialize_Ok in Hmat as (t & _ & Ht & _).
  assert (Dir_of w this = Some (contents_ t)) as Hd by (unfold Dir_of; by rewrite Ht).
  destruct (stable_Dir_of _ _ _ _ Hpres Hd) as (dm' & Hdm' & He & _).
  rewrite Hdm in Hdm'. injection Hdm' as <-.
  exists (contents_ t), (Dir_set_entries (<[name:=q]> (entries dm)) dm), q, st.
  split_and!; try done. simpl. by rewrite He.
Qed.

(** The file that [create] has returned is the one a lookup of the name
    gives next, when the mode that the new entry got is not that of a
    directory: the same inode number and the same file inode. *)
Theorem create_then_lookup fuel this name md flags w res w' e :
  create kernel fuel this name md flags w = (Ok res, w') →
  heap w' !! file_entry (cr_inode res).2 = Some e →
  S_ISDIR (mode e) = false →
  getChildByName store this name w'
  = (Ok (cr_node res, FileI (cr_inode res).2),
     add_event (EvUnlock this) (add_event (EvRLock this) w')).
Proof.
  intros H He Hfile.
  apply create_done in H as (d & d' & q & st & _ & Hino & Hd' & Hent & Hq & Hf).
  rewrite Hino in He |- *. simpl in He |- *.
  unfold getChildByName, withRLock. rewrite withLock_unfold.
  unfold getChildByNameLocked.
  rewrite (bind_Ok _ _ _ d' (add_event (EvRLock this) w'))
    by (by apply run_the_contents_Dir).
  rewrite Hent, lookup_insert_eq.
  rewrite (bind_Ok _ _ _ (cr_node res) (add_event (EvRLock this) w'))
    by (by apply getNodeByName_again).
  rewrite (bind_Ok _ _ _ e (add_event (EvRLock this) w'))
    by (apply run_deref_Entry; exact He).
  simpl. by rewrite Hfile.
Qed.

Lemma getChildByName_absent this name w d :
  Dir_of w this = Some d → entries d !! name = None →
  getChildByName store this name w
  = (Throw (SystemError ENOENT), add_event (EvUnlock this) (add_event (EvRLock this) w)).
Proof.
  intros Hd Hn. unfold getChildByName, withRLock. rewrite withLock_unfold.
  unfold getChildByNameLocked.
  rewrite (bind_Ok _ _ _ d (add_event (EvRLock this) w)) by (by apply run_the_contents_Dir).
  by rewrite Hn.
Qed.

Lemma unlink_done fuel this name w w' :
  unlink kernel fuel this name w = (Ok tt, w') →
  ∃ d p d',
    Dir_of w this = Some d ∧ entries d !! name = Some p ∧
    Dir_of w' this = Some d' ∧ entries d' = delete name (entries d).
Proof.
  unfold unlink, resolvePathToNode. rewrite bind_gets. cbv beta zeta. intros H.
  apply bind_Ok_inv in H as (p0 & w1 & Hpre & H).
  apply bind_Ok_inv in H as ([] & wm & Hmat & H).
  apply bind_Ok_inv in H as ([] & wc & Hcommit & H). injection H as <-.
  unfold withRLock in Hpre. apply withLock_Ok in Hpre as (wb & Hpre & ->).
  apply unlink_check_Ok in Hpre as (-> & t & e & Hi & Hp & _).
  simpl in Hi.
  run_preserves stable Hmat ltac:(apply stable_materializeDirAndParents).
  apply unlink_commit_Ok in Hcommit as (tm & p & e' & t' & img & Htm & _ & _ & Ht' & Hent & _).
  pose proof (stable_entries _ _ this t tm Hpres Hi Htm) as Hem.
  exists (contents_ t), p0, (contents_ t'). unfold Dir_of. simpl. rewrite Hi, Ht'.
  split_and!; try done. by rewrite Hent, Hem.
Qed.

Lemma rename_done fuel this name newParent newName w w' :
  rename kernel store fuel this name newParent newName w = (Ok tt, w') →
  ∃ d p d',
    Dir_of w this = Some d ∧ entries d !! name = Some p ∧
    Dir_of w' this = Some d' ∧ entries d' !! name = None.
Proof.
  intros Hrun. pose proof Hrun as H. revert H.
  unfold rename. rewrite bind_gets.
  destruct (inodes w !! newParent) as [[tn|]|] eqn:Hn; try done.
  unfold resolvePathToNode. rewrite !bind_gets. cbv beta zeta. intros H.
  apply bind_Ok_inv in H as ([] & w1 & Hpre & H).
  apply bind_Ok_inv in H as ([] & wm & Hmat & H).
  apply bind_Ok_inv in H as ([] & wr & Hren & H). injection H as <-.
  unfold withRLock in Hpre. apply withLock_Ok in Hpre as (wb & Hpre & ->).
  apply bind_Ok_inv in Hpre as (d & wb' & Hd & Hpre).
  apply the_contents_Ok in Hd as [-> Hd].
  change (Dir_of (add_event (EvRLock this) w) this) with (Dir_of w this) in Hd.
  destruct (entries d !! name) as [p|] eqn:Hp.
  2: { by rewrite bool_decide_eq_false_2 in Hpre by (by intros [? ?]). }
  clear Hpre.
  apply materialize_Ok in Hmat as (_ & tm & _ & Htm & Hmm & _).
  run_preserves materialized_kept Hren
    ltac:(mk_steps; apply mk_renameHelper).
  destruct (Hpres _ _ Htm Hmm) as (tr & Htr & _).
  assert (Dir_of (set_journal
            (cons [path_add (resolvePath (nameMgr w) this) name;
                   path_add (resolvePath (nameMgr w) newParent) newName]) wr) this
          = Some (contents_ tr)) as Hd'
    by (unfold Dir_of; simpl; by rewrite Htr).
  exists d, p, (contents_ tr). split_and!; try done.
  destruct (rename_Ok kernel store _ _ _ _ _ _ _ _ _ Hrun Hd Hp) as [Hne Heq].
  destruct (decide ((this, name) = (newParent, newName))) as [Hsame|Hdiff].
  - destruct (Heq Hsame) as (d' & Hd'' & He & _).
    rewrite Hd' in Hd''. injection Hd'' as <-. rewrite He. apply lookup_delete_eq.
  - destruct (Hne Hdiff) as (? & ? & _ & _ & _ & _ & Hnone).
    unfold entry_of in Hnone. by rewrite Hd' in Hnone.
Qed.

(** A name that [unlink], [rmdir] or [rename] has taken away is not found
    by the next lookup in the directory, which throws ENOENT. *)
Theorem lookup_after_removal fuel this name w w' :
  unlink kernel fuel this name w = (Ok tt, w') ∨
  rmdir kernel store fuel this name w = (Ok tt, w') ∨
  (∃ newParent newName,
     rename kernel store fuel this name newParent newName w = (Ok tt, w')) →
  getChildByName store this name w'
  = (Throw (SystemError ENOENT), add_event (EvUnlock this) (add_event (EvRLock this) w')).
Proof.
  intros [H|[H|(newParent & newName & H)]].
  - apply unlink_done in H as (d & p & d' & _ & _ & Hd' & He).
    apply (getChildByName_absent _ _ _ d'); [done|]. rewrite He. apply lookup_delete_eq.
  - apply rmdir_done in H as (d & p & e & d' & _ & _ & _ & _ & Hd' & He & _).
    apply (getChildByName_absent _ _ _ d'); [done|]. rewrite He. apply lookup_delete_eq.
  - apply rename_done in H as (d & p & d' & _ & _ & Hd' & He).
    by apply (getChildByName_absent _ _ _ d').
Qed.

Lemma nlink_Dir_of this w d :
  Dir_of w this = Some d → nlink this w = Some (Z.of_nat (size (entries d)) + 2).
Proof.
  intros Hd. unfold nlink, getattr, withRLock. rewrite withLock_unfold.
  by rewrite (bind_Ok _ _ _ d (add_event (EvRLock this) w))
    by (by apply run_the_contents_Dir).
Qed.

(** The link count that [getattr] reports follows the entries of the
    directory: one less after an [unlink] or [rmdir] that returned, one more
    after a [mkdir] that returned, and after a [create] that returned one
    more if the name was new and the same if the name was there. *)
Theorem nlink_after_mutation fuel this name w d :
  Dir_of w this = Some d →
  ∃ n, nlink this w = Some n ∧
    (∀ w', unlink kernel fuel this name w = (Ok tt, w') → nlink this w' = Some (n - 1)) ∧
    (∀ w', rmdir kernel store fuel this name w = (Ok tt, w') →
       nlink this w' = Some (n - 1)) ∧
    (∀ md i w', mkdir kernel store fuel this name md w = (Ok i, w') →
       nlink this w' = Some (n + 1)) ∧
    (∀ md flags res w', create kernel fuel this name md flags w = (Ok res, w') →
       nlink this w' = Some (match entries d !! name with
                             | Some _ => n
                             | None => n + 1
                             end)).
Proof.
  intros Hd. eexists. split; [by apply nlink_Dir_of|]. split_and!.
  - intros w' H. apply unlink_done in H as (d0 & p & d' & Hd0 & Hp & Hd' & He).
    rewrite Hd in Hd0. injection Hd0 as <-.
    rewrite (nlink_Dir_of _ _ _ Hd'), He, (size_delete_Z _ _ _ Hp). f_equal. lia.
  - intros w' H. apply rmdir_done in H as (d0 & p & e & d' & Hd0 & Hp & _ & _ & Hd' & He & _).
    rewrite Hd in Hd0. injection Hd0 as <-.
    rewrite (nlink_Dir_of _ _ _ Hd'), He, (size_delete_Z _ _ _ Hp). f_equal. lia.
  - intros md i w' H.
    apply (mkdir_done kernel store fuel this name md w d i w' Hd) in H
      as (d' & q & st & Hn & Hd' & He & _).
    rewrite (nlink_Dir_of _ _ _ Hd'), He, (size_insert_Z _ _ _ Hn). f_equal. lia.
  - intros md flags res w' H.
    apply create_done in H as (d0 & d' & q & st & Hd0 & _ & Hd' & He & _).
    rewrite Hd in Hd0. injection Hd0 as <-.
    rewrite (nlink_Dir_of _ _ _ Hd'), He. f_equal.
    destruct (entries d !! name) as [p|] eqn:Hp.
    + by rewrite map_size_insert_Some.
    + rewrite (size_insert_Z _ _ _ Hp). lia.
Qed.

End Compose.

Lemma create_then_lookup_witness :
  (create kernel_ok 2 FUSE_ROOT_ID "n" 420 0 w0).1
    = Ok {| cr_inode := (2%N, {| file_parent := 1; file_entry := 3 |});
            cr_attr_mode := 33152; cr_node := 2 |} ∧
  heap (create kernel_ok 2 FUSE_ROOT_ID "n" 420 0 w0).2 !! 3%N
    = Some {| mode := 33152; hash := None; materialized := true |} ∧
  (getChildByName store0 FUSE_ROOT_ID "n" (create kernel_ok 2 FUSE_ROOT_ID "n" 420 0 w0).2).1
    = Ok (2%N, FileI {| file_parent := 1; file_entry := 3 |}).
Proof.
  split; [vm_compute; reflexivity|]. split; [vm_compute; reflexivity|].
  rewrite (create_then_lookup kernel_ok store0 2 FUSE_ROOT_ID "n" 420 0 w0
             {| cr_inode := (2%N, {| file_parent := 1; file_entry := 3 |});
                cr_attr_mode := 33152; cr_node := 2 |}
             (create kernel_ok 2 FUSE_ROOT_ID "n" 420 0 w0).2
             {| mode := 33152; hash := None; materialized := true |});
    [reflexivity | vm_compute; reflexivity | vm_compute; reflexivity | reflexivity].
Defined.

Lemma lookup_after_removal_witness :
  (unlink kernel_ok 2 FUSE_ROOT_ID "a" w0).1 = Ok tt ∧
  (getChildByName store0 FUSE_ROOT_ID "a" (unlink kernel_ok 2 FUSE_ROOT_ID "a" w0).2).1
    = Throw (SystemError ENOENT).
Proof.
  split; [vm_compute; reflexivity|].
  rewrite (lookup_after_removal kernel_ok store0 2 FUSE_ROOT_ID "a" w0
             (unlink kernel_ok 2 FUSE_ROOT_ID "a" w0).2);
    [reflexivity | left; vm_compute; reflexivity].
Defined.

Lemma nlink_after_mutation_witness :
  Dir_of w0 FUSE_ROOT_ID = Some (contents_ root0) ∧
  (unlink kernel_ok 2 FUSE_ROOT_ID "a" w0).1 = Ok tt ∧
  ∃ n, nlink FUSE_ROOT_ID w0 = Some n ∧
       nlink FUSE_ROOT_ID (unlink kernel_ok 2 FUSE_ROOT_ID "a" w0).2 = Some (n - 1).
Proof.
  split; [reflexivity|]. split; [vm_compute; reflexivity|].
  destruct (nlink_after_mutation kernel_ok store0 2 FUSE_ROOT_ID "a" w0 (contents_ root0)
              eq_refl) as (n & Hn & Hunlink & _).
  exists n. split; [exact Hn|]. apply Hunlink. vm_compute. reflexivity.
Defined.
